(** * A resilient MCP tool-invocation layer, embedded in Rocq

    Shallow embedding of the resilience core of [adk-mcp-app/src]:
    - [error_recovery.py]       : [CircuitBreaker], [ErrorRecoveryManager.classify_error]
    - [enhanced_mcp_client.py]  : [EnhancedMCPClient.invoke_tool] with its cache and metrics
    - [mcp_connection_monitor.py] : [BatchExecutor]
    - [mcp_fallback_handler.py] : the attribute table of [MCPFallbackHandler]
    - [mcp_orchestrator.py]     : [MCPOrchestrator]

    Conventions.  A [datetime] is a [Z] (microseconds since the epoch) and a
    [timedelta] is a [Z] (microseconds); every call of [datetime.now()] is an
    explicit argument or a read of the world's clock.  Python [int]s are [Z].
    A Python exception is a value of [exn] and a call that may raise returns
    [result]. *)

From Stdlib Require Import ZArith List String Ascii Bool Lia.
From stdpp Require Import base option list gmap strings pretty.
Import ListNotations.
Set Warnings "-register-all".
Local Open Scope string_scope.
Local Open Scope list_scope.
Local Open Scope Z_scope.

(** ** Python exceptions and results *)

Module Py.

(** The exception classes the modelled code can meet.  [RequestError] is
    [httpx.RequestError]; every constructor is a subclass of [Exception]. *)
Inductive exn : Type :=
| AttributeError (obj attr : string)
| TypeError (msg : string)
| RuntimeError (msg : string)
| ValueError (msg : string)
| RequestError (msg : string)
| PlainException (msg : string).

(** [str(e)] *)
Definition str_exn (e : exn) : string :=
  match e with
  | AttributeError obj attr =>
      ("'" ++ obj ++ "' object has no attribute '" ++ attr ++ "'")%string
  | TypeError m | RuntimeError m | ValueError m | RequestError m
  | PlainException m => m
  end.

(** [isinstance(e, httpx.RequestError)] *)
Definition is_request_error (e : exn) : bool :=
  match e with RequestError _ => true | _ => false end.

(** A computation that returns [Ok v] or raises [Raise e]. *)
Inductive result (A : Type) : Type :=
| Ok (v : A)
| Raise (e : exn).
Arguments Ok {A} v.
Arguments Raise {A} e.

Definition returns {A} (r : result A) : bool :=
  match r with Ok _ => true | Raise _ => false end.

End Py.
Import Py.

(** ** error_recovery.py : CircuitBreaker *)

Module CircuitBreaker.

(** [class State(Enum)] *)
Inductive State : Type := CLOSED | OPEN | HALF_OPEN.

(** The fields set by [__init__]. *)
Record t : Type := mk {
  failure_threshold : Z;
  recovery_timeout : Z;
  success_threshold : Z;
  state : State;
  failure_count : Z;
  success_count : Z;
  last_failure_time : option Z;
  state_changed_at : Z
}.

(** [CircuitBreaker(failure_threshold, recovery_timeout, success_threshold)],
    constructed at time [now]. *)
Definition init (ft rt st now : Z) : t :=
  {| failure_threshold := ft; recovery_timeout := rt; success_threshold := st;
     state := CLOSED; failure_count := 0; success_count := 0;
     last_failure_time := None; state_changed_at := now |}.

(** The defaults of [__init__]: 5 failures, one minute, 2 successes. *)
Definition default (now : Z) : t := init 5 60000000 2 now.

Definition _open (now : Z) (cb : t) : t :=
  {| failure_threshold := failure_threshold cb;
     recovery_timeout := recovery_timeout cb;
     success_threshold := success_threshold cb;
     state := OPEN; failure_count := 0; success_count := 0;
     last_failure_time := last_failure_time cb; state_changed_at := now |}.

Definition _close (now : Z) (cb : t) : t :=
  {| failure_threshold := failure_threshold cb;
     recovery_timeout := recovery_timeout cb;
     success_threshold := success_threshold cb;
     state := CLOSED; failure_count := 0; success_count := 0;
     last_failure_time := last_failure_time cb; state_changed_at := now |}.

Definition _half_open (now : Z) (cb : t) : t :=
  {| failure_threshold := failure_threshold cb;
     recovery_timeout := recovery_timeout cb;
     success_threshold := success_threshold cb;
     state := HALF_OPEN; failure_count := failure_count cb; success_count := 0;
     last_failure_time := last_failure_time cb; state_changed_at := now |}.

Definition set_failure_count (n : Z) (cb : t) : t :=
  {| failure_threshold := failure_threshold cb;
     recovery_timeout := recovery_timeout cb;
     success_threshold := success_threshold cb;
     state := state cb; failure_count := n; success_count := success_count cb;
     last_failure_time := last_failure_time cb;
     state_changed_at := state_changed_at cb |}.

Definition set_success_count (n : Z) (cb : t) : t :=
  {| failure_threshold := failure_threshold cb;
     recovery_timeout := recovery_timeout cb;
     success_threshold := success_threshold cb;
     state := state cb; failure_count := failure_count cb; success_count := n;
     last_failure_time := last_failure_time cb;
     state_changed_at := state_changed_at cb |}.

Definition set_last_failure_time (now : Z) (cb : t) : t :=
  {| failure_threshold := failure_threshold cb;
     recovery_timeout := recovery_timeout cb;
     success_threshold := success_threshold cb;
     state := state cb; failure_count := failure_count cb;
     success_count := success_count cb;
     last_failure_time := Some now;
     state_changed_at := state_changed_at cb |}.

(** [call_succeeded]; [now] is only read by [_close]. *)
Definition call_succeeded (now : Z) (cb : t) : t :=
  match state cb with
  | HALF_OPEN =>
      let cb1 := set_success_count (success_count cb + 1) cb in
      if success_threshold cb1 <=? success_count cb1 then _close now cb1 else cb1
  | CLOSED => set_failure_count 0 cb
  | OPEN => cb
  end.

(** [call_failed] *)
Definition call_failed (now : Z) (cb : t) : t :=
  let cb0 := set_last_failure_time now cb in
  match state cb0 with
  | CLOSED =>
      let cb1 := set_failure_count (failure_count cb0 + 1) cb0 in
      if failure_threshold cb1 <=? failure_count cb1 then _open now cb1 else cb1
  | HALF_OPEN => _open now cb0
  | OPEN => cb0
  end.

(** [_should_attempt_recovery]: a [datetime] is always truthy, so
    [not self.last_failure_time] holds exactly for [None]. *)
Definition _should_attempt_recovery (now : Z) (cb : t) : bool :=
  match last_failure_time cb with
  | None => true
  | Some lft => recovery_timeout cb <? now - lft
  end.

(** [can_execute]: the answer and the breaker after the call. *)
Definition can_execute (now : Z) (cb : t) : bool * t :=
  match state cb with
  | CLOSED => (true, cb)
  | OPEN =>
      if _should_attempt_recovery now cb then (true, _half_open now cb)
      else (false, cb)
  | HALF_OPEN => (true, cb)
  end.

(** The three public operations, each stamped with the time it runs at. *)
Inductive op : Type := CallSucceeded | CallFailed | CanExecute.

Definition step (cb : t) (o : op * Z) : t :=
  match o with
  | (CallSucceeded, now) => call_succeeded now cb
  | (CallFailed, now) => call_failed now cb
  | (CanExecute, now) => snd (can_execute now cb)
  end.

Definition run (cb : t) (ops : list (op * Z)) : t := fold_left step ops cb.

(** [n] consecutive failures / successes at the given times. *)
Definition fail_all (ts : list Z) (cb : t) : t :=
  fold_left (fun c now => call_failed now c) ts cb.

Definition succeed_all (ts : list Z) (cb : t) : t :=
  fold_left (fun c now => call_succeeded now c) ts cb.

(** The configuration of a breaker: no operation touches it. *)
Definition same_config (a b : t) : Prop :=
  failure_threshold a = failure_threshold b /\
  recovery_timeout a = recovery_timeout b /\
  success_threshold a = success_threshold b.

(** What holds of the counters in every state the operations can reach,
    for thresholds of at least one. *)
Definition counters_ok (cb : t) : Prop :=
  0 <= failure_count cb /\ 0 <= success_count cb /\
  (state cb = CLOSED -> failure_count cb < failure_threshold cb) /\
  (state cb = HALF_OPEN -> success_count cb < success_threshold cb).

End CircuitBreaker.

(** ** error_recovery.py : ErrorRecoveryManager.classify_error *)

Module ErrorRecovery.

(** [class ErrorType(Enum)] *)
Inductive ErrorType : Type :=
| CONNECTION_ERROR
| TIMEOUT_ERROR
| VALIDATION_ERROR
| RATE_LIMIT_ERROR
| AUTHENTICATION_ERROR
| SERVER_ERROR
| UNKNOWN_ERROR.

(** [c.lower()] on one character: ASCII capitals move down by 32, every
    other byte is kept (messages are taken to be ASCII text). *)
Definition lower_ascii (c : ascii) : ascii :=
  let n := N_of_ascii c in
  if ((65 <=? n) && (n <=? 90))%N then ascii_of_N (n + 32) else c.

(** [s.lower()] *)
Fixpoint lower (s : string) : string :=
  match s with
  | EmptyString => EmptyString
  | String c s' => String (lower_ascii c) (lower s')
  end.

(** [term in s] for two strings: [term] occurs in [s] as a substring. *)
Fixpoint contains (term s : string) : bool :=
  if String.prefix term s then true
  else match s with
       | EmptyString => false
       | String _ s' => contains term s'
       end.

(** [any(term in error_str for term in terms)] *)
Definition any_term (terms : list string) (error_str : string) : bool :=
  existsb (fun term => contains term error_str) terms.

(** The term lists, as the literals of [classify_error] give them. *)
Definition connection_terms : list string := ["connection"; "connect"; "network"].
Definition timeout_terms : list string := ["timeout"; "timed out"].
Definition validation_terms : list string :=
  ["validation"; "invalid"; "missing required"].
Definition rate_limit_terms : list string :=
  ["rate limit"; "too many requests"; "429"].
Definition authentication_terms : list string :=
  ["unauthorized"; "authentication"; "401"; "403"].
Definition server_terms : list string := ["server error"; "500"; "502"; "503"].

(** The body of [classify_error] on [str(error)]. *)
Definition classify_message (message : string) : ErrorType :=
  let error_str := lower message in
  if any_term connection_terms error_str then CONNECTION_ERROR
  else if any_term timeout_terms error_str then TIMEOUT_ERROR
  else if any_term validation_terms error_str then VALIDATION_ERROR
  else if any_term rate_limit_terms error_str then RATE_LIMIT_ERROR
  else if any_term authentication_terms error_str then AUTHENTICATION_ERROR
  else if any_term server_terms error_str then SERVER_ERROR
  else UNKNOWN_ERROR.

(** [classify_error(error)] *)
Definition classify_error (error : exn) : ErrorType :=
  classify_message (str_exn error).

(** The precedence order as a table: category and its terms, first to last.
    This is the reading of the classifier as "ordered substring matching";
    [first_match] is compared with [classify_message] below. *)
Definition precedence : list (ErrorType * list string) :=
  [ (CONNECTION_ERROR, connection_terms);
    (TIMEOUT_ERROR, timeout_terms);
    (VALIDATION_ERROR, validation_terms);
    (RATE_LIMIT_ERROR, rate_limit_terms);
    (AUTHENTICATION_ERROR, authentication_terms);
    (SERVER_ERROR, server_terms) ].

Fixpoint first_match (table : list (ErrorType * list string))
    (error_str : string) : ErrorType :=
  match table with
  | [] => UNKNOWN_ERROR
  | (ty, terms) :: rest =>
      if any_term terms error_str then ty else first_match rest error_str
  end.

(** A three-digit HTTP status code of the 5xx class, as text. *)
Definition is_digit (c : ascii) : bool :=
  let n := N_of_ascii c in ((48 <=? n) && (n <=? 57))%N.

Definition is_5xx_code (code : string) : bool :=
  match code with
  | String "5" (String d1 (String d2 EmptyString)) => is_digit d1 && is_digit d2
  | _ => false
  end.

End ErrorRecovery.

(** ** JSON-like Python values *)

Module Value.

(** The values a decoded JSON document is made of; a Python [dict] with
    string keys is an association list whose first binding of a key counts. *)
Inductive value : Type :=
| VNone
| VBool (b : bool)
| VNum (n : Z)
| VStr (s : string)
| VList (l : list value)
| VDict (d : list (string * value)).

Definition dict : Type := list (string * value).

(** [d.get(k)] / [d[k]] *)
Fixpoint dict_get (d : dict) (k : string) : option value :=
  match d with
  | [] => None
  | (k', v) :: rest => if String.eqb k' k then Some v else dict_get rest k
  end.

(** [d[k] = v] *)
Definition dict_set (d : dict) (k : string) (v : value) : dict :=
  (k, v) :: filter (fun kv => negb (String.eqb (fst kv) k)) d.

(** [k in d] *)
Definition dict_has (d : dict) (k : string) : bool :=
  match dict_get d k with Some _ => true | None => false end.

Definition is_str (v : value) (s : string) : bool :=
  match v with VStr s' => String.eqb s' s | _ => false end.

(** [d.get('status') == s] *)
Definition status_is (d : dict) (s : string) : bool :=
  match dict_get d "status" with Some v => is_str v s | None => false end.

(** Truthiness of a string, as [if server_type:] reads it. *)
Definition truthy_str (s : string) : bool :=
  match s with EmptyString => false | _ => true end.

(** The [json] module: [loads] answers [None] for a [JSONDecodeError],
    [dumps] is [json.dumps(params, sort_keys=True)] and raises [TypeError]
    on what it cannot serialise. *)
Class JsonLib : Type := {
  json_loads : string -> option value;
  json_dumps : value -> result string
}.

End Value.
Import Value.

(** ** The world outside the process: clock and remote server *)

Module World.

(** What one [client.post(...)] yields: a response with its status code,
    body text and decoded JSON body ([None] when [resp.json()] raises), or
    an exception raised by the transport. *)
Inductive http_outcome : Type :=
| Response (status_code : Z) (text : string) (json : option value)
| HttpRaise (e : exn).

(** [clock] is what [datetime.now()] and the event loop's [time()] read;
    [net n] is what the [n]-th POST of the run yields and how long it takes;
    [posts] counts the POSTs performed so far. *)
Record t : Type := mk {
  clock : Z;
  net : nat -> Z * http_outcome;
  posts : nat
}.

(** [await asyncio.sleep(delay)] *)
Definition sleep (delay : Z) (w : t) : t :=
  {| clock := clock w + delay; net := net w; posts := posts w |}.

(** [await client.post(url, json=payload)] *)
Definition post (w : t) : http_outcome * t :=
  let '(elapsed, out) := net w (posts w) in
  (out, {| clock := clock w + elapsed; net := net w; posts := S (posts w) |}).

End World.

(** ** enhanced_mcp_client.py : EnhancedMCPClient *)

Module Client.

Import World.

(** [@dataclass MCPToolMetrics]; durations are kept in clock units. *)
Record MCPToolMetrics : Type := mkMetrics {
  tool_name : string;
  execution_count : Z;
  success_count : Z;
  failure_count : Z;
  total_duration_ms : Z;
  last_execution : option Z;
  last_error : option string
}.

(** [MCPToolMetrics(tool_name)] *)
Definition new_metrics (tool : string) : MCPToolMetrics :=
  {| tool_name := tool; execution_count := 0; success_count := 0;
     failure_count := 0; total_duration_ms := 0; last_execution := None;
     last_error := None |}.

(** [metric.execution_count += 1] *)
Definition bump_execution (m : MCPToolMetrics) : MCPToolMetrics :=
  {| tool_name := tool_name m; execution_count := execution_count m + 1;
     success_count := success_count m; failure_count := failure_count m;
     total_duration_ms := total_duration_ms m;
     last_execution := last_execution m; last_error := last_error m |}.

(** The three assignments of the success branch. *)
Definition record_success (duration now : Z) (m : MCPToolMetrics)
    : MCPToolMetrics :=
  {| tool_name := tool_name m; execution_count := execution_count m;
     success_count := success_count m + 1; failure_count := failure_count m;
     total_duration_ms := total_duration_ms m + duration;
     last_execution := Some now; last_error := last_error m |}.

(** [metric.failure_count += 1; metric.last_error = msg;
     metric.last_execution = datetime.now()] *)
Definition record_failure (msg : string) (now : Z) (m : MCPToolMetrics)
    : MCPToolMetrics :=
  {| tool_name := tool_name m; execution_count := execution_count m;
     success_count := success_count m; failure_count := failure_count m + 1;
     total_duration_ms := total_duration_ms m;
     last_execution := Some now; last_error := Some msg |}.

(** The fields of the client that [invoke_tool] and the orchestrator read.
    [client_pool] is [len(self.client_pool)]: the handles are opaque. *)
Record t : Type := mk {
  base_url : string;
  name : string;
  max_retries : Z;
  retry_delay : Z;
  tools : gmap string value;
  metrics : gmap string MCPToolMetrics;
  client_pool : nat;
  pool_index : nat;
  cache : gmap string (dict * Z);
  cache_ttl : Z
}.

Definition set_metrics (ms : gmap string MCPToolMetrics) (c : t) : t :=
  {| base_url := base_url c; name := name c; max_retries := max_retries c;
     retry_delay := retry_delay c; tools := tools c; metrics := ms;
     client_pool := client_pool c; pool_index := pool_index c;
     cache := cache c; cache_ttl := cache_ttl c |}.

Definition set_cache (ch : gmap string (dict * Z)) (c : t) : t :=
  {| base_url := base_url c; name := name c; max_retries := max_retries c;
     retry_delay := retry_delay c; tools := tools c; metrics := metrics c;
     client_pool := client_pool c; pool_index := pool_index c;
     cache := ch; cache_ttl := cache_ttl c |}.

Definition set_pool_index (i : nat) (c : t) : t :=
  {| base_url := base_url c; name := name c; max_retries := max_retries c;
     retry_delay := retry_delay c; tools := tools c; metrics := metrics c;
     client_pool := client_pool c; pool_index := i;
     cache := cache c; cache_ttl := cache_ttl c |}.

(** An update of [self.metrics[tool]] through the alias [metric]. *)
Definition update_metric (tool : string)
    (f : MCPToolMetrics -> MCPToolMetrics) (c : t) : t :=
  set_metrics (alter f tool (metrics c)) c.

(** [_get_client]: round robin over the pool, [RuntimeError] when empty. *)
Definition _get_client (c : t) : result t :=
  match client_pool c with
  | O => Raise (RuntimeError "Client pool not initialized")
  | S _ => Ok (set_pool_index ((pool_index c + 1) mod client_pool c)%nat c)
  end.

(** [_get_cache_key]: [f"{tool_name}:{json.dumps(params, sort_keys=True)}"] *)
Definition _get_cache_key `{JsonLib} (tool : string) (params : value)
    : result string :=
  match json_dumps params with
  | Ok js => Ok (tool ++ ":" ++ js)%string
  | Raise e => Raise e
  end.

(** [_get_cached_result]: the entry while [now - timestamp < cache_ttl],
    otherwise the entry is deleted and [None] is returned. *)
Definition _get_cached_result (cache_key : string) (now : Z) (c : t)
    : option dict * t :=
  match cache c !! cache_key with
  | Some (res, timestamp) =>
      if now - timestamp <? cache_ttl c then (Some res, c)
      else (None, set_cache (delete cache_key (cache c)) c)
  | None => (None, c)
  end.

(** [_set_cached_result] *)
Definition _set_cached_result (cache_key : string) (res : dict) (now : Z)
    (c : t) : t :=
  set_cache (<[cache_key := (res, now)]> (cache c)) c.

(** ["result" in result] for a decoded JSON document. *)
Definition has_result_key (doc : value) : result bool :=
  match doc with
  | VDict d => Ok (dict_has d "result")
  | VList l => Ok (existsb (fun v => is_str v "result") l)
  | VStr s => Ok (ErrorRecovery.contains "result" s)
  | VNone => Raise (TypeError "argument of type 'NoneType' is not iterable")
  | VBool _ => Raise (TypeError "argument of type 'bool' is not iterable")
  | VNum _ => Raise (TypeError "argument of type 'int' is not iterable")
  end.

(** One item of a [content] list, as the loop of [_parse_mcp_result]
    appends it. *)
Definition parse_item `{JsonLib} (item : value) : result value :=
  match item with
  | VDict d =>
      match dict_get d "type", dict_get d "text" with
      | Some ty, Some text_content =>
          if is_str ty "text" then
            match text_content with
            | VStr s =>
                match json_loads s with
                | Some parsed_json => Ok parsed_json
                | None => Ok text_content
                end
            | _ => Raise (TypeError
                     "the JSON object must be str, bytes or bytearray")
            end
          else Ok item
      | _, _ => Ok item
      end
  | _ => Ok item
  end.

Fixpoint parse_items `{JsonLib} (content : list value) : result (list value) :=
  match content with
  | [] => Ok []
  | item :: rest =>
      match parse_item item with
      | Raise e => Raise e
      | Ok v =>
          match parse_items rest with
          | Raise e => Raise e
          | Ok vs => Ok (v :: vs)
          end
      end
  end.

(** [{"results": r, "status": "success"}] *)
Definition success_dict (r : value) : dict :=
  [("results", r); ("status", VStr "success")].

(** [{"error": msg, "status": "error"}] *)
Definition error_dict (msg : string) : dict :=
  [("error", VStr msg); ("status", VStr "error")].

(** [_parse_mcp_result] *)
Definition _parse_mcp_result `{JsonLib} (doc : value) : result dict :=
  match has_result_key doc with
  | Raise e => Raise e
  | Ok false => Ok (success_dict doc)
  | Ok true =>
      match doc with
      | VDict d =>
          match dict_get d "result" with
          | Some mcp_result =>
              match mcp_result with
              | VDict m =>
                  match dict_get m "content" with
                  | Some (VList content) =>
                      match parse_items content with
                      | Ok parsed_results =>
                          Ok (success_dict (VList parsed_results))
                      | Raise e => Raise e
                      end
                  | Some content => Ok (success_dict content)
                  | None => Ok (success_dict mcp_result)
                  end
              | _ => Ok (success_dict mcp_result)
              end
          | None => Raise (PlainException "'result'")
          end
      | VList _ => Raise (TypeError "list indices must be integers or slices, not str")
      | _ => Raise (TypeError "string indices must be integers, not 'str'")
      end
  end.

(** How one pass through the body of the retry loop ends: with [continue]
    (or by falling off the end of the body), or with [return]. *)
Inductive attempt_end : Type :=
| Continue (c : t) (w : World.t)
| Return (r : dict) (c : t) (w : World.t).

(** The [except Exception as e] handler of [invoke_tool]. *)
Definition unexpected_error (tool : string) (e : exn) (c : t) (w : World.t)
    : attempt_end :=
  Return (error_dict (str_exn e))
         (update_metric tool (record_failure (str_exn e) (clock w)) c) w.

(** The body of [for attempt in range(self.max_retries)].  [cache_key] is
    [Some key] exactly when [use_cache] holds. *)
Definition attempt_body `{JsonLib} (tool : string) (cache_key : option string)
    (start_time : Z) (attempt : nat) (c : t) (w : World.t) : attempt_end :=
  let more := Z.of_nat attempt <? max_retries c - 1 in
  let backoff := retry_delay c * (Z.of_nat attempt + 1) in
  match _get_client c with
  | Raise e => unexpected_error tool e c w
  | Ok c1 =>
      let '(out, w1) := post w in
      match out with
      | Response status_code text json =>
          if status_code =? 200 then
            match json with
            | None => unexpected_error tool (ValueError "Expecting value") c1 w1
            | Some doc =>
                match _parse_mcp_result doc with
                | Raise e => unexpected_error tool e c1 w1
                | Ok parsed_result =>
                    let duration_ms := clock w1 - start_time in
                    let c2 := update_metric tool
                                (record_success duration_ms (clock w1)) c1 in
                    let c3 := match cache_key with
                              | Some key =>
                                  _set_cached_result key parsed_result (clock w1) c2
                              | None => c2
                              end in
                    Return parsed_result c3 w1
                end
            end
          else if 500 <=? status_code then
            if more then Continue c1 (sleep backoff w1) else Continue c1 w1
          else
            let error_msg := ("HTTP " ++ pretty status_code ++ ": " ++ text)%string in
            Return (error_dict error_msg)
                   (update_metric tool (record_failure error_msg (clock w1)) c1) w1
      | HttpRaise e =>
          if is_request_error e then
            if more then Continue c1 (sleep backoff w1)
            else Continue
                   (update_metric tool (record_failure (str_exn e) (clock w1)) c1)
                   w1
          else unexpected_error tool e c1 w1
      end
  end.

(** The statements after the loop: "All retries failed". *)
Definition all_retries_failed (tool : string) (c : t) (w : World.t)
    : dict * t * World.t :=
  let error_msg :=
    ("Failed after " ++ pretty (max_retries c) ++ " attempts")%string in
  (error_dict error_msg,
   update_metric tool (record_failure error_msg (clock w)) c, w).

(** The retry loop over the attempts still to run. *)
Fixpoint retry_loop `{JsonLib} (tool : string) (cache_key : option string)
    (start_time : Z) (attempts : list nat) (c : t) (w : World.t)
    : dict * t * World.t :=
  match attempts with
  | [] => all_retries_failed tool c w
  | attempt :: rest =>
      match attempt_body tool cache_key start_time attempt c w with
      | Return r c' w' => (r, c', w')
      | Continue c' w' => retry_loop tool cache_key start_time rest c' w'
      end
  end.

(** [range(n)] for a Python [int]. *)
Definition range (n : Z) : list nat := seq 0 (Z.to_nat n).

(** [invoke_tool] from "Update metrics" on: the part that is not served
    from the cache. *)
Definition uncached_call `{JsonLib} (tool : string) (cache_key : option string)
    (c : t) (w : World.t) : dict * t * World.t :=
  let c1 := match metrics c !! tool with
            | Some _ => c
            | None => set_metrics (<[tool := new_metrics tool]> (metrics c)) c
            end in
  let c2 := update_metric tool bump_execution c1 in
  retry_loop tool cache_key (clock w) (range (max_retries c2)) c2 w.

(** [invoke_tool(tool_name, params, use_cache)].  The only statement outside
    the [try] that can raise is [json.dumps] in [_get_cache_key]. *)
Definition invoke_tool `{JsonLib} (tool : string) (params : value)
    (use_cache : bool) (c : t) (w : World.t) : result dict * t * World.t :=
  if use_cache then
    match _get_cache_key tool params with
    | Raise e => (Raise e, c, w)
    | Ok cache_key =>
        match _get_cached_result cache_key (clock w) c with
        | (Some cached_result, c1) => (Ok cached_result, c1, w)
        | (None, c1) =>
            let '(r, c2, w2) := uncached_call tool (Some cache_key) c1 w in
            (Ok r, c2, w2)
        end
    end
  else
    let '(r, c2, w2) := uncached_call tool None c w in
    (Ok r, c2, w2).

(** The transport raised [httpx.RequestError]. *)
Definition raises_request_error (out : http_outcome) : bool :=
  match out with
  | HttpRaise e => is_request_error e
  | Response _ _ _ => false
  end.

(** The server answered with a status of 500 or more. *)
Definition is_server_error (out : http_outcome) : bool :=
  match out with
  | Response status_code _ _ => negb (status_code =? 200) && (500 <=? status_code)
  | HttpRaise _ => false
  end.

(** The statements of [invoke_tool] before "Update metrics":
    [Some (key, c')] when the call goes on to the network, with the cache
    key in hand ([None] when caching is off) and the client as the cache
    read left it; [None] when the call is served from the cache, or
    [json.dumps] raises. *)
Definition cache_stage `{JsonLib} (tool : string) (params : value)
    (use_cache : bool) (c : t) (w : World.t) : option (option string * t) :=
  if use_cache then
    match _get_cache_key tool params with
    | Raise _ => None
    | Ok key =>
        match _get_cached_result key (clock w) c with
        | (Some _, _) => None
        | (None, c1) => Some (Some key, c1)
        end
    end
  else Some (None, c).

(** The metrics of [tool] as a reader sees them: zero when never recorded. *)
Definition metric_of (c : t) (tool : string) : MCPToolMetrics :=
  default (new_metrics tool) (metrics c !! tool).

(** [get_available_tools(self)], called with the positional arguments
    [args]: the method takes none. *)
Definition get_available_tools (c : t) (args : list value)
    : result (list string) :=
  match args with
  | [] => Ok (map fst (map_to_list (tools c)))
  | _ => Raise (TypeError
           "get_available_tools() takes 1 positional argument but 2 were given")
  end.

(** What no part of [invoke_tool] changes in the client and in the world. *)
Definition same_setup (c c' : t) : Prop :=
  max_retries c' = max_retries c /\ client_pool c' = client_pool c /\
  cache_ttl c' = cache_ttl c /\ retry_delay c' = retry_delay c.

Definition same_net (w w' : World.t) : Prop :=
  net w' = net w /\ (posts w <= posts w')%nat.

(** The client and the world an attempt ends with. *)
Definition end_client (e : attempt_end) : t :=
  match e with Continue c _ | Return _ c _ => c end.

Definition end_world (e : attempt_end) : World.t :=
  match e with Continue _ w | Return _ _ w => w end.

(** The client at the start of the retry loop of [uncached_call]. *)
Definition loop_entry (tool : string) (c : t) : t :=
  update_metric tool bump_execution
    match metrics c !! tool with
    | Some _ => c
    | None => set_metrics (<[tool := new_metrics tool]> (metrics c)) c
    end.

(** How the counters of a tool moved between two metrics records. *)
Definition moved (m m' : MCPToolMetrics) (ds df : Z) : Prop :=
  execution_count m' = execution_count m /\
  success_count m' = success_count m + ds /\
  failure_count m' = failure_count m + df.

End Client.

(** ** mcp_fallback_handler.py : MCPFallbackHandler *)

Module Fallback.

(** The local store behind the [_fallback_*] implementations: what the
    implementation registered for a tool answers on the given parameters. *)
Class Store : Type := {
  fallback_func : string -> value -> result dict
}.

(** The instance attributes set by [__init__]; [fallback_tools] is kept as
    the list of its keys. *)
Record t : Type := mk {
  db_path : string;
  fallback_mode : bool;
  fallback_reasons : list string;
  fallback_tools : list string
}.

(** [MCPFallbackHandler(db_path)] *)
Definition init (path : string) : t :=
  {| db_path := path; fallback_mode := false; fallback_reasons := [];
     fallback_tools :=
       ["list_products"; "search_customers"; "get_customer_orders";
        "get_customer_value_by_status"; "sales_by_month"] |}.

(** Every name an instance of the class answers to: the four instance
    attributes and the methods of the class body, in source order. *)
Definition attributes : list string :=
  ["db_path"; "fallback_mode"; "fallback_reasons"; "fallback_tools";
   "_find_database"; "enable_fallback"; "disable_fallback";
   "is_tool_supported"; "execute_fallback_tool"; "_execute_query";
   "_fallback_list_products"; "_fallback_search_customers";
   "_fallback_get_customer_orders"; "_fallback_customer_value_by_status";
   "_fallback_sales_by_month"; "get_fallback_status"].

Definition has_attribute (attr : string) : bool :=
  existsb (String.eqb attr) attributes.

(** [is_tool_supported]: [tool_name in self.fallback_tools] *)
Definition is_tool_supported (h : t) (tool : string) : bool :=
  existsb (String.eqb tool) (fallback_tools h).

(** [execute_fallback_tool]; it catches every exception of the
    implementation and answers an error dictionary. *)
Definition execute_fallback_tool `{Store} (h : t) (tool : string)
    (params : value) : dict :=
  if negb (is_tool_supported h tool) then
    [("status", VStr "error");
     ("error", VStr ("No fallback implementation for tool: " ++ tool)%string);
     ("fallback", VBool true)]
  else
    match fallback_func tool params with
    | Ok res =>
        dict_set (dict_set res "fallback" (VBool true))
          "fallback_reason" (VStr (List.last (fallback_reasons h) "Unknown"))
    | Raise e =>
        [("status", VStr "error");
         ("error", VStr ("Fallback execution failed: " ++ str_exn e)%string);
         ("fallback", VBool true); ("tool_name", VStr tool)]
    end.

(** [handler.attr(args)]: attribute lookup, then the call.  A name the
    class does not define raises [AttributeError].  Only the two public
    methods a caller of the handler needs are given a body here; any other
    use of an existing name is reported as a [TypeError]. *)
Definition call_method `{Store} (h : t) (attr : string) (args : list value)
    : result value :=
  if negb (has_attribute attr) then
    Raise (AttributeError "MCPFallbackHandler" attr)
  else if String.eqb attr "is_tool_supported" then
    match args with
    | [VStr tool] => Ok (VBool (is_tool_supported h tool))
    | _ => Raise (TypeError "is_tool_supported(): unexpected arguments")
    end
  else if String.eqb attr "execute_fallback_tool" then
    match args with
    | [VStr tool; params] => Ok (VDict (execute_fallback_tool h tool params))
    | _ => Raise (TypeError "execute_fallback_tool(): unexpected arguments")
    end
  else Raise (TypeError "unexpected arguments").

End Fallback.

(** ** mcp_connection_monitor.py : BatchExecutor *)

Module Batch.

(** One entry of [tool_calls]: a dict with ['tool_name'] and, optionally,
    ['params']. *)
Record ToolCall : Type := mkCall {
  tool_name : string;
  params : option value
}.

(** [tool_call.get('params', {})] *)
Definition params_or_empty (tc : ToolCall) : value :=
  match params tc with Some p => p | None => VDict [] end.

(** [self.max_concurrent] and [self.execution_stats] *)
Record t : Type := mk {
  max_concurrent : Z;
  total_batches : Z;
  total_tools : Z;
  total_time_ms : Z;
  failures : Z
}.

(** [BatchExecutor(max_concurrent)] *)
Definition init (n : Z) : t :=
  {| max_concurrent := n; total_batches := 0; total_tools := 0;
     total_time_ms := 0; failures := 0 |}.

(** [{'status': 'error', 'error': msg, 'tool_name': tool}] *)
Definition error_result (msg tool : string) : dict :=
  [("status", VStr "error"); ("error", VStr msg); ("tool_name", VStr tool)].

Definition skipped_result (tool : string) : dict :=
  error_result "Skipped due to previous error" tool.

(** How a call of [_execute_parallel] can end: with the list (a slot no
    task has written holds [None]), with an exception, or never, when the
    semaphore admits nobody or [gather] waits for a task that does not
    finish. *)
Inductive ending (A : Type) : Type :=
| Returned (v : A)
| Raised (e : exn)
| Blocked.
Arguments Returned {A} v.
Arguments Raised {A} e.
Arguments Blocked {A}.

Section WithClient.

(** The [client] argument: any object with an [invoke_tool] coroutine. *)
Variable C : Type.
Variable invoke_tool : string -> value -> C -> result dict * C.

(** The [for] loop of [_execute_sequential]; [results] is the list built
    so far.  It ends at the end of the input or at a [break]. *)
Fixpoint sequential_loop (stop_on_error : bool) (tool_calls : list ToolCall)
    (results : list dict) (c : C) : list dict * C :=
  match tool_calls with
  | [] => (results, c)
  | tool_call :: rest =>
      match invoke_tool (tool_name tool_call) (params_or_empty tool_call) c with
      | (Ok res, c') =>
          let results' := results ++ [res] in
          if stop_on_error && status_is res "error" then (results', c')
          else sequential_loop stop_on_error rest results' c'
      | (Raise e, c') =>
          let results' :=
            results ++ [error_result (str_exn e) (tool_name tool_call)] in
          if stop_on_error then (results', c')
          else sequential_loop stop_on_error rest results' c'
      end
  end.

(** [while len(results) < len(tool_calls): results.append(skipped ...)];
    [fuel] bounds the number of passes. *)
Fixpoint fill_skipped (fuel : nat) (tool_calls : list ToolCall)
    (results : list dict) : list dict :=
  match fuel with
  | O => results
  | S fuel' =>
      if (length results <? length tool_calls)%nat then
        match tool_calls !! length results with
        | Some tc =>
            fill_skipped fuel' tool_calls
              (results ++ [skipped_result (tool_name tc)])
        | None => results
        end
      else results
  end.

(** [_execute_sequential] *)
Definition _execute_sequential (tool_calls : list ToolCall)
    (stop_on_error : bool) (c : C) : list dict * C :=
  let '(results, c') := sequential_loop stop_on_error tool_calls [] c in
  (fill_skipped (length tool_calls) tool_calls results, c').

(** [execute_with_semaphore(index, tool_call)]: the value left in
    [results[index]], whether the task ends by raising, and the client. *)
Definition execute_with_semaphore (stop_on_error : bool) (tool_call : ToolCall)
    (c : C) : dict * bool * C :=
  match invoke_tool (tool_name tool_call) (params_or_empty tool_call) c with
  | (Ok res, c') =>
      if stop_on_error && status_is res "error" then
        (error_result ("Tool " ++ tool_name tool_call ++ " failed")%string
                      (tool_name tool_call), true, c')
      else (res, false, c')
  | (Raise e, c') =>
      (error_result (str_exn e) (tool_name tool_call), stop_on_error, c')
  end.

(** The tasks that run while [_execute_parallel] is suspended in
    [await asyncio.gather(tasks..., return_exceptions=not stop_on_error)].
    [schedule] lists the tasks that have finished when the event loop runs
    [_execute_parallel] again, in the order they finish; a task that is still
    suspended in [client.invoke_tool] at that time is not in it.  Each task
    writes its slot of [results]; the answer also tells whether one of them
    ended by raising, which a task does only under [stop_on_error].  A raise
    does not stop the others: [gather] keeps the exception for its caller,
    and the loop resumes the caller only after the tasks that were ready to
    run have run, so the tasks later in [schedule] still write their slots. *)
Fixpoint gather (stop_on_error : bool) (tool_calls : list ToolCall)
    (schedule : list nat) (results : list (option dict)) (c : C)
    : list (option dict) * bool * C :=
  match schedule with
  | [] => (results, false, c)
  | index :: rest =>
      match tool_calls !! index with
      | None => gather stop_on_error tool_calls rest results c
      | Some tool_call =>
          let '(slot, raised, c') :=
            execute_with_semaphore stop_on_error tool_call c in
          let '(results', raised', c'') :=
            gather stop_on_error tool_calls rest
              (<[index := Some slot]> results) c' in
          (results', raised || raised', c'')
      end
  end.

(** Whether every task of the batch is among the finished ones. *)
Definition all_finished (tool_calls : list ToolCall) (schedule : list nat)
    : bool :=
  forallb (fun index => existsb (Nat.eqb index) schedule)
          (seq 0 (length tool_calls)).

(** [_execute_parallel]: [results = [None] * len(tool_calls)], the
    semaphore, the tasks and [gather].  The [await] ends once a task has
    raised (the exception is caught and printed) or every task has finished;
    either way [results] is returned as it stands at that time. *)
Definition _execute_parallel (b : t) (tool_calls : list ToolCall)
    (stop_on_error : bool) (schedule : list nat) (c : C)
    : ending (list (option dict)) * C :=
  let results := replicate (length tool_calls) (@None dict) in
  if max_concurrent b <? 0 then
    (Raised (ValueError "Semaphore initial value must be >= 0"), c)
  else if (max_concurrent b =? 0) && negb (Nat.eqb (length tool_calls) 0) then
    (Blocked, c)
  else
    let '(results', raised, c') :=
      gather stop_on_error tool_calls schedule results c in
    if raised || all_finished tool_calls schedule then (Returned results', c')
    else (Blocked, c').

(** [r.get('status') == 'error'] on an element of [results]. *)
Definition slot_is_error (r : option dict) : result bool :=
  match r with
  | Some d => Ok (status_is d "error")
  | None => Raise (AttributeError "NoneType" "get")
  end.

(** [sum(1 for r in results if r.get('status') == 'error')] *)
Fixpoint count_failures (results : list (option dict)) : result Z :=
  match results with
  | [] => Ok 0
  | r :: rest =>
      match slot_is_error r with
      | Raise e => Raise e
      | Ok is_err =>
          match count_failures rest with
          | Raise e => Raise e
          | Ok n => Ok (if is_err then 1 + n else n)
          end
      end
  end.

(** [execute_batch].  [schedule] lists the tasks of the parallel mode that
    have finished when [_execute_parallel] runs again, in the order they
    finish, and [elapsed_ms] is what the two reads of [time.time()] differ
    by. *)
Definition execute_batch (b : t) (tool_calls : list ToolCall)
    (parallel stop_on_error : bool) (schedule : list nat) (elapsed_ms : Z)
    (c : C) : ending (list (option dict)) * t * C :=
  let b1 := {| max_concurrent := max_concurrent b;
               total_batches := total_batches b + 1;
               total_tools := total_tools b + Z.of_nat (length tool_calls);
               total_time_ms := total_time_ms b; failures := failures b |} in
  let '(ran, c') :=
    if parallel then _execute_parallel b1 tool_calls stop_on_error schedule c
    else let '(rs, c') := _execute_sequential tool_calls stop_on_error c in
         (Returned (map Some rs), c') in
  match ran with
  | Raised e => (Raised e, b1, c')
  | Blocked => (Blocked, b1, c')
  | Returned results =>
      let b2 := {| max_concurrent := max_concurrent b1;
                   total_batches := total_batches b1;
                   total_tools := total_tools b1;
                   total_time_ms := total_time_ms b1 + elapsed_ms;
                   failures := failures b1 |} in
      match count_failures results with
      | Raise e => (Raised e, b2, c')
      | Ok n =>
          (Returned results,
           {| max_concurrent := max_concurrent b2;
              total_batches := total_batches b2;
              total_tools := total_tools b2;
              total_time_ms := total_time_ms b2;
              failures := failures b2 + n |}, c')
      end
  end.

(** Whether [client.invoke_tool] fails on a call: it raises, or answers a
    dictionary of status ["error"]. *)
Definition call_fails (tool_call : ToolCall) (c : C) : bool :=
  match fst (invoke_tool (tool_name tool_call) (params_or_empty tool_call) c) with
  | Ok d => status_is d "error"
  | Raise _ => true
  end.


End WithClient.

End Batch.

(** ** mcp_orchestrator.py : MCPOrchestrator *)

Module Orchestrator.

Import World.

(** [class ExecutionMode(Enum)] *)
Inductive ExecutionMode : Type := PRIMARY | FALLBACK | DEGRADED | RECOVERY.

Definition mode_eqb (a b : ExecutionMode) : bool :=
  match a, b with
  | PRIMARY, PRIMARY | FALLBACK, FALLBACK
  | DEGRADED, DEGRADED | RECOVERY, RECOVERY => true
  | _, _ => false
  end.

(** [@dataclass RecoveryStrategy]; delays in clock units. *)
Record RecoveryStrategy : Type := mkStrategy {
  max_retries : Z;
  initial_delay : Z;
  max_delay : Z;
  backoff_factor : Z;
  recovery_window : Z
}.

(** [RecoveryStrategy()]: 3 retries, 1 s, 60 s, factor 2, 5 minutes. *)
Definition default_strategy : RecoveryStrategy :=
  {| max_retries := 3; initial_delay := 1000000; max_delay := 60000000;
     backoff_factor := 2; recovery_window := 300000000 |}.

(** [@dataclass ExecutionResult] *)
Record ExecutionResult : Type := mkResult {
  success : bool;
  result : option dict;
  mode : ExecutionMode;
  execution_time : Z;
  error : option string;
  retries : Z
}.

(** One entry of [self.mode_metrics]. *)
Record ModeMetrics : Type := mkModeMetrics {
  executions : Z;
  successes : Z;
  total_time : Z
}.

(** A coroutine handed to [asyncio.create_task]. *)
Inductive Task : Type := AttemptRecovery.

(** The state [__init__] sets up.  [tasks] collects what [create_task]
    was given, oldest first. *)
Record t : Type := mk {
  primary_url : string;
  recovery_strategy : RecoveryStrategy;
  enhanced_client : Client.t;
  fallback_handler : option Fallback.t;
  current_mode : ExecutionMode;
  mode_history : list (Z * ExecutionMode);
  recovery_attempts : Z;
  last_recovery_attempt : option Z;
  consecutive_errors : Z;
  error_threshold : Z;
  error_history : list (Z * string);
  mode_metrics : ExecutionMode -> ModeMetrics;
  tasks : list Task
}.

(** [MCPOrchestrator(primary_url, dynamic_url, database_path,
    recovery_strategy)] around an already built client: the handler exists
    exactly when a [database_path] is given. *)
Definition init (url : string) (database_path : option string)
    (strategy : RecoveryStrategy) (client : Client.t) : t :=
  {| primary_url := url; recovery_strategy := strategy;
     enhanced_client := client;
     fallback_handler := option_map Fallback.init database_path;
     current_mode := PRIMARY; mode_history := [];
     recovery_attempts := 0; last_recovery_attempt := None;
     consecutive_errors := 0; error_threshold := 3; error_history := [];
     mode_metrics := fun _ => {| executions := 0; successes := 0; total_time := 0 |};
     tasks := [] |}.

Definition set_client (c : Client.t) (o : t) : t :=
  {| primary_url := primary_url o; recovery_strategy := recovery_strategy o;
     enhanced_client := c; fallback_handler := fallback_handler o;
     current_mode := current_mode o; mode_history := mode_history o;
     recovery_attempts := recovery_attempts o;
     last_recovery_attempt := last_recovery_attempt o;
     consecutive_errors := consecutive_errors o;
     error_threshold := error_threshold o; error_history := error_history o;
     mode_metrics := mode_metrics o; tasks := tasks o |}.

Definition set_mode (m : ExecutionMode) (h : list (Z * ExecutionMode)) (o : t) : t :=
  {| primary_url := primary_url o; recovery_strategy := recovery_strategy o;
     enhanced_client := enhanced_client o; fallback_handler := fallback_handler o;
     current_mode := m; mode_history := h;
     recovery_attempts := recovery_attempts o;
     last_recovery_attempt := last_recovery_attempt o;
     consecutive_errors := consecutive_errors o;
     error_threshold := error_threshold o; error_history := error_history o;
     mode_metrics := mode_metrics o; tasks := tasks o |}.

Definition set_recovery (n : Z) (last : option Z) (o : t) : t :=
  {| primary_url := primary_url o; recovery_strategy := recovery_strategy o;
     enhanced_client := enhanced_client o; fallback_handler := fallback_handler o;
     current_mode := current_mode o; mode_history := mode_history o;
     recovery_attempts := n; last_recovery_attempt := last;
     consecutive_errors := consecutive_errors o;
     error_threshold := error_threshold o; error_history := error_history o;
     mode_metrics := mode_metrics o; tasks := tasks o |}.

Definition set_errors (n : Z) (h : list (Z * string)) (o : t) : t :=
  {| primary_url := primary_url o; recovery_strategy := recovery_strategy o;
     enhanced_client := enhanced_client o; fallback_handler := fallback_handler o;
     current_mode := current_mode o; mode_history := mode_history o;
     recovery_attempts := recovery_attempts o;
     last_recovery_attempt := last_recovery_attempt o;
     consecutive_errors := n;
     error_threshold := error_threshold o; error_history := h;
     mode_metrics := mode_metrics o; tasks := tasks o |}.

Definition set_mode_metrics (f : ExecutionMode -> ModeMetrics) (o : t) : t :=
  {| primary_url := primary_url o; recovery_strategy := recovery_strategy o;
     enhanced_client := enhanced_client o; fallback_handler := fallback_handler o;
     current_mode := current_mode o; mode_history := mode_history o;
     recovery_attempts := recovery_attempts o;
     last_recovery_attempt := last_recovery_attempt o;
     consecutive_errors := consecutive_errors o;
     error_threshold := error_threshold o; error_history := error_history o;
     mode_metrics := f; tasks := tasks o |}.

(** [asyncio.create_task(coro)] *)
Definition create_task (k : Task) (o : t) : t :=
  {| primary_url := primary_url o; recovery_strategy := recovery_strategy o;
     enhanced_client := enhanced_client o; fallback_handler := fallback_handler o;
     current_mode := current_mode o; mode_history := mode_history o;
     recovery_attempts := recovery_attempts o;
     last_recovery_attempt := last_recovery_attempt o;
     consecutive_errors := consecutive_errors o;
     error_threshold := error_threshold o; error_history := error_history o;
     mode_metrics := mode_metrics o; tasks := tasks o ++ [k] |}.

(** [l[-100:]] after an [append]: the last 100 entries. *)
Definition last_100 {A} (l : list A) : list A :=
  if (100 <? length l)%nat then drop (length l - 100)%nat l else l.

(** [_record_mode_change] *)
Definition _record_mode_change (m : ExecutionMode) (now : Z) (o : t) : t :=
  set_mode (current_mode o) (last_100 (mode_history o ++ [(now, m)])) o.

(** [_switch_mode] *)
Definition _switch_mode (new_mode : ExecutionMode) (now : Z) (o : t) : t :=
  if mode_eqb new_mode (current_mode o) then o
  else _record_mode_change new_mode now
         (set_mode new_mode (mode_history o) o).

(** [FALLBACK if self.fallback_handler else DEGRADED] *)
Definition failover_mode (o : t) : ExecutionMode :=
  match fallback_handler o with Some _ => FALLBACK | None => DEGRADED end.

(** [_handle_failure(server, error)], the monitor's failure callback. *)
Definition _handle_failure (server err : string) (now : Z) (o : t) : t :=
  let o1 := set_errors (consecutive_errors o + 1)
              (last_100 (error_history o ++ [(now, err)])) o in
  if error_threshold o1 <=? consecutive_errors o1 then
    if mode_eqb (current_mode o1) PRIMARY
    then _switch_mode (failover_mode o1) now o1
    else o1
  else o1.

(** [await x] where [x] is a plain list: not awaitable. *)
Definition await_list {A} (l : list A) : Py.result (list A) :=
  Raise (TypeError "object list can't be used in 'await' expression").

(** [_test_primary_connection]:
    [tools = await self.enhanced_client.get_available_tools("primary")],
    [len(tools) > 0], and [False] on any exception. *)
Definition _test_primary_connection (o : t) : bool :=
  match Client.get_available_tools (enhanced_client o) [VStr "primary"] with
  | Raise _ => false
  | Ok coro =>
      match await_list coro with
      | Raise _ => false
      | Ok tools => (0 <? length tools)%nat
      end
  end.

(** [_should_attempt_recovery] *)
Definition _should_attempt_recovery (now : Z) (o : t) : bool :=
  match last_recovery_attempt o with
  | None => true
  | Some last => recovery_window (recovery_strategy o) <? now - last
  end.

(** [_attempt_recovery] *)
Definition _attempt_recovery (now : Z) (o : t) : t :=
  if mode_eqb (current_mode o) PRIMARY then o
  else
    let o1 := set_recovery (recovery_attempts o + 1) (Some now) o in
    let o2 := _switch_mode RECOVERY now o1 in
    if _test_primary_connection o2 then
      let o3 := _switch_mode PRIMARY now o2 in
      set_recovery 0 (last_recovery_attempt o3) o3
    else _switch_mode (failover_mode o2) now o2.

(** Running the tasks [create_task] has queued, oldest first. *)
Definition run_task (k : Task) (now : Z) (o : t) : t :=
  match k with AttemptRecovery => _attempt_recovery now o end.

Definition run_tasks (now : Z) (o : t) : t :=
  fold_left (fun acc k => run_task k now acc) (tasks o)
    {| primary_url := primary_url o; recovery_strategy := recovery_strategy o;
       enhanced_client := enhanced_client o;
       fallback_handler := fallback_handler o;
       current_mode := current_mode o; mode_history := mode_history o;
       recovery_attempts := recovery_attempts o;
       last_recovery_attempt := last_recovery_attempt o;
       consecutive_errors := consecutive_errors o;
       error_threshold := error_threshold o; error_history := error_history o;
       mode_metrics := mode_metrics o; tasks := [] |}.

(** [_handle_successful_execution] *)
Definition _handle_successful_execution (r : ExecutionResult) (now : Z)
    (o : t) : t :=
  let o1 := set_errors 0 (error_history o) o in
  let old := mode_metrics o1 (mode r) in
  let upd := {| executions := executions old + 1;
                successes := successes old + 1;
                total_time := total_time old + execution_time r |} in
  let o2 := set_mode_metrics
              (fun m => if mode_eqb m (mode r) then upd else mode_metrics o1 m)
              o1 in
  if mode_eqb (mode r) FALLBACK && _should_attempt_recovery now o2
  then create_task AttemptRecovery o2
  else o2.

(** The delay before the next attempt:
    [min(initial_delay * backoff_factor ** attempt, max_delay)] *)
Definition retry_delay (s : RecoveryStrategy) (attempt : nat) : Z :=
  Z.min (initial_delay s * backoff_factor s ^ Z.of_nat attempt) (max_delay s).

(** The [for attempt in range(max_retries)] loop of
    [_try_primary_execution].  The client is called as
    [invoke_tool(tool_name, parameters, server_type)], so [server_type]
    lands in the [use_cache] position and is read for its truth value. *)
Fixpoint primary_loop `{JsonLib} (tool : string) (parameters : value)
    (server_type : string) (start_time : Z) (attempts : list nat)
    (retries_so_far : Z) (last_error : option string) (o : t) (w : World.t)
    : ExecutionResult * t * World.t :=
  match attempts with
  | [] =>
      ({| success := false; result := None; mode := PRIMARY;
          execution_time := clock w - start_time; error := last_error;
          retries := retries_so_far |}, o, w)
  | attempt :: rest =>
      match Client.invoke_tool tool parameters (truthy_str server_type)
              (enhanced_client o) w with
      | (Ok res, c', w') =>
          ({| success := true; result := Some res; mode := PRIMARY;
              execution_time := clock w' - start_time; error := None;
              retries := retries_so_far |}, set_client c' o, w')
      | (Raise e, c', w') =>
          let s := recovery_strategy o in
          let w'' := if Z.of_nat attempt <? max_retries s - 1
                     then sleep (retry_delay s attempt) w' else w' in
          primary_loop tool parameters server_type start_time rest
            (retries_so_far + 1) (Some (str_exn e)) (set_client c' o) w''
      end
  end.

(** [_try_primary_execution] *)
Definition _try_primary_execution `{JsonLib} (tool : string)
    (parameters : value) (server_type : string) (o : t) (w : World.t)
    : ExecutionResult * t * World.t :=
  primary_loop tool parameters server_type (clock w)
    (Client.range (max_retries (recovery_strategy o))) 0 None o w.

(** [_can_use_fallback]: [self.fallback_handler.supports_tool(tool_name)] *)
Definition _can_use_fallback `{Fallback.Store} (tool : string) (o : t)
    : Py.result value :=
  match fallback_handler o with
  | None => Ok (VBool false)
  | Some h => Fallback.call_method h "supports_tool" [VStr tool]
  end.

(** Truth value of what [_can_use_fallback] answers. *)
Definition truthy (v : value) : bool :=
  match v with
  | VNone => false
  | VBool b => b
  | VNum n => negb (n =? 0)
  | VStr s => truthy_str s
  | VList l => negb (Nat.eqb (length l) 0)
  | VDict d => negb (Nat.eqb (length d) 0)
  end.

(** [_try_fallback_execution]:
    [await self.fallback_handler.execute_fallback(tool_name, parameters)]
    inside [try ... except Exception]. *)
Definition _try_fallback_execution `{Fallback.Store} (h : Fallback.t)
    (tool : string) (parameters : value) (previous_retries : Z)
    (w : World.t) : ExecutionResult :=
  let start_time := clock w in
  match Fallback.call_method h "execute_fallback" [VStr tool; parameters] with
  | Ok (VDict res) =>
      {| success := true; result := Some res; mode := FALLBACK;
         execution_time := clock w - start_time; error := None;
         retries := previous_retries |}
  | Ok _ =>
      {| success := true; result := None; mode := FALLBACK;
         execution_time := clock w - start_time; error := None;
         retries := previous_retries |}
  | Raise e =>
      {| success := false; result := None; mode := FALLBACK;
         execution_time := clock w - start_time; error := Some (str_exn e);
         retries := previous_retries |}
  end.

(** The last statement of [execute_tool]. *)
Definition degraded_result (start_time : Z) (retries_so_far : Z)
    (w : World.t) : ExecutionResult :=
  {| success := false; result := None; mode := DEGRADED;
     execution_time := clock w - start_time;
     error := Some "All execution methods failed";
     retries := retries_so_far |}.

(** [execute_tool] from "Try fallback if available" on. *)
Definition fallback_stage `{Fallback.Store} (tool : string) (parameters : value)
    (start_time retries_so_far : Z) (o : t) (w : World.t)
    : Py.result ExecutionResult * t * World.t :=
  match fallback_handler o with
  | None => (Ok (degraded_result start_time retries_so_far w), o, w)
  | Some h =>
      match _can_use_fallback tool o with
      | Raise e => (Raise e, o, w)
      | Ok can =>
          if truthy can then
            let r := _try_fallback_execution h tool parameters retries_so_far w in
            if success r
            then (Ok r, _handle_successful_execution r (clock w) o, w)
            else (Ok (degraded_result start_time retries_so_far w), o, w)
          else (Ok (degraded_result start_time retries_so_far w), o, w)
      end
  end.

(** [execute_tool(tool_name, parameters, server_type)] *)
Definition execute_tool `{JsonLib} `{Fallback.Store} (tool : string)
    (parameters : value) (server_type : string) (o : t) (w : World.t)
    : Py.result ExecutionResult * t * World.t :=
  let start_time := clock w in
  if mode_eqb (current_mode o) PRIMARY || mode_eqb (current_mode o) RECOVERY
  then
    let '(r, o1, w1) := _try_primary_execution tool parameters server_type o w in
    if success r
    then (Ok r, _handle_successful_execution r (clock w1) o1, w1)
    else fallback_stage tool parameters start_time (retries r) o1 w1
  else fallback_stage tool parameters start_time 0 o w.

(** The result [_try_primary_execution] builds around a returned value. *)
Definition primary_success (payload : dict) (elapsed retries_so_far : Z)
    : ExecutionResult :=
  {| success := true; result := Some payload; mode := PRIMARY;
     execution_time := elapsed; error := None; retries := retries_so_far |}.

End Orchestrator.

(** ** mcp_fallback_handler.py : ToolValidator *)

(** Parameters are [dict]s of [value]s, so a number is an integer: Python
    floats are outside the model.  The schemas declare only [int] and [str],
    which leaves the [float] and [bool] branches of the conversion step
    without a caller; they are not modelled.  The warning printed for
    unexpected parameters changes no result and is left out. *)

Module Validator.

(** The Python builtins the validator calls on strings: [int(s)] ([None]
    for a [ValueError]), [str(v)] and [re.match(pattern, s)] (whether there
    is a match). *)
Class Builtins : Type := {
  int_of_str : string -> option Z;
  str_of : value -> string;
  re_match : string -> string -> bool
}.

(** The types the schemas name. *)
Inductive PyType : Type := TInt | TStr.

(** [expected_type.__name__] *)
Definition type_name (ty : PyType) : string :=
  match ty with TInt => "int" | TStr => "str" end.

(** [isinstance(v, ty)]; a [bool] is an [int]. *)
Definition isinstance (v : value) (ty : PyType) : bool :=
  match ty, v with
  | TInt, VNum _ => true
  | TInt, VBool _ => true
  | TStr, VStr _ => true
  | _, _ => false
  end.

(** [int(v)] and [str(v)], as the conversion step calls them. *)
Definition convert `{Builtins} (ty : PyType) (v : value) : result value :=
  match ty with
  | TInt =>
      match v with
      | VNum n => Ok (VNum n)
      | VBool b => Ok (VNum (if b then 1 else 0))
      | VStr s =>
          match int_of_str s with
          | Some n => Ok (VNum n)
          | None => Raise (ValueError "invalid literal for int() with base 10")
          end
      | _ => Raise (TypeError
               "int() argument must be a string, a bytes-like object or a real number")
      end
  | TStr => Ok (VStr (str_of v))
  end.

(** The number an order comparison reads in a value; comparing anything
    else with an [int] raises [TypeError]. *)
Definition as_int (v : value) : result Z :=
  match v with
  | VNum n => Ok n
  | VBool b => Ok (if b then 1 else 0)
  | _ => Raise (TypeError "'<=' not supported between these instances")
  end.

(** [lambda x: x > 0] *)
Definition positive (x : value) : result bool :=
  match as_int x with Ok n => Ok (0 <? n) | Raise e => Raise e end.

(** [lambda x: x >= 1] *)
Definition at_least_one (x : value) : result bool :=
  match as_int x with Ok n => Ok (1 <=? n) | Raise e => Raise e end.

(** [lambda x: 1 <= x <= 1000] *)
Definition one_to_thousand (x : value) : result bool :=
  match as_int x with
  | Ok n => Ok ((1 <=? n) && (n <=? 1000))
  | Raise e => Raise e
  end.

(** [lambda x: x in ['pending', 'paid', 'shipped', 'cancelled']] *)
Definition is_order_status (x : value) : result bool :=
  Ok (existsb (is_str x) ["pending"; "paid"; "shipped"; "cancelled"]).

(** The three patterns of [_validate_iso_date], as raw strings. *)
Definition iso_date_patterns : list string :=
  ["^\d{4}-\d{2}-\d{2}T\d{2}:\d{2}:\d{2}Z?$";
   "^\d{4}-\d{2}-\d{2} \d{2}:\d{2}:\d{2}$";
   "^\d{4}-\d{2}-\d{2}$"].

(** [_validate_iso_date]: [re.match] raises on what is not a string, and
    the bare [except] answers [False]. *)
Definition _validate_iso_date `{Builtins} (date_str : value) : bool :=
  match date_str with
  | VStr s => existsb (fun pattern => re_match pattern s) iso_date_patterns
  | _ => false
  end.

(** One entry of [self.tool_schemas]; [defaults] is
    [schema.get('defaults', {})]. *)
Record Schema : Type := mkSchema {
  required : list string;
  optional : list string;
  types : list (string * PyType);
  defaults : dict;
  validators : list (string * (value -> result bool))
}.

(** [self.tool_schemas], in source order. *)
Definition tool_schemas `{Builtins} : list (string * Schema) :=
  [("search_customers",
    {| required := []; optional := ["name_pattern"; "limit"];
       types := [("name_pattern", TStr); ("limit", TInt)];
       defaults := [("name_pattern", VStr "%"); ("limit", VNum 10)];
       validators := [("limit", one_to_thousand)] |});
   ("get_customer_orders",
    {| required := ["customer_id"]; optional := [];
       types := [("customer_id", TInt)]; defaults := [];
       validators := [("customer_id", positive)] |});
   ("get_customer_value_by_status",
    {| required := ["customer_id"]; optional := [];
       types := [("customer_id", TInt)]; defaults := [];
       validators := [("customer_id", positive)] |});
   ("list_products",
    {| required := []; optional := []; types := []; defaults := [];
       validators := [] |});
   ("create_order",
    {| required := ["customer_id"]; optional := [];
       types := [("customer_id", TInt)]; defaults := [];
       validators := [("customer_id", positive)] |});
   ("add_order_item",
    {| required := ["order_id"; "product_id"; "quantity"]; optional := [];
       types := [("order_id", TInt); ("product_id", TInt); ("quantity", TInt)];
       defaults := [];
       validators := [("order_id", positive); ("product_id", positive);
                      ("quantity", at_least_one)] |});
   ("update_order_status",
    {| required := ["order_id"; "new_status"]; optional := [];
       types := [("order_id", TInt); ("new_status", TStr)]; defaults := [];
       validators := [("order_id", positive); ("new_status", is_order_status)] |});
   ("sales_by_month",
    {| required := []; optional := ["start_date"; "end_date"; "currency"];
       types := [("start_date", TStr); ("end_date", TStr); ("currency", TStr)];
       defaults := [("currency", VStr "VND")];
       validators :=
         [("start_date", fun x => Ok (_validate_iso_date x));
          ("end_date", fun x => Ok (_validate_iso_date x))] |});
   ("execute_dynamic_sql",
    {| required := ["natural_language_query"]; optional := ["max_results"];
       types := [("natural_language_query", TStr); ("max_results", TInt)];
       defaults := [("max_results", VNum 100)];
       validators := [("max_results", one_to_thousand)] |})].

(** [d.get(k)] on a dictionary with string keys. *)
Fixpoint assoc {A : Type} (d : list (string * A)) (k : string) : option A :=
  match d with
  | [] => None
  | (k', v) :: rest => if String.eqb k' k then Some v else assoc rest k
  end.

(** [d[k] = v] on a dictionary that keeps insertion order: a key that is
    there keeps its place, a new key goes to the end. *)
Fixpoint dict_put (d : dict) (k : string) (v : value) : dict :=
  match d with
  | [] => [(k, v)]
  | (k', v') :: rest =>
      if String.eqb k' k then (k', v) :: rest
      else (k', v') :: dict_put rest k v
  end.

(** The loop over [schema['required']]: the name of the first missing
    parameter, or [processed_params] with the required ones. *)
Fixpoint take_required (params : dict) (names : list string)
    (processed_params : dict) : string + dict :=
  match names with
  | [] => inr processed_params
  | param_name :: rest =>
      match dict_get params param_name with
      | None => inl param_name
      | Some v => take_required params rest (dict_put processed_params param_name v)
      end
  end.

(** The loop over [schema.get('optional', [])]. *)
Fixpoint take_optional (params defaults : dict) (names : list string)
    (processed_params : dict) : dict :=
  match names with
  | [] => processed_params
  | param_name :: rest =>
      match dict_get params param_name with
      | Some v => take_optional params defaults rest
                    (dict_put processed_params param_name v)
      | None =>
          match dict_get defaults param_name with
          | Some v => take_optional params defaults rest
                        (dict_put processed_params param_name v)
          | None => take_optional params defaults rest processed_params
          end
      end
  end.

(** The type checking loop over [processed_params.items()]: every value
    that is not of its declared type is replaced by its conversion; the
    first conversion that raises ends the loop with its name and type. *)
Fixpoint check_types `{Builtins} (types : list (string * PyType))
    (items : dict) : (string * PyType) + dict :=
  match items with
  | [] => inr []
  | (param_name, param_value) :: rest =>
      let go (v : value) :=
        match check_types types rest with
        | inl failure => inl failure
        | inr rest' => inr ((param_name, v) :: rest')
        end in
      match assoc types param_name with
      | None => go param_value
      | Some expected_type =>
          if isinstance param_value expected_type then go param_value
          else
            match convert expected_type param_value with
            | Ok v => go v
            | Raise _ => inl (param_name, expected_type)
            end
      end
  end.

(** The loop over [schema.get('validators', {}).items()]: the message of
    the first validator that answers false or raises. *)
Fixpoint run_validators (vs : list (string * (value -> result bool)))
    (processed_params : dict) : option string :=
  match vs with
  | [] => None
  | (param_name, validator) :: rest =>
      match dict_get processed_params param_name with
      | None => run_validators rest processed_params
      | Some v =>
          match validator v with
          | Ok true => run_validators rest processed_params
          | Ok false =>
              Some ("Parameter '" ++ param_name ++ "' failed validation")%string
          | Raise e =>
              Some ("Parameter '" ++ param_name ++ "' validation error: "
                    ++ str_exn e)%string
          end
      end
  end.

(** [validate_tool_params]: [(is_valid, error_message, processed_params)]. *)
Definition validate_tool_params `{Builtins} (tool_name : string)
    (params : dict) : bool * option string * dict :=
  match assoc tool_schemas tool_name with
  | None => (true, None, params)
  | Some schema =>
      match take_required params (required schema) [] with
      | inl param_name =>
          (false, Some ("Missing required parameter: " ++ param_name)%string,
           params)
      | inr processed_params =>
          let processed_params :=
            take_optional params (defaults schema) (optional schema)
              processed_params in
          match check_types (types schema) processed_params with
          | inl (param_name, expected_type) =>
              (false,
               Some ("Parameter '" ++ param_name ++ "' must be of type "
                     ++ type_name expected_type)%string, params)
          | inr processed_params =>
              match run_validators (validators schema) processed_params with
              | Some msg => (false, Some msg, params)
              | None => (true, None, processed_params)
              end
          end
      end
  end.

(** The parameters a schema can put into [processed_params] for [params]:
    the required ones, then the optional ones that are given or have a
    default. *)
Definition expected_names (schema : Schema) (params : dict) : list string :=
  required schema ++
  List.filter (fun p => dict_has params p || dict_has (defaults schema) p)
              (optional schema).

(** What [params], and after it the defaults, hold for a parameter. *)
Definition given (params defaults : dict) (p : string) : option value :=
  match dict_get params p with
  | Some v => Some v
  | None => dict_get defaults p
  end.

(** How the type checking loop turns a given value [v] of the parameter
    [k] into [v']. *)
Definition converted `{Builtins} (types : list (string * PyType))
    (k : string) (v v' : value) : Prop :=
  match assoc types k with
  | None => v' = v
  | Some ty => if isinstance v ty then v' = v else convert ty v = Ok v'
  end.

End Validator.

(** ** error_recovery.py : ErrorRecoveryManager *)

(** The recovery engine around [classify_error].  The two coroutines
    handed to [handle_error] and the registered callbacks are the outside
    world: [Env] scripts what each await of them yields and how long it
    takes, and records what was awaited.  They are taken not to call back
    into the manager.  Logging is left out. *)

Module Recovery.

Import ErrorRecovery.

(** [class RecoveryAction(Enum)] *)
Inductive RecoveryAction : Type :=
| RETRY
| RETRY_WITH_BACKOFF
| FALLBACK
| CIRCUIT_BREAK
| REFRESH_AUTH
| CLEAR_CACHE
| RESTART_CONNECTION
| FAIL.

Definition action_eqb (a b : RecoveryAction) : bool :=
  match a, b with
  | RETRY, RETRY | RETRY_WITH_BACKOFF, RETRY_WITH_BACKOFF
  | FALLBACK, FALLBACK | CIRCUIT_BREAK, CIRCUIT_BREAK
  | REFRESH_AUTH, REFRESH_AUTH | CLEAR_CACHE, CLEAR_CACHE
  | RESTART_CONNECTION, RESTART_CONNECTION | FAIL, FAIL => true
  | _, _ => false
  end.

Definition type_eqb (a b : ErrorType) : bool :=
  match a, b with
  | CONNECTION_ERROR, CONNECTION_ERROR | TIMEOUT_ERROR, TIMEOUT_ERROR
  | VALIDATION_ERROR, VALIDATION_ERROR | RATE_LIMIT_ERROR, RATE_LIMIT_ERROR
  | AUTHENTICATION_ERROR, AUTHENTICATION_ERROR | SERVER_ERROR, SERVER_ERROR
  | UNKNOWN_ERROR, UNKNOWN_ERROR => true
  | _, _ => false
  end.

(** [@dataclass ErrorContext] *)
Record ErrorContext : Type := mkContext {
  error_type : ErrorType;
  error_message : string;
  timestamp : Z;
  tool_name : option string;
  parameters : option dict;
  stack_trace : option string;
  retry_count : Z
}.

(** [@dataclass RecoveryPlan]; the two floats of the delay are kept as
    they are written in the table, [retry_delay] in clock units. *)
Record RecoveryPlan : Type := mkPlan {
  primary_action : RecoveryAction;
  fallback_actions : list RecoveryAction;
  max_retries : Z;
  retry_delay : Z;
  backoff_factor : Z;
  circuit_break_duration : Z
}.

(** [_initialize_strategies]: the dictionary has a plan for each of the
    seven error types, so it is a function; fields a plan leaves out take
    the defaults of the dataclass (3 retries, 1 s, factor 2, 5 minutes). *)
Definition _initialize_strategies (ty : ErrorType) : RecoveryPlan :=
  match ty with
  | CONNECTION_ERROR =>
      {| primary_action := RESTART_CONNECTION;
         fallback_actions := [RETRY_WITH_BACKOFF; FALLBACK];
         max_retries := 5; retry_delay := 2000000; backoff_factor := 2;
         circuit_break_duration := 300000000 |}
  | TIMEOUT_ERROR =>
      {| primary_action := RETRY_WITH_BACKOFF;
         fallback_actions := [FALLBACK];
         max_retries := 3; retry_delay := 1000000; backoff_factor := 2;
         circuit_break_duration := 300000000 |}
  | VALIDATION_ERROR =>
      {| primary_action := FAIL;
         fallback_actions := [];
         max_retries := 0; retry_delay := 1000000; backoff_factor := 2;
         circuit_break_duration := 300000000 |}
  | RATE_LIMIT_ERROR =>
      {| primary_action := RETRY_WITH_BACKOFF;
         fallback_actions := [CIRCUIT_BREAK];
         max_retries := 3; retry_delay := 5000000; backoff_factor := 3;
         circuit_break_duration := 300000000 |}
  | AUTHENTICATION_ERROR =>
      {| primary_action := REFRESH_AUTH;
         fallback_actions := [FAIL];
         max_retries := 2; retry_delay := 1000000; backoff_factor := 2;
         circuit_break_duration := 300000000 |}
  | SERVER_ERROR =>
      {| primary_action := CIRCUIT_BREAK;
         fallback_actions := [FALLBACK];
         max_retries := 3; retry_delay := 1000000; backoff_factor := 2;
         circuit_break_duration := 600000000 |}
  | UNKNOWN_ERROR =>
      {| primary_action := RETRY;
         fallback_actions := [FALLBACK; FAIL];
         max_retries := 2; retry_delay := 1000000; backoff_factor := 2;
         circuit_break_duration := 300000000 |}
  end.

(** A coroutine function handed to [handle_error]: what its [n]-th await
    of the run yields, and how long that takes. *)
Definition Callable : Type := nat -> Z * result value.

(** The world outside the manager: the clock, how many times [retry_func]
    and [fallback_func] have been awaited, the callbacks awaited so far
    (oldest first, with their arguments) and how long the [n]-th of them
    takes. *)
Record Env : Type := mkEnv {
  clock : Z;
  retried : nat;
  fell_back : nat;
  notified : list (string * ErrorContext * bool);
  callback_time : nat -> Z
}.

(** [await asyncio.sleep(delay)] *)
Definition sleep (delay : Z) (e : Env) : Env :=
  {| clock := clock e + delay; retried := retried e; fell_back := fell_back e;
     notified := notified e; callback_time := callback_time e |}.

(** [await retry_func()] *)
Definition await_retry (retry_func : Callable) (e : Env) : result value * Env :=
  let '(elapsed, r) := retry_func (retried e) in
  (r, {| clock := clock e + elapsed; retried := S (retried e);
         fell_back := fell_back e; notified := notified e;
         callback_time := callback_time e |}).

(** [await fallback_func()] *)
Definition await_fallback (fallback_func : Callable) (e : Env)
    : result value * Env :=
  let '(elapsed, r) := fallback_func (fell_back e) in
  (r, {| clock := clock e + elapsed; retried := retried e;
         fell_back := S (fell_back e); notified := notified e;
         callback_time := callback_time e |}).

(** [await callback(error_context, recovery_success)], whatever it
    answers or raises. *)
Definition await_callback (callback : string) (error_context : ErrorContext)
    (recovery_success : bool) (e : Env) : Env :=
  {| clock := clock e + callback_time e (length (notified e));
     retried := retried e; fell_back := fell_back e;
     notified := notified e ++ [(callback, error_context, recovery_success)];
     callback_time := callback_time e |}.

(** The state [__init__] sets up.  [recovery_callbacks] answers [[]] for
    an error type without an entry; the three counters have every key from
    the start. *)
Record t : Type := mk {
  error_strategies : ErrorType -> RecoveryPlan;
  circuit_breakers : gmap string CircuitBreaker.t;
  error_history : list ErrorContext;
  recovery_callbacks : ErrorType -> list string;
  error_counts : ErrorType -> Z;
  recovery_success_counts : RecoveryAction -> Z;
  recovery_failure_counts : RecoveryAction -> Z
}.

(** [ErrorRecoveryManager()] *)
Definition init : t :=
  {| error_strategies := _initialize_strategies;
     circuit_breakers := ∅; error_history := [];
     recovery_callbacks := fun _ => [];
     error_counts := fun _ => 0;
     recovery_success_counts := fun _ => 0;
     recovery_failure_counts := fun _ => 0 |}.

Definition set_breakers (b : gmap string CircuitBreaker.t) (m : t) : t :=
  {| error_strategies := error_strategies m; circuit_breakers := b;
     error_history := error_history m;
     recovery_callbacks := recovery_callbacks m;
     error_counts := error_counts m;
     recovery_success_counts := recovery_success_counts m;
     recovery_failure_counts := recovery_failure_counts m |}.

(** [d[k] += 1] on a counter dictionary. *)
Definition bump {K : Type} (eqb : K -> K -> bool) (k : K) (d : K -> Z) : K -> Z :=
  fun k' => if eqb k' k then d k' + 1 else d k'.

(** [register_callback] *)
Definition register_callback (ty : ErrorType) (callback : string) (m : t) : t :=
  {| error_strategies := error_strategies m;
     circuit_breakers := circuit_breakers m;
     error_history := error_history m;
     recovery_callbacks :=
       fun ty' => if type_eqb ty' ty then recovery_callbacks m ty' ++ [callback]
                  else recovery_callbacks m ty';
     error_counts := error_counts m;
     recovery_success_counts := recovery_success_counts m;
     recovery_failure_counts := recovery_failure_counts m |}.

(** [l[-1000:]] after an [append]. *)
Definition last_1000 {A} (l : list A) : list A :=
  if (1000 <? length l)%nat then drop (length l - 1000)%nat l else l.

(** [_record_error] *)
Definition _record_error (error_context : ErrorContext) (m : t) : t :=
  {| error_strategies := error_strategies m;
     circuit_breakers := circuit_breakers m;
     error_history := last_1000 (error_history m ++ [error_context]);
     recovery_callbacks := recovery_callbacks m;
     error_counts := bump type_eqb (error_type error_context) (error_counts m);
     recovery_success_counts := recovery_success_counts m;
     recovery_failure_counts := recovery_failure_counts m |}.

(** [_get_circuit_breaker]: the breaker of the tool, made with the
    defaults of [CircuitBreaker()] the first time. *)
Definition _get_circuit_breaker (tool : string) (now : Z) (m : t)
    : CircuitBreaker.t * t :=
  match circuit_breakers m !! tool with
  | Some breaker => (breaker, m)
  | None =>
      let breaker := CircuitBreaker.default now in
      (breaker, set_breakers (<[tool := breaker]> (circuit_breakers m)) m)
  end.

(** [retry_delay * (backoff_factor ** retry_count)], in clock units and
    rounded down: a negative count divides. *)
Definition backoff_delay (recovery_plan : RecoveryPlan) (count : Z) : Z :=
  if 0 <=? count then retry_delay recovery_plan * backoff_factor recovery_plan ^ count
  else retry_delay recovery_plan / backoff_factor recovery_plan ^ (- count).

(** What the two retry branches and the fallback branch make of the
    awaited coroutine: [(True, result)], or [(False, None)] when it
    raised. *)
Definition outcome (r : result value) : bool * value :=
  match r with
  | Ok v => (true, v)
  | Raise _ => (false, VNone)
  end.

(** [_execute_recovery_action]; a branch whose [if] fails falls through
    to the last [return False, None]. *)
Definition _execute_recovery_action (action : RecoveryAction)
    (error_context : ErrorContext) (recovery_plan : RecoveryPlan)
    (retry_func fallback_func : option Callable) (m : t) (e : Env)
    : bool * value * t * Env :=
  match action with
  | RETRY =>
      match retry_func with
      | Some f =>
          if retry_count error_context <? max_retries recovery_plan then
            let '(r, e1) := await_retry f e in (outcome r, m, e1)
          else (false, VNone, m, e)
      | None => (false, VNone, m, e)
      end
  | RETRY_WITH_BACKOFF =>
      match retry_func with
      | Some f =>
          if retry_count error_context <? max_retries recovery_plan then
            let delay := backoff_delay recovery_plan (retry_count error_context) in
            let '(r, e1) := await_retry f (sleep delay e) in (outcome r, m, e1)
          else (false, VNone, m, e)
      | None => (false, VNone, m, e)
      end
  | FALLBACK =>
      match fallback_func with
      | Some f => let '(r, e1) := await_fallback f e in (outcome r, m, e1)
      | None => (false, VNone, m, e)
      end
  | CIRCUIT_BREAK =>
      match tool_name error_context with
      | Some tool =>
          if truthy_str tool then
            let '(breaker, m1) := _get_circuit_breaker tool (clock e) m in
            let breaker := CircuitBreaker.call_failed (clock e) breaker in
            (false, VNone,
             set_breakers (<[tool := breaker]> (circuit_breakers m1)) m1, e)
          else (false, VNone, m, e)
      | None => (false, VNone, m, e)
      end
  | FAIL => (false, VNone, m, e)
  | REFRESH_AUTH | CLEAR_CACHE | RESTART_CONNECTION => (false, VNone, m, e)
  end.

(** The loop over [recovery_plan.fallback_actions]. *)
Fixpoint try_fallback_actions (actions : list RecoveryAction)
    (error_context : ErrorContext) (recovery_plan : RecoveryPlan)
    (retry_func fallback_func : option Callable) (m : t) (e : Env)
    : bool * value * t * Env :=
  match actions with
  | [] => (false, VNone, m, e)
  | action :: rest =>
      let '(success, result, m1, e1) :=
        _execute_recovery_action action error_context recovery_plan
          retry_func fallback_func m e in
      if success then (true, result, m1, e1)
      else try_fallback_actions rest error_context recovery_plan
             retry_func fallback_func m1 e1
  end.

(** [_execute_recovery_plan] *)
Definition _execute_recovery_plan (error_context : ErrorContext)
    (recovery_plan : RecoveryPlan) (retry_func fallback_func : option Callable)
    (m : t) (e : Env) : bool * value * t * Env :=
  let '(success, result, m1, e1) :=
    _execute_recovery_action (primary_action recovery_plan) error_context
      recovery_plan retry_func fallback_func m e in
  if success then (true, result, m1, e1)
  else try_fallback_actions (fallback_actions recovery_plan) error_context
         recovery_plan retry_func fallback_func m1 e1.

(** [_execute_callbacks]: an exception of a callback is logged and the
    next one is awaited. *)
Definition _execute_callbacks (ty : ErrorType) (error_context : ErrorContext)
    (recovery_success : bool) (m : t) (e : Env) : Env :=
  fold_left (fun e callback =>
               await_callback callback error_context recovery_success e)
            (recovery_callbacks m ty) e.

(** The statistics update of [handle_error]. *)
Definition count_recovery (success : bool) (action : RecoveryAction) (m : t) : t :=
  {| error_strategies := error_strategies m;
     circuit_breakers := circuit_breakers m;
     error_history := error_history m;
     recovery_callbacks := recovery_callbacks m;
     error_counts := error_counts m;
     recovery_success_counts :=
       if success then bump action_eqb action (recovery_success_counts m)
       else recovery_success_counts m;
     recovery_failure_counts :=
       if success then recovery_failure_counts m
       else bump action_eqb action (recovery_failure_counts m) |}.

(** [handle_error]: [(success, result)], the manager and the world after
    the call. *)
Definition handle_error (error_context : ErrorContext)
    (retry_func fallback_func : option Callable) (m : t) (e : Env)
    : bool * value * t * Env :=
  let m1 := _record_error error_context m in
  let recovery_plan := error_strategies m1 (error_type error_context) in
  let '(success, result, m2, e2) :=
    _execute_recovery_plan error_context recovery_plan retry_func
      fallback_func m1 e in
  let m3 := count_recovery success (primary_action recovery_plan) m2 in
  let e3 := _execute_callbacks (error_type error_context) error_context
              success m3 e2 in
  (success, result, m3, e3).

(** [create_error_context] at time [now], with the traceback text the
    interpreter has at hand. *)
Definition create_error_context (error : exn) (tool : option string)
    (params : option dict) (count : Z) (now : Z) (trace : string)
    : ErrorContext :=
  {| error_type := classify_error error;
     error_message := str_exn error;
     timestamp := now;
     tool_name := tool;
     parameters := params;
     stack_trace := Some trace;
     retry_count := count |}.

(** One [handle_error] call of a run, and a run of them. *)
Definition call : Type := ErrorContext * option Callable * option Callable.

Definition handle_all (calls : list call) (m : t) (e : Env) : t * Env :=
  fold_left (fun me '(error_context, retry_func, fallback_func) =>
               let '(_, _, m', e') :=
                 handle_error error_context retry_func fallback_func
                   (fst me) (snd me) in
               (m', e'))
            calls (m, e).

(** Everything of the manager but its circuit breakers. *)
Definition same_books (a b : t) : Prop :=
  error_strategies a = error_strategies b /\
  error_history a = error_history b /\
  recovery_callbacks a = recovery_callbacks b /\
  error_counts a = error_counts b /\
  recovery_success_counts a = recovery_success_counts b /\
  recovery_failure_counts a = recovery_failure_counts b.

(** Whether a plan has the action, as primary or as fallback action. *)
Definition uses (action : RecoveryAction) (recovery_plan : RecoveryPlan) : bool :=
  existsb (action_eqb action)
          (primary_action recovery_plan :: fallback_actions recovery_plan).

(** The function a plan can retry with for this error, and the one it can
    fall back to. *)
Definition retry_of (recovery_plan : RecoveryPlan) (error_context : ErrorContext)
    (retry_func : option Callable) : option Callable :=
  if (uses RETRY recovery_plan || uses RETRY_WITH_BACKOFF recovery_plan)
     && (retry_count error_context <? max_retries recovery_plan)
  then retry_func else None.

Definition fallback_of (recovery_plan : RecoveryPlan)
    (fallback_func : option Callable) : option Callable :=
  if uses FALLBACK recovery_plan then fallback_func else None.

(** How many awaits a function that may be missing takes, and what its
    [n]-th await makes of the recovery. *)
Definition awaits (f : option Callable) : nat :=
  match f with Some _ => 1%nat | None => 0%nat end.

Definition answer_of (f : option Callable) (n : nat) : bool * value :=
  match f with
  | Some g => outcome (snd (g n))
  | None => (false, VNone)
  end.

(** A breaker that was only told of failures: it is as before, or the
    one before (a fresh one, when there was none) after some calls of
    [call_failed]. *)
Definition only_failures (before after : option CircuitBreaker.t) : Prop :=
  after = before \/
  exists now ts,
    after = Some (CircuitBreaker.fail_all ts
                    (default (CircuitBreaker.default now) before)).

(** A call that reports a server error of the tool. *)
Definition server_error_of (tool : string) (c : call) : Prop :=
  error_type (fst (fst c)) = SERVER_ERROR /\
  tool_name (fst (fst c)) = Some tool.

End Recovery.

(** ** mcp_connection_monitor.py : MCPConnectionMonitor *)

(** The health tracking of one server: [_check_server_health] with
    [_handle_check_failure] and [_notify_status_change].  What the client's
    [health_check] answers and the callbacks are the outside world; the
    callbacks are taken not to touch the monitor.  Only the clients a
    monitor is given are read, so the world scripts one sequence of probes.
    [response_time_ms] is kept in clock units.  Printing is left out, and
    so is the background loop with its [asyncio.gather]. *)

Module Monitor.

(** [class HealthStatus(Enum)] *)
Inductive HealthStatus : Type := HEALTHY | DEGRADED | UNHEALTHY | UNKNOWN.

Definition status_eqb (a b : HealthStatus) : bool :=
  match a, b with
  | HEALTHY, HEALTHY | DEGRADED, DEGRADED
  | UNHEALTHY, UNHEALTHY | UNKNOWN, UNKNOWN => true
  | _, _ => false
  end.

(** [@dataclass ServerHealth]; [error_message] holds what the code stores
    there, [VNone] for [None]; [_client] tells whether [add_server] attached
    a client that is truthy. *)
Record ServerHealth : Type := mkServer {
  name : string;
  url : string;
  status : HealthStatus;
  last_check : option Z;
  last_success : option Z;
  consecutive_failures : Z;
  response_time_ms : Z;
  available_tools : value;
  error_message : value;
  _client : bool
}.

(** What a callback was awaited with. *)
Inductive Notice : Type :=
| StatusChanged (callback server : string) (old_status new_status : HealthStatus)
| Failed (callback server : string) (error : value)
| Recovered (callback server : string).

Definition is_failed (n : Notice) : bool :=
  match n with Failed _ _ _ => true | _ => false end.

Definition is_recovered (n : Notice) : bool :=
  match n with Recovered _ _ => true | _ => false end.

(** The world outside the monitor: the clock, what the [n]-th
    [health_check] of the run yields and how long it takes, how many were
    awaited, the callbacks awaited so far (oldest first) and how long the
    [n]-th of them takes. *)
Record Env : Type := mkEnv {
  clock : Z;
  probes : nat -> Z * result dict;
  probed : nat;
  notices : list Notice;
  callback_time : nat -> Z
}.

(** [await client.health_check()] *)
Definition await_health_check (e : Env) : result dict * Env :=
  let '(elapsed, r) := probes e (probed e) in
  (r, {| clock := clock e + elapsed; probes := probes e;
         probed := S (probed e); notices := notices e;
         callback_time := callback_time e |}).

(** [await callback(...)], whatever it answers or raises. *)
Definition await_callback (n : Notice) (e : Env) : Env :=
  {| clock := clock e + callback_time e (length (notices e));
     probes := probes e; probed := probed e;
     notices := notices e ++ [n]; callback_time := callback_time e |}.

(** The state [__init__] sets up; callbacks go by name. *)
Record t : Type := mk {
  check_interval : Z;
  failure_threshold : Z;
  recovery_threshold : Z;
  servers : gmap string ServerHealth;
  monitoring : bool;
  status_change_callbacks : list string;
  failure_callbacks : list string;
  recovery_callbacks : list string;
  total_checks : Z;
  total_failures : Z;
  start_time : Z
}.

(** [MCPConnectionMonitor(check_interval, failure_threshold,
    recovery_threshold)] at time [now]. *)
Definition init (interval ft rt now : Z) : t :=
  {| check_interval := interval; failure_threshold := ft;
     recovery_threshold := rt; servers := ∅; monitoring := false;
     status_change_callbacks := []; failure_callbacks := [];
     recovery_callbacks := []; total_checks := 0; total_failures := 0;
     start_time := now |}.

Definition set_servers (s : gmap string ServerHealth) (m : t) : t :=
  {| check_interval := check_interval m;
     failure_threshold := failure_threshold m;
     recovery_threshold := recovery_threshold m; servers := s;
     monitoring := monitoring m;
     status_change_callbacks := status_change_callbacks m;
     failure_callbacks := failure_callbacks m;
     recovery_callbacks := recovery_callbacks m;
     total_checks := total_checks m; total_failures := total_failures m;
     start_time := start_time m |}.

Definition set_total_failures (n : Z) (m : t) : t :=
  {| check_interval := check_interval m;
     failure_threshold := failure_threshold m;
     recovery_threshold := recovery_threshold m; servers := servers m;
     monitoring := monitoring m;
     status_change_callbacks := status_change_callbacks m;
     failure_callbacks := failure_callbacks m;
     recovery_callbacks := recovery_callbacks m;
     total_checks := total_checks m; total_failures := n;
     start_time := start_time m |}.

(** [add_server(name, url, client)] *)
Definition add_server (server_name server_url : string) (client : bool) (m : t) : t :=
  set_servers
    (<[server_name :=
         {| name := server_name; url := server_url; status := UNKNOWN;
            last_check := None; last_success := None;
            consecutive_failures := 0; response_time_ms := 0;
            available_tools := VList []; error_message := VNone;
            _client := client |}]> (servers m)) m.

(** [remove_server] *)
Definition remove_server (server_name : string) (m : t) : t :=
  set_servers (delete server_name (servers m)) m.

(** The three [add_*_callback]. *)
Definition add_status_change_callback (callback : string) (m : t) : t :=
  {| check_interval := check_interval m;
     failure_threshold := failure_threshold m;
     recovery_threshold := recovery_threshold m; servers := servers m;
     monitoring := monitoring m;
     status_change_callbacks := status_change_callbacks m ++ [callback];
     failure_callbacks := failure_callbacks m;
     recovery_callbacks := recovery_callbacks m;
     total_checks := total_checks m; total_failures := total_failures m;
     start_time := start_time m |}.

Definition add_failure_callback (callback : string) (m : t) : t :=
  {| check_interval := check_interval m;
     failure_threshold := failure_threshold m;
     recovery_threshold := recovery_threshold m; servers := servers m;
     monitoring := monitoring m;
     status_change_callbacks := status_change_callbacks m;
     failure_callbacks := failure_callbacks m ++ [callback];
     recovery_callbacks := recovery_callbacks m;
     total_checks := total_checks m; total_failures := total_failures m;
     start_time := start_time m |}.

Definition add_recovery_callback (callback : string) (m : t) : t :=
  {| check_interval := check_interval m;
     failure_threshold := failure_threshold m;
     recovery_threshold := recovery_threshold m; servers := servers m;
     monitoring := monitoring m;
     status_change_callbacks := status_change_callbacks m;
     failure_callbacks := failure_callbacks m;
     recovery_callbacks := recovery_callbacks m ++ [callback];
     total_checks := total_checks m; total_failures := total_failures m;
     start_time := start_time m |}.

(** [_handle_check_failure]: the server record and the monitor after it. *)
Definition _handle_check_failure (server : ServerHealth) (error : value)
    (now : Z) (m : t) : ServerHealth * t :=
  let failures := consecutive_failures server + 1 in
  ({| name := name server; url := url server;
      status := if failure_threshold m <=? failures then UNHEALTHY
                else DEGRADED;
      last_check := Some now; last_success := last_success server;
      consecutive_failures := failures;
      response_time_ms := response_time_ms server;
      available_tools := available_tools server;
      error_message := error; _client := _client server |},
   set_total_failures (total_failures m + 1) m).

(** The branch of [_check_server_health] for a passed connection test. *)
Definition check_passed (server : ServerHealth) (health_result : dict)
    (elapsed now : Z) : ServerHealth :=
  let tools := default (VList []) (dict_get health_result "tools_loaded") in
  {| name := name server; url := url server;
     status := if Orchestrator.truthy tools then HEALTHY else DEGRADED;
     last_check := Some now; last_success := Some now;
     consecutive_failures := 0; response_time_ms := elapsed;
     available_tools := tools;
     error_message := if Orchestrator.truthy tools then VNone
                      else VStr "No tools available";
     _client := _client server |}.

(** [server.response_time_ms = ...; server.last_check = datetime.now()] *)
Definition stamp (elapsed now : Z) (server : ServerHealth) : ServerHealth :=
  {| name := name server; url := url server; status := status server;
     last_check := Some now; last_success := last_success server;
     consecutive_failures := consecutive_failures server;
     response_time_ms := elapsed;
     available_tools := available_tools server;
     error_message := error_message server; _client := _client server |}.

(** [health_result.get('connection_test') == 'success'] *)
Definition connection_test_passed (health_result : dict) : bool :=
  match dict_get health_result "connection_test" with
  | Some v => is_str v "success"
  | None => false
  end.

(** Whether a probe counts as a failed check: it raised, or its
    connection test is not ['success']. *)
Definition probe_failed (r : result dict) : bool :=
  match r with
  | Ok health_result => negb (connection_test_passed health_result)
  | Raise _ => true
  end.

(** The [try] block of [_check_server_health]: the server record and
    the monitor after the probe. *)
Definition after_probe (server : ServerHealth) (r : result dict)
    (start_time now : Z) (m : t) : ServerHealth * t :=
  match r with
  | Ok health_result =>
      let server := stamp (now - start_time) now server in
      if connection_test_passed health_result
      then (check_passed server health_result (now - start_time) now, m)
      else _handle_check_failure server
             (default (VStr "Unknown error")
                (dict_get health_result "connection_test")) now m
  | Raise ex => _handle_check_failure server (VStr (str_exn ex)) now m
  end.

(** [_notify_status_change]: every status change callback, then the
    failure callbacks for a server that became UNHEALTHY, or else the
    recovery callbacks for one that became HEALTHY. *)
Definition _notify_status_change (m : t) (server : ServerHealth)
    (old_status : HealthStatus) (e : Env) : Env :=
  let e1 :=
    fold_left (fun e callback =>
                 await_callback
                   (StatusChanged callback (name server) old_status
                      (status server)) e)
              (status_change_callbacks m) e in
  if status_eqb (status server) UNHEALTHY
     && negb (status_eqb old_status UNHEALTHY) then
    fold_left (fun e callback =>
                 await_callback
                   (Failed callback (name server) (error_message server)) e)
              (failure_callbacks m) e1
  else if status_eqb (status server) HEALTHY
          && negb (status_eqb old_status HEALTHY) then
    fold_left (fun e callback =>
                 await_callback (Recovered callback (name server)) e)
              (recovery_callbacks m) e1
  else e1.

(** [_check_server_health] *)
Definition _check_server_health (server_name : string) (m : t) (e : Env)
    : t * Env :=
  match servers m !! server_name with
  | None => (m, e)
  | Some server =>
      if negb (_client server) then
        let server :=
          {| name := name server; url := url server; status := UNKNOWN;
             last_check := last_check server;
             last_success := last_success server;
             consecutive_failures := consecutive_failures server;
             response_time_ms := response_time_ms server;
             available_tools := available_tools server;
             error_message := VStr "No client configured";
             _client := _client server |} in
        (set_servers (<[server_name := server]> (servers m)) m, e)
      else
        let start_time := clock e in
        let old_status := status server in
        let '(r, e1) := await_health_check e in
        let '(server1, m0) := after_probe server r start_time (clock e1) m in
        let m1 := set_servers (<[server_name := server1]> (servers m0)) m0 in
        if negb (status_eqb old_status (status server1))
        then (m1, _notify_status_change m1 server1 old_status e1)
        else (m1, e1)
  end.

(** [n] checks of the same server, one after the other. *)
Fixpoint check_times (n : nat) (server_name : string) (m : t) (e : Env)
    : t * Env :=
  match n with
  | O => (m, e)
  | S n' =>
      let '(m1, e1) := _check_server_health server_name m e in
      check_times n' server_name m1 e1
  end.

(** How many failure and recovery callbacks were awaited. *)
Definition failures_notified (e : Env) : nat :=
  length (List.filter is_failed (notices e)).

Definition recoveries_notified (e : Env) : nat :=
  length (List.filter is_recovered (notices e)).

End Monitor.

(** ** Concrete instances, for running the model *)

Module Examples.

Import World.

(** A [json] to run the model with: it agrees with Python's on the empty
    parameter map, the only document the examples serialise, and decodes no
    text item. *)
#[export] Instance example_json : JsonLib :=
  {| json_loads := fun _ => None; json_dumps := fun _ => Ok "{}" |}.

(** A local store in which every registered implementation answers an
    empty result set. *)
#[export] Instance example_store : Fallback.Store :=
  {| Fallback.fallback_func := fun _ _ =>
       Ok [("status", VStr "success"); ("results", VList []);
           ("row_count", VNum 0)] |}.

(** [EnhancedMCPClient(url)] after [initialize()]: the defaults of
    [__init__] (3 retries, 1 s delay, pool of 10, 5 minutes of cache) and
    one tool loaded. *)
Definition client : Client.t :=
  {| Client.base_url := "http://127.0.0.1:5000"; Client.name := "mcp_client";
     Client.max_retries := 3; Client.retry_delay := 1000000;
     Client.tools := {[ "list_products" := VDict [] ]};
     Client.metrics := {[ "list_products" := Client.new_metrics "list_products" ]};
     Client.client_pool := 10; Client.pool_index := 0;
     Client.cache := ∅; Client.cache_ttl := 300000000 |}.

(** Worlds that start at time 0; every POST takes 5 clock units. *)
Definition world (reply : nat -> http_outcome) : World.t :=
  {| clock := 0; net := fun n => (5, reply n); posts := 0 |}.

(** The server answers every call. *)
Definition healthy : World.t :=
  world (fun _ => Response 200 "{}" (Some (VDict []))).

(** The connection is refused on every attempt. *)
Definition refusing : World.t :=
  world (fun _ => HttpRaise (RequestError "All connection attempts failed")).

(** The server answers 503 on every attempt. *)
Definition unavailable : World.t :=
  world (fun _ => Response 503 "Service Unavailable" None).

(** The server answers 503 twice and then 200. *)
Definition flaky : World.t :=
  world (fun n => if (n <? 2)%nat then Response 503 "Service Unavailable" None
                  else Response 200 "{}" (Some (VDict []))).

(** The server rejects the call with 404. *)
Definition rejecting : World.t :=
  world (fun _ => Response 404 "Not Found" None).

(** The same world, [delay] clock units later. *)
Definition later (delay : Z) (w : World.t) : World.t := sleep delay w.

(** [MCPOrchestrator(url, database_path="db/app.db")] and
    [MCPOrchestrator(url)], both around [client]. *)
Definition with_fallback : Orchestrator.t :=
  Orchestrator.init "http://127.0.0.1:5000" (Some "db/app.db")
    Orchestrator.default_strategy client.

Definition without_fallback : Orchestrator.t :=
  Orchestrator.init "http://127.0.0.1:5000" None
    Orchestrator.default_strategy client.

(** [MCPOrchestrator(url, database_path="db/app.db",
    recovery_strategy=RecoveryStrategy(max_retries=0))]: a primary path
    that is given no attempt. *)
Definition with_fallback_no_attempts : Orchestrator.t :=
  Orchestrator.init "http://127.0.0.1:5000" (Some "db/app.db")
    {| Orchestrator.max_retries := 0; Orchestrator.initial_delay := 1000000;
       Orchestrator.max_delay := 60000000; Orchestrator.backoff_factor := 2;
       Orchestrator.recovery_window := 300000000 |} client.

(** Three failure callbacks of the monitor, at times 1, 2 and 3. *)
Definition three_failures (o : Orchestrator.t) : Orchestrator.t :=
  Orchestrator._handle_failure "http://127.0.0.1:5000" "unreachable" 3
    (Orchestrator._handle_failure "http://127.0.0.1:5000" "unreachable" 2
       (Orchestrator._handle_failure "http://127.0.0.1:5000" "unreachable" 1 o)).

(** A client whose tool ["missing_tool"] answers an error dictionary and
    whose other tools answer an empty success. *)
Definition picky_client (tool : string) (params : value) (c : unit)
    : Py.result dict * unit :=
  if String.eqb tool "missing_tool"
  then (Ok (Client.error_dict "HTTP 404: Not Found"), c)
  else (Ok (Client.success_dict (VList [])), c).

End Examples.

(** ** Replies to run the parser on *)

Module ReplyExamples.

Import World Examples.

(** A JSON-RPC error envelope. *)
Definition error_envelope : dict :=
  [("jsonrpc", VStr "2.0"); ("id", VNum 1);
   ("error", VDict [("code", VNum (-32601));
                    ("message", VStr "Method not found")])].

(** The server answers every call with status 200 and the envelope. *)
Definition enveloping : World.t :=
  world (fun _ => Response 200 "" (Some (VDict error_envelope))).


End ReplyExamples.

Module ValidatorExamples.

Import Validator.

(** Stand-ins for the builtins, on the values the examples use: [int] reads
    a non-empty string of decimal digits, [str] gives a string back as it
    is, and no date pattern matches. *)
Fixpoint digits (s : string) (acc : Z) : option Z :=
  match s with
  | EmptyString => Some acc
  | String c rest =>
      let n := Z.of_nat (nat_of_ascii c) - 48 in
      if (0 <=? n) && (n <=? 9) then digits rest (10 * acc + n) else None
  end.

#[export] Instance example_builtins : Builtins := {|
  int_of_str := fun s => match s with EmptyString => None | _ => digits s 0 end;
  str_of := fun v => match v with VStr s => s | _ => "None" end;
  re_match := fun _ _ => false
|}.

(** [{"limit": "5", "verbose": True}] for [search_customers] *)
Definition search_params : dict := [("limit", VStr "5"); ("verbose", VBool true)].

Definition search_out : dict := [("name_pattern", VStr "%"); ("limit", VNum 5)].

(** [{"order_id": 7, "quantity": 0}] for [add_order_item] *)
Definition partial_item : dict := [("order_id", VNum 7); ("quantity", VNum 0)].

End ValidatorExamples.

Module RecoveryExamples.

Import ErrorRecovery Recovery.

(** A quiet world: nothing awaited yet, callbacks that take no time. *)
Definition env : Env :=
  {| clock := 0; retried := 0; fell_back := 0; notified := [];
     callback_time := fun _ => 0 |}.

Definition timeout_context : ErrorContext :=
  create_error_context (PlainException "Request timed out")
    (Some "list_products") None 0 0 "".

Definition server_context : ErrorContext :=
  create_error_context (PlainException "HTTP 503") (Some "list_products")
    None 0 0 "".

(** A retry that raises and a fallback that answers, each after a
    millisecond. *)
Definition failing : Callable := fun _ => (1000, Raise (RequestError "timed out")).
Definition answering : Callable := fun _ => (1000, Ok (VStr "from the database")).

Definition server_call : call := (server_context, Some failing, Some answering).

(** A manager whose breaker for [list_products] has been opened. *)
Definition tripped : Recovery.t :=
  set_breakers
    {[ "list_products" :=
         CircuitBreaker.fail_all [1; 2; 3; 4; 5] (CircuitBreaker.default 0) ]}
    init.

End RecoveryExamples.

Module MonitorExamples.

Import Monitor.

(** The record [add_server] makes for the primary server. *)
Definition fresh_server : ServerHealth :=
  {| name := "primary"; url := "http://127.0.0.1:5000"; status := UNKNOWN;
     last_check := None; last_success := None; consecutive_failures := 0;
     response_time_ms := 0; available_tools := VList [];
     error_message := VNone; _client := true |}.

(** A monitor with the default thresholds, one server and one callback of
    each kind. *)
Definition monitor : Monitor.t :=
  add_status_change_callback "log"
    (add_failure_callback "page"
       (add_recovery_callback "resume"
          (add_server "primary" "http://127.0.0.1:5000" true
             (init 30000000 3 2 0)))).

(** Three refused connections, then a server that answers with nine
    tools. *)
Definition outage : Env :=
  {| clock := 0;
     probes := fun n =>
       if (n <? 3)%nat then (1000, Raise (RequestError "connection refused"))
       else (1000, Ok [("connection_test", VStr "success");
                       ("tools_loaded", VNum 9)]);
     probed := 0; notices := []; callback_time := fun _ => 0 |}.

End MonitorExamples.

(** * Properties *)

(** ** The circuit breaker *)

Section CircuitBreakerFacts.

Import CircuitBreaker.

Ltac breaker_cases :=
  repeat match goal with
         | |- context [if ?b then _ else _] => destruct b eqn:?
         | |- context [match state ?c with _ => _ end] => destruct (state c) eqn:?
         | |- context [match last_failure_time ?c with _ => _ end] =>
             destruct (last_failure_time c) eqn:?
         end.

Lemma call_failed_config now cb : same_config (call_failed now cb) cb.
Proof.
  unfold same_config, call_failed; cbn.
  destruct (state cb); cbn; breaker_cases; cbn; auto.
Qed.

Lemma call_succeeded_config now cb : same_config (call_succeeded now cb) cb.
Proof.
  unfold same_config, call_succeeded.
  destruct (state cb); cbn; breaker_cases; cbn; auto.
Qed.

Lemma can_execute_config now cb : same_config (snd (can_execute now cb)) cb.
Proof.
  unfold same_config, can_execute.
  destruct (state cb); cbn; breaker_cases; cbn; auto.
Qed.

Lemma step_config cb o : same_config (step cb o) cb.
Proof.
  destruct o as [[] now]; cbn;
    auto using call_failed_config, call_succeeded_config, can_execute_config.
Qed.

Lemma run_config ops : forall cb, same_config (run cb ops) cb.
Proof.
  induction ops as [|o ops IH]; intros cb; cbn.
  - unfold same_config; auto.
  - destruct (IH (step cb o)) as (A & B & C).
    destruct (step_config cb o) as (A' & B' & C').
    unfold same_config, run in *. cbn. repeat split; congruence.
Qed.

Lemma step_counters_ok cb o :
  1 <= failure_threshold cb -> 1 <= success_threshold cb ->
  counters_ok cb -> counters_ok (step cb o).
Proof.
  intros Hf Hs (A & B & C & D).
  destruct o as [[] now]; cbn;
    unfold call_succeeded, call_failed, can_execute; cbn;
    destruct (state cb) eqn:E; cbn;
    try specialize (C eq_refl); try specialize (D eq_refl);
    repeat match goal with
           | |- context [if ?b then _ else _] => destruct b eqn:?
           end;
    repeat match goal with
           | H : (_ <=? _) = false |- _ => apply Z.leb_gt in H
           end;
    unfold counters_ok; cbn; rewrite ?E;
    repeat split; intros; try discriminate; try lia.
Qed.

Lemma run_counters_ok ops : forall cb,
  1 <= failure_threshold cb -> 1 <= success_threshold cb ->
  counters_ok cb -> counters_ok (run cb ops).
Proof.
  induction ops as [|o ops IH]; intros cb Hf Hs Hc; cbn; auto.
  destruct (step_config cb o) as (A & _ & C).
  apply IH; [rewrite A | rewrite C | apply step_counters_ok]; auto.
Qed.

Lemma init_counters_ok ft rt st now :
  1 <= ft -> 1 <= st -> counters_ok (init ft rt st now).
Proof. intros; unfold counters_ok; cbn; repeat split; auto; lia. Qed.

(** Every failure stamps [last_failure_time]. *)
Lemma call_failed_stamp now cb : last_failure_time (call_failed now cb) = Some now.
Proof.
  unfold call_failed; cbn. destruct (state cb); cbn; breaker_cases; reflexivity.
Qed.

Lemma fail_all_snoc ts now cb :
  fail_all (ts ++ [now]) cb = call_failed now (fail_all ts cb).
Proof. unfold fail_all. rewrite fold_left_app. reflexivity. Qed.

Lemma fail_all_stamp ts cb now :
  last ts = Some now -> last_failure_time (fail_all ts cb) = Some now.
Proof.
  destruct ts as [|t ts _] using rev_ind; [discriminate|].
  rewrite last_snoc. intros [= ->]. rewrite fail_all_snoc.
  apply call_failed_stamp.
Qed.

Lemma fail_all_cons now ts cb :
  fail_all (now :: ts) cb = fail_all ts (call_failed now cb).
Proof. reflexivity. Qed.

Lemma succeed_all_cons now ts cb :
  succeed_all (now :: ts) cb = succeed_all ts (call_succeeded now cb).
Proof. reflexivity. Qed.

(** A failure while OPEN leaves the breaker OPEN. *)
Lemma fail_all_open ts : forall cb,
  state cb = OPEN -> state (fail_all ts cb) = OPEN.
Proof.
  induction ts as [|now ts IH]; intros cb E; [exact E|].
  rewrite fail_all_cons. apply IH. unfold call_failed; cbn. rewrite E. exact E.
Qed.

(** From CLOSED, failures open the breaker as soon as the count reaches
    the threshold. *)
Lemma fail_all_closed ts : forall cb,
  state cb = CLOSED ->
  failure_threshold cb <= failure_count cb + Z.of_nat (length ts) ->
  failure_count cb < failure_threshold cb ->
  state (fail_all ts cb) = OPEN.
Proof.
  induction ts as [|now ts IH]; intros cb E Hn Hlt; [cbn in Hn; lia|].
  rewrite fail_all_cons. rewrite length_cons in Hn.
  unfold call_failed; cbn. rewrite E.
  destruct (failure_threshold cb <=? failure_count cb + 1) eqn:L.
  - apply fail_all_open. reflexivity.
  - apply Z.leb_gt in L. apply IH; cbn; auto; lia.
Qed.

(** A success while CLOSED leaves the breaker CLOSED. *)
Lemma succeed_all_closed ts : forall cb,
  state cb = CLOSED -> state (succeed_all ts cb) = CLOSED.
Proof.
  induction ts as [|now ts IH]; intros cb E; [exact E|].
  rewrite succeed_all_cons. apply IH. unfold call_succeeded. rewrite E. exact E.
Qed.

(** From HALF_OPEN, successes close the breaker as soon as the count
    reaches the threshold. *)
Lemma succeed_all_half_open ts : forall cb,
  state cb = HALF_OPEN ->
  success_threshold cb <= success_count cb + Z.of_nat (length ts) ->
  success_count cb < success_threshold cb ->
  state (succeed_all ts cb) = CLOSED.
Proof.
  induction ts as [|now ts IH]; intros cb E Hn Hlt; [cbn in Hn; lia|].
  rewrite succeed_all_cons. rewrite length_cons in Hn.
  unfold call_succeeded. rewrite E. cbn.
  destruct (success_threshold cb <=? success_count cb + 1) eqn:L.
  - apply succeed_all_closed. reflexivity.
  - apply Z.leb_gt in L. apply IH; cbn; auto; lia.
Qed.

Lemma fail_all_config ts : forall cb, same_config (fail_all ts cb) cb.
Proof.
  induction ts as [|now ts IH]; intros cb; [unfold same_config; auto|].
  rewrite fail_all_cons.
  destruct (IH (call_failed now cb)) as (A & B & C).
  destruct (call_failed_config now cb) as (A' & B' & C').
  unfold same_config. repeat split; congruence.
Qed.

Lemma step_transition_resets cb o :
  state (step cb o) <> state cb -> success_count (step cb o) = 0.
Proof.
  destruct o as [[] now]; cbn;
    unfold call_succeeded, call_failed, can_execute; cbn;
    destruct (state cb) eqn:E; cbn;
    repeat match goal with
           | |- context [if ?b then _ else _] => destruct b eqn:?
           end;
    cbn; rewrite ?E; intros Hne; try reflexivity; congruence.
Qed.

(** C2. A breaker that is CLOSED (in any state reached from a fresh breaker
    with thresholds of at least one) is OPEN after [failure_threshold]
    consecutive [call_failed]; while no more than [recovery_timeout] has
    passed since the last failure [can_execute] answers [False] and changes
    nothing; the first [can_execute] later than that answers [True] and
    moves to HALF_OPEN; and [success_threshold] consecutive
    [call_succeeded] from there end in CLOSED. *)
Theorem circuit_breaker_cycle :
  forall (ft rt st t0 : Z) (ops : list (op * Z)) (fails succs : list Z)
         (t_last : Z),
    1 <= ft -> 1 <= st ->
    let cb := run (init ft rt st t0) ops in
    state cb = CLOSED ->
    length fails = Z.to_nat ft ->
    last fails = Some t_last ->
    length succs = Z.to_nat st ->
    let opened := fail_all fails cb in
    state opened = OPEN /\
    (forall now, now - t_last <= rt ->
       can_execute now opened = (false, opened)) /\
    (forall now, rt < now - t_last ->
       let probe := can_execute now opened in
       fst probe = true /\
       state (snd probe) = HALF_OPEN /\
       state (succeed_all succs (snd probe)) = CLOSED).
Proof.
  intros ft rt st t0 ops fails succs t_last Hft Hst cb Hclosed Hlen Hlast
    Hslen opened.
  destruct (run_config ops (init ft rt st t0)) as (Cf & Cr & Cs).
  fold cb in Cf, Cr, Cs. cbn in Cf, Cr, Cs.
  assert (Hok : counters_ok cb)
    by (apply run_counters_ok; cbn; auto using init_counters_ok).
  destruct Hok as (Hfc & _ & Hlt & _). specialize (Hlt Hclosed).
  assert (Hopen : state opened = OPEN).
  { apply fail_all_closed; auto. rewrite Hlen, Cf. lia. }
  assert (Hstamp : last_failure_time opened = Some t_last)
    by (apply fail_all_stamp; exact Hlast).
  destruct (fail_all_config fails cb) as (Of & Or & Os).
  fold opened in Of, Or, Os.
  split; [exact Hopen|]. split.
  - intros now Hnow. unfold can_execute, _should_attempt_recovery.
    rewrite Hopen, Hstamp, Or, Cr.
    destruct (rt <? now - t_last) eqn:L; [apply Z.ltb_lt in L; lia|reflexivity].
  - intros now Hnow probe.
    assert (Hprobe : probe = (true, _half_open now opened)).
    { unfold probe, can_execute, _should_attempt_recovery.
      rewrite Hopen, Hstamp, Or, Cr.
      destruct (rt <? now - t_last) eqn:L; [reflexivity|].
      apply Z.ltb_ge in L; lia. }
    rewrite Hprobe; cbn [fst snd]. split; [reflexivity|]. split; [reflexivity|].
    apply succeed_all_half_open; cbn; [reflexivity| |]; rewrite Os, Cs; lia.
Qed.

(** The scenario of C2 on the default breaker (5 failures, one minute,
    2 successes) built at time 0. *)
Lemma circuit_breaker_cycle_witness :
  let opened := fail_all [1; 2; 3; 4; 5] (default 0) in
  state opened = OPEN /\
  (forall now, now - 5 <= 60000000 ->
     can_execute now opened = (false, opened)) /\
  (forall now, 60000000 < now - 5 ->
     let probe := can_execute now opened in
     fst probe = true /\
     state (snd probe) = HALF_OPEN /\
     state (succeed_all [now; now + 1] (snd probe)) = CLOSED).
Proof.
  intros opened.
  pose proof (fun succs =>
    circuit_breaker_cycle 5 60000000 2 0 [] [1; 2; 3; 4; 5] succs 5) as W.
  cbn zeta in W.
  split; [|split].
  - apply (W [0; 0]); try lia; reflexivity.
  - apply (W [0; 0]); try lia; reflexivity.
  - intros now Hnow. apply (W [now; now + 1]); try lia; reflexivity.
Defined.

(** C9. In every state reached from a fresh breaker (thresholds of at
    least one) by [call_succeeded], [call_failed] and [can_execute]:
    CLOSED implies [failure_count < failure_threshold], HALF_OPEN implies
    [success_count < success_threshold]; and every change of state, like
    each of [_open], [_close] and [_half_open], leaves [success_count] at 0. *)
Theorem circuit_breaker_invariant :
  forall (ft rt st t0 : Z) (ops : list (op * Z)),
    1 <= ft -> 1 <= st ->
    let cb := run (init ft rt st t0) ops in
    (state cb = CLOSED -> failure_count cb < failure_threshold cb) /\
    (state cb = HALF_OPEN -> success_count cb < success_threshold cb) /\
    (forall o, state (step cb o) <> state cb -> success_count (step cb o) = 0) /\
    (forall now c, success_count (_open now c) = 0 /\
                   success_count (_close now c) = 0 /\
                   success_count (_half_open now c) = 0).
Proof.
  intros ft rt st t0 ops Hft Hst cb.
  assert (Hok : counters_ok cb)
    by (apply run_counters_ok; cbn; auto using init_counters_ok).
  destruct Hok as (_ & _ & Hc & Hh).
  repeat split; auto using step_transition_resets.
Qed.

(** C9 on the default breaker after a mixed run: four failures, a success,
    five failures (the breaker opens), a probe after the timeout and one
    success. *)
Lemma circuit_breaker_invariant_witness :
  let cb := run (default 0)
              [(CallFailed, 1); (CallFailed, 2); (CallFailed, 3);
               (CallFailed, 4); (CallSucceeded, 5); (CallFailed, 6);
               (CallFailed, 7); (CallFailed, 8); (CallFailed, 9);
               (CallFailed, 10); (CanExecute, 70000000);
               (CallSucceeded, 70000001)] in
  state cb = HALF_OPEN /\ success_count cb = 1 /\
  (state cb = CLOSED -> failure_count cb < failure_threshold cb) /\
  (state cb = HALF_OPEN -> success_count cb < success_threshold cb) /\
  (forall o, state (step cb o) <> state cb -> success_count (step cb o) = 0) /\
  (forall now c, success_count (_open now c) = 0 /\
                 success_count (_close now c) = 0 /\
                 success_count (_half_open now c) = 0).
Proof.
  intros cb. split; [reflexivity|]. split; [reflexivity|].
  apply (circuit_breaker_invariant 5 60000000 2 0); lia.
Defined.

(** The transition rules, state by state: CLOSED admits every call and a
    success resets [failure_count]; OPEN rejects exactly while no more than
    [recovery_timeout] has passed since the last failure; HALF_OPEN admits
    calls and any failure reopens the breaker. *)
Theorem circuit_breaker_rules :
  forall (now : Z) (cb : CircuitBreaker.t),
    (state cb = CLOSED ->
     can_execute now cb = (true, cb) /\
     state (call_succeeded now cb) = CLOSED /\
     failure_count (call_succeeded now cb) = 0) /\
    (state cb = OPEN ->
     forall t_last, last_failure_time cb = Some t_last ->
       (now - t_last <= recovery_timeout cb ->
        can_execute now cb = (false, cb)) /\
       (recovery_timeout cb < now - t_last ->
        can_execute now cb = (true, _half_open now cb))) /\
    (state cb = HALF_OPEN ->
     can_execute now cb = (true, cb) /\
     state (call_failed now cb) = OPEN).
Proof.
  intros now cb. split; [|split]; intros Hs.
  - unfold can_execute, call_succeeded. rewrite Hs. cbn. auto.
  - intros t_last Ht. unfold can_execute, _should_attempt_recovery.
    rewrite Hs, Ht. split; intros Hlt.
    + destruct (recovery_timeout cb <? now - t_last) eqn:L;
        [apply Z.ltb_lt in L; lia | reflexivity].
    + destruct (recovery_timeout cb <? now - t_last) eqn:L;
        [reflexivity | apply Z.ltb_ge in L; lia].
  - unfold can_execute, call_failed. cbn. rewrite Hs. auto.
Qed.

(** The rules on the default breaker: fresh it is CLOSED and admits calls;
    after five failures it is OPEN and rejects a call one second later. *)
Lemma circuit_breaker_rules_witness :
  can_execute 1 (default 0) = (true, default 0) /\
  can_execute 1000005 (fail_all [1; 2; 3; 4; 5] (default 0))
    = (false, fail_all [1; 2; 3; 4; 5] (default 0)).
Proof.
  split.
  - apply (proj1 (circuit_breaker_rules 1 (default 0)) eq_refl).
  - apply (proj1 (proj2 (circuit_breaker_rules 1000005
                           (fail_all [1; 2; 3; 4; 5] (default 0))))
             eq_refl 5 eq_refl).
    vm_compute. discriminate.
Defined.

End CircuitBreakerFacts.

(** ** The error classifier *)

Section ClassifierFacts.

Import ErrorRecovery.

(** The [if]/[elif] cascade is the first match in the precedence table. *)
Lemma classify_is_first_match message :
  classify_message message = first_match precedence (lower message).
Proof.
  unfold classify_message, precedence, first_match.
  repeat match goal with
         | |- context [if ?b then _ else _] => destruct b
         end; reflexivity.
Qed.

(** In any table, the first entry whose terms match decides. *)
Lemma first_match_split before ty terms after error_str :
  Forall (fun entry => any_term (snd entry) error_str = false) before ->
  any_term terms error_str = true ->
  first_match (before ++ (ty, terms) :: after) error_str = ty.
Proof.
  induction 1 as [|[ty' terms'] before Hx _ IH]; intros Hm;
    cbn [app first_match].
  - rewrite Hm. reflexivity.
  - cbn [snd] in Hx. rewrite Hx. apply IH, Hm.
Qed.

(** C7, as amended.  [classify_message] answers one [ErrorType] by ordered
    substring matching on the lower-cased message with precedence
    CONNECTION, TIMEOUT, VALIDATION, RATE_LIMIT, AUTH, SERVER, UNKNOWN: the
    first category of the table whose terms match wins; a message with a
    connection term is CONNECTION whatever else it contains; and a message
    that contains one of the server terms ["server error"], ["500"],
    ["502"], ["503"] and matches no earlier category is SERVER. *)
Theorem classify_ordered_matching :
  forall message : string,
    classify_message message = first_match precedence (lower message) /\
    (forall before ty terms after,
        precedence = before ++ (ty, terms) :: after ->
        Forall (fun entry => any_term (snd entry) (lower message) = false)
               before ->
        any_term terms (lower message) = true ->
        classify_message message = ty) /\
    (any_term connection_terms (lower message) = true ->
     classify_message message = CONNECTION_ERROR) /\
    (any_term server_terms (lower message) = true ->
     any_term connection_terms (lower message) = false ->
     any_term timeout_terms (lower message) = false ->
     any_term validation_terms (lower message) = false ->
     any_term rate_limit_terms (lower message) = false ->
     any_term authentication_terms (lower message) = false ->
     classify_message message = SERVER_ERROR) /\
    (first_match precedence (lower message) = UNKNOWN_ERROR <->
     Forall (fun entry => any_term (snd entry) (lower message) = false)
            precedence).
Proof.
  intros message. split; [apply classify_is_first_match|].
  split.
  { intros before ty terms after Hp Hb Hm.
    rewrite classify_is_first_match, Hp. apply first_match_split; assumption. }
  split.
  { intros Hc. unfold classify_message. rewrite Hc. reflexivity. }
  split.
  { intros Hs H1 H2 H3 H4 H5. unfold classify_message.
    rewrite H1, H2, H3, H4, H5, Hs. reflexivity. }
  unfold precedence, first_match. split.
  - intros Hu.
    repeat match type of Hu with
           | (if ?b then _ else _) = _ => destruct b eqn:?; [discriminate|]
           end.
    repeat constructor; assumption.
  - intros Hall.
    repeat match goal with
           | H : Forall _ (_ :: _) |- _ => inversion H; subst; clear H
           end.
    cbn [snd] in *.
    repeat match goal with
           | H : any_term _ _ = false |- _ => rewrite H; clear H
           end.
    reflexivity.
Qed.

(** C7 on concrete messages: a connection term beats a timeout term, and
    "HTTP 503" with nothing earlier is SERVER. *)
Lemma classify_ordered_matching_witness :
  classify_message "Connection timed out" = CONNECTION_ERROR /\
  classify_message "HTTP 503: Service Unavailable" = SERVER_ERROR /\
  classify_message "Request timed out" = TIMEOUT_ERROR.
Proof.
  split; [|split].
  - apply (classify_ordered_matching "Connection timed out"). reflexivity.
  - apply (classify_ordered_matching "HTTP 503: Service Unavailable");
      reflexivity.
  - destruct (classify_ordered_matching "Request timed out")
      as (_ & Hfirst & _).
    apply (Hfirst [(CONNECTION_ERROR, connection_terms)] TIMEOUT_ERROR
             timeout_terms
             [(VALIDATION_ERROR, validation_terms);
              (RATE_LIMIT_ERROR, rate_limit_terms);
              (AUTHENTICATION_ERROR, authentication_terms);
              (SERVER_ERROR, server_terms)]);
      [reflexivity | repeat constructor | reflexivity].
Defined.

(** C7 as stated fails: "504" is a 5xx status code, the message matches no
    earlier category, and the classifier answers UNKNOWN, not SERVER. *)
Lemma classify_504_is_unknown :
  is_5xx_code "504" = true /\
  contains "504" (lower "HTTP 504: upstream failure") = true /\
  first_match (firstn 5 precedence) (lower "HTTP 504: upstream failure")
    = UNKNOWN_ERROR /\
  classify_message "HTTP 504: upstream failure" = UNKNOWN_ERROR /\
  classify_message "HTTP 504: upstream failure" <> SERVER_ERROR.
Proof. repeat split; try reflexivity. discriminate. Qed.

End ClassifierFacts.

(** ** The client: frame, cache and metrics of [invoke_tool] *)

Section ClientFacts.

Import World Client.
Context `{JsonLib}.

Lemma same_setup_refl c : same_setup c c.
Proof. unfold same_setup; auto. Qed.

Lemma same_setup_trans a b c :
  same_setup a b -> same_setup b c -> same_setup a c.
Proof. unfold same_setup; intuition congruence. Qed.

Lemma same_net_refl w : same_net w w.
Proof. unfold same_net; auto. Qed.

Lemma same_net_trans a b c :
  same_net a b -> same_net b c -> same_net a c.
Proof. unfold same_net; intros [] []; split; [congruence | lia]. Qed.

(** Case analysis on the innermost scrutinee first. *)
Ltac innermost_case :=
  match goal with
  | |- context [match ?x with _ => _ end] =>
      lazymatch x with
      | context [match _ with _ => _ end] => fail
      | _ => destruct x eqn:?
      end
  end.

Ltac body_cases :=
  unfold attempt_body, unexpected_error, _get_client, post;
  repeat (innermost_case; cbn).

Lemma attempt_body_frame tool key start attempt c w :
  let e := attempt_body tool key start attempt c w in
  same_setup c (end_client e) /\ same_net w (end_world e).
Proof.
  cbv zeta. body_cases; cbn; unfold same_setup, same_net; cbn;
    repeat split; auto; lia.
Qed.

(** With a handle in the pool, an attempt performs exactly one POST. *)
Lemma attempt_body_posts tool key start attempt c w :
  (0 < client_pool c)%nat ->
  posts (end_world (attempt_body tool key start attempt c w)) = S (posts w).
Proof.
  intros Hpool. body_cases; cbn; try reflexivity; lia.
Qed.

(** Without one, it performs none. *)
Lemma attempt_body_no_pool tool key start attempt c w :
  client_pool c = O ->
  exists r c', attempt_body tool key start attempt c w = Return r c' w.
Proof.
  intros Hpool. unfold attempt_body, _get_client. rewrite Hpool.
  unfold unexpected_error. eauto.
Qed.

Lemma status_error_dict msg : status_is (error_dict msg) "success" = false.
Proof. reflexivity. Qed.

(** A returned success payload was stored under the cache key, stamped
    with the clock at the return. *)
Lemma attempt_body_caches tool key start attempt c w r c' w' :
  attempt_body tool (Some key) start attempt c w = Return r c' w' ->
  status_is r "success" = true ->
  cache c' !! key = Some (r, clock w').
Proof.
  body_cases; intros [= <- <- <-]; cbn;
    rewrite ?status_error_dict; try discriminate.
  intros _. apply lookup_insert_eq.
Qed.

Lemma retry_loop_frame tool key start attempts : forall c w,
  let out := retry_loop tool key start attempts c w in
  same_setup c (snd (fst out)) /\ same_net w (snd out).
Proof.
  induction attempts as [|a rest IH]; intros c w; cbn.
  - split; [unfold same_setup; cbn; auto | apply same_net_refl].
  - pose proof (attempt_body_frame tool key start a c w) as [Hs Hn].
    cbv zeta in Hs, Hn.
    destruct (attempt_body tool key start a c w) as [c1 w1|r c1 w1]; cbn in *.
    + destruct (IH c1 w1) as [Hs' Hn']. cbv zeta in Hs', Hn'.
      split; [eapply same_setup_trans | eapply same_net_trans]; eauto.
    + auto.
Qed.

Lemma retry_loop_caches tool key start attempts : forall c w r c' w',
  retry_loop tool (Some key) start attempts c w = (r, c', w') ->
  status_is r "success" = true ->
  cache c' !! key = Some (r, clock w').
Proof.
  induction attempts as [|a rest IH]; intros c w r c' w'; cbn.
  - unfold all_retries_failed. intros [= <- <- <-].
    rewrite status_error_dict. discriminate.
  - destruct (attempt_body tool (Some key) start a c w) as [c1 w1|r1 c1 w1] eqn:E.
    + apply IH.
    + intros [= <- <- <-]. eapply attempt_body_caches; eauto.
Qed.

(** The loop reaches the network exactly when the pool holds a handle and
    there is an attempt to run. *)
Lemma retry_loop_posts tool key start attempts c w :
  (0 < client_pool c)%nat -> attempts <> [] ->
  (posts w < posts (snd (retry_loop tool key start attempts c w)))%nat.
Proof.
  intros Hpool Hne. destruct attempts as [|a rest]; [congruence|]. cbn.
  pose proof (attempt_body_posts tool key start a c w Hpool) as Hp.
  destruct (attempt_body tool key start a c w) as [c1 w1|r c1 w1]; cbn in *.
  - destruct (retry_loop_frame tool key start rest c1 w1) as [_ [_ Hle]].
    cbv zeta in Hle. lia.
  - lia.
Qed.

Lemma retry_loop_no_posts tool key start attempts c w :
  client_pool c = O \/ attempts = [] ->
  posts (snd (retry_loop tool key start attempts c w)) = posts w.
Proof.
  intros [Hpool | ->]; [|reflexivity].
  destruct attempts as [|a rest]; [reflexivity|]. cbn.
  destruct (attempt_body_no_pool tool key start a c w Hpool) as (r & c' & ->).
  reflexivity.
Qed.

Lemma uncached_call_unfold tool key c w :
  uncached_call tool key c w =
  retry_loop tool key (clock w) (range (max_retries c)) (loop_entry tool c) w.
Proof.
  unfold uncached_call, loop_entry. destruct (metrics c !! tool); reflexivity.
Qed.

Lemma loop_entry_setup tool c : same_setup c (loop_entry tool c).
Proof.
  unfold loop_entry, same_setup. destruct (metrics c !! tool); cbn; auto.
Qed.

Lemma loop_entry_cache tool c : cache (loop_entry tool c) = cache c.
Proof. unfold loop_entry. destruct (metrics c !! tool); reflexivity. Qed.

Lemma range_nonempty n : 1 <= n -> range n <> [].
Proof.
  intros Hn. unfold range. destruct (Z.to_nat n) eqn:E; [lia|]. discriminate.
Qed.

Lemma range_empty n : n < 1 -> range n = [].
Proof. intros Hn. unfold range. replace (Z.to_nat n) with O by lia. reflexivity. Qed.

(** C6. When a call with caching enabled has fetched a success payload
    from the network, a second call with the same tool name and parameters
    made less than [cache_ttl] after the insertion answers the identical
    payload, changes nothing and performs no POST; from [cache_ttl] on the
    entry is dropped by the read ([_get_cached_result] answers [None] and
    deletes it) and the call goes to the network again. *)
Theorem cache_serves_second_call :
  forall (tool : string) (params : value) (c0 : Client.t) (w0 : World.t)
         (payload : dict) (c1 : Client.t) (w1 : World.t),
    invoke_tool tool params true c0 w0 = (Ok payload, c1, w1) ->
    posts w1 <> posts w0 ->
    status_is payload "success" = true ->
    (forall w2, clock w2 - clock w1 < cache_ttl c1 ->
       invoke_tool tool params true c1 w2 = (Ok payload, c1, w2)) /\
    (forall w2, cache_ttl c1 <= clock w2 - clock w1 ->
       exists key,
         _get_cache_key tool params = Ok key /\
         fst (_get_cached_result key (clock w2) c1) = None /\
         cache (snd (_get_cached_result key (clock w2) c1)) !! key = None /\
         (posts w2 < posts (snd (invoke_tool tool params true c1 w2)))%nat).
Proof.
  intros tool params c0 w0 payload c1 w1 Hcall Hposted Hok.
  unfold invoke_tool in Hcall.
  destruct (_get_cache_key tool params) as [key|e] eqn:K; [|discriminate].
  destruct (_get_cached_result key (clock w0) c0) as [[cached|] c0'] eqn:G.
  { injection Hcall as _ _ ->. congruence. }
  rewrite uncached_call_unfold in Hcall.
  destruct (retry_loop tool (Some key) (clock w0) (range (max_retries c0'))
              (loop_entry tool c0') w0) as [[r c2] w2'] eqn:L.
  injection Hcall as -> -> ->.
  assert (Hentry : cache c1 !! key = Some (payload, clock w1))
    by (eapply retry_loop_caches; eauto).
  pose proof (retry_loop_frame tool (Some key) (clock w0)
                (range (max_retries c0')) (loop_entry tool c0') w0) as Hframe.
  cbv zeta in Hframe. rewrite L in Hframe. cbn in Hframe.
  destruct Hframe as [(Hmr & Hpool & _ & _) _].
  destruct (loop_entry_setup tool c0') as (Hmr0 & Hpool0 & _ & _).
  assert (Hreach : (0 < client_pool c1)%nat /\ range (max_retries c1) <> []).
  { destruct (client_pool (loop_entry tool c0')) eqn:P.
    - exfalso. apply Hposted.
      pose proof (retry_loop_no_posts tool (Some key) (clock w0)
                    (range (max_retries c0')) (loop_entry tool c0') w0
                    (or_introl P)) as Hn.
      rewrite L in Hn. exact Hn.
    - destruct (range (max_retries c0')) eqn:R.
      + exfalso. apply Hposted. cbn in L. unfold all_retries_failed in L.
        injection L as _ _ <-. reflexivity.
      + split; [lia|]. rewrite Hmr, Hmr0, R. discriminate. }
  destruct Hreach as [Hpool1 Hrange1].
  split.
  - intros w2 Hfresh. unfold invoke_tool. rewrite K.
    unfold _get_cached_result. rewrite Hentry.
    destruct (clock w2 - clock w1 <? cache_ttl c1) eqn:T; [reflexivity|].
    apply Z.ltb_ge in T. lia.
  - intros w2 Hstale. exists key. split; [reflexivity|].
    assert (Hread : _get_cached_result key (clock w2) c1 =
                    (None, set_cache (delete key (cache c1)) c1)).
    { unfold _get_cached_result. rewrite Hentry.
      destruct (clock w2 - clock w1 <? cache_ttl c1) eqn:T; [|reflexivity].
      apply Z.ltb_lt in T. lia. }
    rewrite Hread. cbn [fst snd].
    split; [reflexivity|]. split; [apply lookup_delete_eq|].
    unfold invoke_tool. rewrite K, Hread, uncached_call_unfold.
    set (c1' := set_cache (delete key (cache c1)) c1).
    pose proof (retry_loop_posts tool (Some key) (clock w2)
                  (range (max_retries c1')) (loop_entry tool c1') w2) as Hp.
    destruct (retry_loop tool (Some key) (clock w2) (range (max_retries c1'))
                (loop_entry tool c1') w2) as [[r c3] w3].
    cbn [snd] in *. apply Hp.
    + destruct (loop_entry_setup tool c1') as (_ & -> & _). exact Hpool1.
    + exact Hrange1.
Qed.

(** *** Calls that reach the network *)

Lemma invoke_tool_uncached tool params use_cache c w key c1 :
  cache_stage tool params use_cache c w = Some (key, c1) ->
  invoke_tool tool params use_cache c w =
  (Ok (fst (fst (uncached_call tool key c1 w))),
   snd (fst (uncached_call tool key c1 w)), snd (uncached_call tool key c1 w)).
Proof.
  unfold cache_stage, invoke_tool. destruct use_cache.
  - destruct (_get_cache_key tool params) as [k|e]; [|discriminate].
    destruct (_get_cached_result k (clock w) c) as [[hit|] c'];
      [discriminate|].
    intros [= <- <-].
    destruct (uncached_call tool (Some k) c' w) as [[r c2] w2]. reflexivity.
  - intros [= <- <-].
    destruct (uncached_call tool None c w) as [[r c2] w2]. reflexivity.
Qed.

Lemma cache_stage_frame tool params use_cache c w key c1 :
  cache_stage tool params use_cache c w = Some (key, c1) ->
  same_setup c c1 /\ metrics c1 = metrics c.
Proof.
  unfold cache_stage, _get_cached_result. destruct use_cache.
  - destruct (_get_cache_key tool params) as [k|e]; [|discriminate].
    destruct (cache c !! k) as [[res ts]|].
    + destruct (clock w - ts <? cache_ttl c); [discriminate|].
      intros [= <- <-]. unfold same_setup; cbn; auto.
    + intros [= <- <-]. split; [apply same_setup_refl | reflexivity].
  - intros [= <- <-]. split; [apply same_setup_refl | reflexivity].
Qed.

Lemma loop_entry_metric tool c :
  metrics (loop_entry tool c) !! tool = Some (bump_execution (metric_of c tool)).
Proof.
  unfold loop_entry, metric_of, update_metric.
  destruct (metrics c !! tool) as [m|] eqn:E; cbn.
  - rewrite lookup_alter_eq, E. reflexivity.
  - rewrite lookup_alter_eq, lookup_insert_eq. reflexivity.
Qed.

Lemma metric_of_lookup c tool m :
  metrics c !! tool = Some m -> metric_of c tool = m.
Proof. unfold metric_of. intros ->. reflexivity. Qed.

Lemma update_metric_lookup tool f c m :
  metrics c !! tool = Some m ->
  metrics (update_metric tool f c) !! tool = Some (f m).
Proof. intros E. unfold update_metric; cbn. rewrite lookup_alter_eq, E. reflexivity. Qed.

(** An attempt on which the transport raises [httpx.RequestError]: the loop
    goes on; the failure is recorded only when no attempt is left. *)
Lemma attempt_request_error tool key start attempt c w m :
  (0 < client_pool c)%nat ->
  raises_request_error (snd (net w (posts w))) = true ->
  metrics c !! tool = Some m ->
  exists c' w',
    attempt_body tool key start attempt c w = Continue c' w' /\
    same_setup c c' /\ net w' = net w /\
    exists m', metrics c' !! tool = Some m' /\
      execution_count m' = execution_count m /\
      success_count m' = success_count m /\
      failure_count m' =
        if Z.of_nat attempt <? max_retries c - 1
        then failure_count m else failure_count m + 1.
Proof.
  intros Hpool Hraise Hm. unfold attempt_body, _get_client, post.
  destruct (client_pool c) as [|p] eqn:P; [lia|].
  destruct (net w (posts w)) as [elapsed out]. cbn in Hraise.
  destruct out as [code text json|e]; [discriminate|]. cbn in Hraise.
  rewrite Hraise. cbn [max_retries set_pool_index].
  destruct (Z.of_nat attempt <? max_retries c - 1).
  - eexists _, _. split; [reflexivity|].
    split; [unfold same_setup; cbn; auto|]. split; [reflexivity|].
    exists m. cbn. auto.
  - eexists _, _. split; [reflexivity|].
    split; [unfold same_setup; cbn; auto|]. split; [reflexivity|].
    eexists. split; [apply update_metric_lookup; exact Hm|]. cbn. auto.
Qed.

(** When every attempt raises [httpx.RequestError], the handler of the
    last attempt records the failure and falls through to the statements
    after the loop, which record it again. *)
Lemma retry_loop_request_errors tool key start : forall k a c w m,
  (0 < client_pool c)%nat ->
  (forall n, raises_request_error (snd (net w n)) = true) ->
  metrics c !! tool = Some m ->
  Z.of_nat (a + k) = max_retries c -> (0 < k)%nat ->
  exists m',
    metrics (snd (fst (retry_loop tool key start (seq a k) c w))) !! tool
      = Some m' /\
    execution_count m' = execution_count m /\
    success_count m' = success_count m /\
    failure_count m' = failure_count m + 2.
Proof.
  induction k as [|k IH]; intros a c w m Hpool Hnet Hm Hn Hk; [lia|].
  cbn [seq retry_loop].
  destruct (attempt_request_error tool key start a c w m Hpool (Hnet _) Hm)
    as (c' & w' & -> & (Hmr & Hp & _) & Hnet' & m' & Hm' & He & Hs & Hf).
  destruct (Nat.eq_dec k 0%nat) as [->|Hk'].
  - cbn [seq retry_loop]. unfold all_retries_failed. cbn [fst snd].
    eexists. split; [apply update_metric_lookup; exact Hm'|]. cbn.
    replace (Z.of_nat a <? max_retries c - 1) with false in Hf
      by (symmetry; apply Z.ltb_ge; lia).
    repeat split; try congruence; lia.
  - replace (Z.of_nat a <? max_retries c - 1) with true in Hf
      by (symmetry; apply Z.ltb_lt; lia).
    destruct (IH (S a) c' w' m') as (m'' & Hm'' & He' & Hs' & Hf');
      try lia; auto.
    + intros n. rewrite Hnet'. apply Hnet.
    + exists m''. repeat split; try congruence; lia.
Qed.

(** An attempt answered with a status of 500 or more: the loop goes on
    and records nothing. *)
Lemma attempt_server_error tool key start attempt c w :
  (0 < client_pool c)%nat ->
  is_server_error (snd (net w (posts w))) = true ->
  exists c' w',
    attempt_body tool key start attempt c w = Continue c' w' /\
    same_setup c c' /\ net w' = net w /\ posts w' = S (posts w) /\
    metrics c' = metrics c.
Proof.
  intros Hpool Hsrv. unfold attempt_body, _get_client, post.
  destruct (client_pool c) as [|p] eqn:P; [lia|].
  destruct (net w (posts w)) as [elapsed out]. cbn in Hsrv.
  destruct out as [code text json|e]; [|discriminate]. cbn in Hsrv.
  apply andb_prop in Hsrv as [H200 H500].
  apply negb_true_iff in H200. rewrite H200, H500.
  cbn [max_retries set_pool_index].
  destruct (Z.of_nat attempt <? max_retries c - 1);
    eexists _, _; (split; [reflexivity|]);
    unfold same_setup; cbn; auto 10.
Qed.

(** When the server answers 5xx on every attempt, the loop runs all its
    attempts, one POST each, and ends in "Failed after n attempts". *)
Lemma retry_loop_server_errors tool key start : forall attempts c w m,
  (0 < client_pool c)%nat ->
  (forall n, is_server_error (snd (net w n)) = true) ->
  metrics c !! tool = Some m ->
  let out := retry_loop tool key start attempts c w in
  fst (fst out) =
    error_dict ("Failed after " ++ pretty (max_retries c) ++ " attempts")%string /\
  posts (snd out) = (posts w + length attempts)%nat /\
  exists m', metrics (snd (fst out)) !! tool = Some m' /\
    execution_count m' = execution_count m /\
    success_count m' = success_count m /\
    failure_count m' = failure_count m + 1.
Proof.
  induction attempts as [|a rest IH]; intros c w m Hpool Hnet Hm; cbv zeta.
  - cbn [retry_loop]. unfold all_retries_failed. cbn [fst snd length].
    split; [reflexivity|]. split; [lia|].
    eexists. split; [apply update_metric_lookup; exact Hm|]. cbn. auto.
  - cbn [retry_loop].
    destruct (attempt_server_error tool key start a c w Hpool (Hnet _))
      as (c' & w' & -> & (Hmr & Hp & _) & Hnet' & Hposts & Hmet).
    destruct (IH c' w' m) as (Hr & Hn & Hm'); cbv zeta in *.
    + lia.
    + intros n. rewrite Hnet'. apply Hnet.
    + rewrite Hmet. exact Hm.
    + rewrite Hr, Hmr, Hn, Hposts. cbn [length].
      split; [reflexivity|]. split; [lia|]. exact Hm'.
Qed.

(** An attempt answered with a status other than 200 and below 500: the
    call returns an error dictionary at once. *)
Lemma attempt_client_error tool key start attempt c w elapsed code text json :
  (0 < client_pool c)%nat ->
  net w (posts w) = (elapsed, Response code text json) ->
  code <> 200 -> code < 500 ->
  exists c' w',
    attempt_body tool key start attempt c w =
    Return (error_dict ("HTTP " ++ pretty code ++ ": " ++ text)%string) c' w'.
Proof.
  intros Hpool Hnet H200 H500. unfold attempt_body, _get_client, post.
  destruct (client_pool c) as [|p] eqn:P; [lia|]. rewrite Hnet.
  replace (code =? 200) with false by (symmetry; apply Z.eqb_neq; exact H200).
  replace (500 <=? code) with false by (symmetry; apply Z.leb_gt; exact H500).
  eexists _, _. reflexivity.
Qed.

Lemma metric_of_stage tool params use_cache c w key c1 tool' :
  cache_stage tool params use_cache c w = Some (key, c1) ->
  metric_of c1 tool' = metric_of c tool'.
Proof.
  intros Hs. destruct (cache_stage_frame _ _ _ _ _ _ _ Hs) as [_ Hm].
  unfold metric_of. rewrite Hm. reflexivity.
Qed.

(** C5 (defect of the code).  For a call that is not served from the cache
    and whose every attempt ends in [httpx.RequestError], the tool's
    [execution_count] grows by 1 but its [failure_count] grows by 2: the
    handler of the last attempt records the failure and does not return,
    and the statements after the loop record it again.  When instead the
    server answers 5xx on every attempt, [failure_count] grows by 1. *)
Theorem request_errors_are_counted_twice :
  forall (tool : string) (params : value) (use_cache : bool) (c : Client.t)
         (w : World.t) (key : option string) (c1 : Client.t),
    cache_stage tool params use_cache c w = Some (key, c1) ->
    (0 < client_pool c)%nat -> 1 <= max_retries c ->
    let c' := snd (fst (invoke_tool tool params use_cache c w)) in
    ((forall n, raises_request_error (snd (net w n)) = true) ->
     execution_count (metric_of c' tool) = execution_count (metric_of c tool) + 1 /\
     success_count (metric_of c' tool) = success_count (metric_of c tool) /\
     failure_count (metric_of c' tool) = failure_count (metric_of c tool) + 2) /\
    ((forall n, is_server_error (snd (net w n)) = true) ->
     execution_count (metric_of c' tool) = execution_count (metric_of c tool) + 1 /\
     success_count (metric_of c' tool) = success_count (metric_of c tool) /\
     failure_count (metric_of c' tool) = failure_count (metric_of c tool) + 1).
Proof.
  intros tool params use_cache c w key c1 Hstage Hpool Hretries c'.
  unfold c'. rewrite (invoke_tool_uncached _ _ _ _ _ _ _ Hstage). cbn [fst snd].
  rewrite uncached_call_unfold.
  destruct (cache_stage_frame _ _ _ _ _ _ _ Hstage) as [(Hmr & Hp & _) _].
  destruct (loop_entry_setup tool c1) as (Hmr' & Hp' & _).
  rewrite <- (metric_of_stage _ _ _ _ _ _ _ tool Hstage).
  pose proof (loop_entry_metric tool c1) as Hentry.
  split; intros Hnet.
  - destruct (retry_loop_request_errors tool key (clock w)
                (Z.to_nat (max_retries c1)) 0 (loop_entry tool c1) w
                (bump_execution (metric_of c1 tool)))
      as (m' & Hm' & He & Hs & Hf); try lia; auto.
    unfold range. rewrite (metric_of_lookup _ _ _ Hm'), He, Hs, Hf.
    cbn. auto.
  - destruct (retry_loop_server_errors tool key (clock w)
                (range (max_retries c1)) (loop_entry tool c1) w
                (bump_execution (metric_of c1 tool)))
      as (_ & _ & m' & Hm' & He & Hs & Hf); try lia; auto.
    rewrite (metric_of_lookup _ _ _ Hm'), He, Hs, Hf. cbn. auto.
Qed.

(** *** The accounting of one call, whatever the server does *)

Lemma attempt_body_accounting tool key start attempt c w m :
  metrics c !! tool = Some m ->
  exists m',
    metrics (end_client (attempt_body tool key start attempt c w)) !! tool
      = Some m' /\
    match attempt_body tool key start attempt c w with
    | Return _ _ _ => moved m m' 1 0 \/ moved m m' 0 1
    | Continue _ _ =>
        moved m m' 0 0 \/
        (moved m m' 0 1 /\ (Z.of_nat attempt <? max_retries c - 1) = false)
    end.
Proof.
  intros Hm. body_cases;
    rewrite ?lookup_insert_eq, ?lookup_alter_eq, ?Hm; cbn;
    (eexists; split; [reflexivity|]); unfold moved; cbn;
    try (left; repeat split; lia);
    try (right; repeat split; solve [lia | assumption]).
Qed.

Lemma retry_loop_accounting tool key start : forall k a c w m,
  metrics c !! tool = Some m ->
  Z.of_nat (a + k) = Z.max 0 (max_retries c) ->
  exists m',
    metrics (snd (fst (retry_loop tool key start (seq a k) c w))) !! tool
      = Some m' /\
    (moved m m' 1 0 \/ moved m m' 0 1 \/ moved m m' 0 2).
Proof.
  induction k as [|k IH]; intros a c w m Hm Hn.
  - cbn [seq retry_loop]. unfold all_retries_failed. cbn [fst snd].
    eexists. split; [apply update_metric_lookup; exact Hm|].
    right; left. unfold moved; cbn. repeat split; lia.
  - cbn [seq retry_loop].
    destruct (attempt_body_accounting tool key start a c w m Hm)
      as (m1 & Hm1 & Hmove).
    pose proof (attempt_body_frame tool key start a c w) as [(Hmr & _) _].
    cbv zeta in Hmr.
    destruct (attempt_body tool key start a c w) as [c1 w1|r c1 w1];
      cbn [end_client fst snd] in *.
    + destruct Hmove as [H0 | [H1 Hlast]].
      * destruct (IH (S a) c1 w1 m1 Hm1) as (m' & Hm' & Hcases); [lia|].
        exists m'. split; [exact Hm'|]. unfold moved in *.
        destruct Hcases as [?|[?|?]]; [left | right; left | right; right];
          intuition lia.
      * apply Z.ltb_ge in Hlast.
        assert (k = 0%nat) as -> by lia.
        cbn [seq retry_loop]. unfold all_retries_failed. cbn [fst snd].
        eexists. split; [apply update_metric_lookup; exact Hm1|].
        right; right. unfold moved in *; cbn. intuition lia.
    + exists m1. split; [exact Hm1|]. tauto.
Qed.

(** The accounting of a call that reaches the network, whatever the server
    does: [execution_count] grows by exactly 1, and the outcome is recorded
    as one success, one failure, or (the double count of the last
    [RequestError]) two failures. *)
Theorem invoke_tool_accounting :
  forall (tool : string) (params : value) (use_cache : bool) (c : Client.t)
         (w : World.t) (key : option string) (c1 : Client.t),
    cache_stage tool params use_cache c w = Some (key, c1) ->
    let m := metric_of c tool in
    let m' := metric_of (snd (fst (invoke_tool tool params use_cache c w))) tool in
    execution_count m' = execution_count m + 1 /\
    ((success_count m' = success_count m + 1 /\
      failure_count m' = failure_count m) \/
     (success_count m' = success_count m /\
      failure_count m' = failure_count m + 1) \/
     (success_count m' = success_count m /\
      failure_count m' = failure_count m + 2)).
Proof.
  intros tool params use_cache c w key c1 Hstage. cbv zeta.
  rewrite (invoke_tool_uncached _ _ _ _ _ _ _ Hstage). cbn [fst snd].
  rewrite uncached_call_unfold.
  rewrite <- (metric_of_stage _ _ _ _ _ _ _ tool Hstage).
  destruct (loop_entry_setup tool c1) as (Hmr & _).
  destruct (retry_loop_accounting tool key (clock w)
              (Z.to_nat (max_retries c1)) 0 (loop_entry tool c1) w
              (bump_execution (metric_of c1 tool)) (loop_entry_metric tool c1))
    as (m' & Hm' & Hcases); [lia|].
  unfold range. rewrite (metric_of_lookup _ _ _ Hm').
  unfold moved in Hcases; cbn in Hcases. intuition lia.
Qed.

(** A call that does not reach the network (a cache hit, or [json.dumps]
    raising) leaves the client, its metrics included, and the world as they
    were: cache hits are invisible to the counters. *)
Theorem cache_hit_is_invisible :
  forall (tool : string) (params : value) (use_cache : bool) (c : Client.t)
         (w : World.t),
    cache_stage tool params use_cache c w = None ->
    snd (fst (invoke_tool tool params use_cache c w)) = c /\
    snd (invoke_tool tool params use_cache c w) = w.
Proof.
  intros tool params use_cache c w. unfold cache_stage, invoke_tool.
  destruct use_cache; [|discriminate].
  destruct (_get_cache_key tool params) as [key|e]; [|auto].
  unfold _get_cached_result.
  destruct (cache c !! key) as [[res ts]|]; [|discriminate].
  destruct (clock w - ts <? cache_ttl c); [auto | discriminate].
Qed.

(** [invoke_tool] raises only when it was asked to use the cache and
    [json.dumps] raised on the parameters; with [use_cache=False] it always
    returns a dictionary. *)
Theorem invoke_tool_raises_only_from_dumps :
  forall (tool : string) (params : value) (use_cache : bool) (c : Client.t)
         (w : World.t),
    match fst (fst (invoke_tool tool params use_cache c w)) with
    | Ok _ => True
    | Raise e => use_cache = true /\ json_dumps params = Raise e
    end.
Proof.
  intros tool params use_cache c w. unfold invoke_tool, _get_cache_key.
  destruct use_cache.
  - destruct (json_dumps params) as [js|e] eqn:J; [|cbn; auto].
    destruct (_get_cached_result (tool ++ ":" ++ js)%string (clock w) c)
      as [[hit|] c1]; [exact I|].
    destruct (uncached_call tool (Some (tool ++ ":" ++ js)%string) c1 w)
      as [[r c2] w2]. exact I.
  - destruct (uncached_call tool None c w) as [[r c2] w2]. exact I.
Qed.

End ClientFacts.

Section ClientExamples.

Import World Client Examples.

(** C6 on the example client and the healthy server: the first call takes
    one POST and is cached at time 5; a call four minutes later is served
    from the cache, a call six minutes later is not. *)
Lemma cache_serves_second_call_witness :
  let first := invoke_tool "list_products" (VDict []) true
                 Examples.client Examples.healthy in
  let c1 := snd (fst first) in
  let w1 := snd first in
  let payload := Client.success_dict (VDict []) in
  fst (fst first) = Ok payload /\ posts w1 = 1%nat /\
  invoke_tool "list_products" (VDict []) true c1 (Examples.later 240000000 w1)
    = (Ok payload, c1, Examples.later 240000000 w1) /\
  exists key,
    _get_cache_key "list_products" (VDict []) = Ok key /\
    fst (_get_cached_result key (clock (Examples.later 360000000 w1)) c1)
      = None /\
    cache (snd (_get_cached_result key
                  (clock (Examples.later 360000000 w1)) c1)) !! key = None /\
    (posts (Examples.later 360000000 w1)
     < posts (snd (invoke_tool "list_products" (VDict []) true c1
                     (Examples.later 360000000 w1))))%nat.
Proof.
  intros first c1 w1 payload.
  assert (Hfirst : first = (Ok payload, c1, w1)) by reflexivity.
  destruct (cache_serves_second_call "list_products" (VDict [])
              Examples.client Examples.healthy payload c1 w1 Hfirst)
    as [Hhit Hmiss]; [vm_compute; discriminate | reflexivity |].
  split; [reflexivity|]. split; [reflexivity|]. split.
  - apply Hhit. vm_compute. reflexivity.
  - apply Hmiss. vm_compute. discriminate.
Defined.

(** C5 on the example client: three refused connections leave
    [failure_count] at 2 after one call, three 503 answers leave it at 1. *)
Lemma request_errors_are_counted_twice_witness :
  let m0 := metric_of Examples.client "list_products" in
  let refused := snd (fst (invoke_tool "list_products" (VDict []) true
                             Examples.client Examples.refusing)) in
  let busy := snd (fst (invoke_tool "list_products" (VDict []) true
                          Examples.client Examples.unavailable)) in
  (execution_count m0, success_count m0, failure_count m0) = (0, 0, 0) /\
  (execution_count (metric_of refused "list_products") = execution_count m0 + 1 /\
   success_count (metric_of refused "list_products") = success_count m0 /\
   failure_count (metric_of refused "list_products") = failure_count m0 + 2) /\
  (execution_count (metric_of busy "list_products") = execution_count m0 + 1 /\
   success_count (metric_of busy "list_products") = success_count m0 /\
   failure_count (metric_of busy "list_products") = failure_count m0 + 1).
Proof.
  intros m0 refused busy. split; [reflexivity|]. split.
  - apply (request_errors_are_counted_twice "list_products" (VDict []) true
             Examples.client Examples.refusing
             (Some "list_products:{}") Examples.client);
      [reflexivity | cbn; lia | cbn; lia | intros n; reflexivity].
  - apply (request_errors_are_counted_twice "list_products" (VDict []) true
             Examples.client Examples.unavailable
             (Some "list_products:{}") Examples.client);
      [reflexivity | cbn; lia | cbn; lia | intros n; reflexivity].
Defined.

(** The accounting on the example client and the healthy server: one
    execution, one success. *)
Lemma invoke_tool_accounting_witness :
  let m := metric_of Examples.client "list_products" in
  let m' := metric_of (snd (fst (invoke_tool "list_products" (VDict []) true
                                   Examples.client Examples.healthy)))
              "list_products" in
  success_count m' = 1 /\
  execution_count m' = execution_count m + 1 /\
  ((success_count m' = success_count m + 1 /\
    failure_count m' = failure_count m) \/
   (success_count m' = success_count m /\
    failure_count m' = failure_count m + 1) \/
   (success_count m' = success_count m /\
    failure_count m' = failure_count m + 2)).
Proof.
  intros m m'. split; [reflexivity|].
  apply (invoke_tool_accounting "list_products" (VDict []) true
           Examples.client Examples.healthy
           (Some "list_products:{}") Examples.client).
  reflexivity.
Defined.

(** A cache hit on the example client: the second call, four minutes
    after the first, leaves client and world untouched. *)
Lemma cache_hit_is_invisible_witness :
  let first := invoke_tool "list_products" (VDict []) true
                 Examples.client Examples.healthy in
  let c1 := snd (fst first) in
  let w2 := Examples.later 240000000 (snd first) in
  execution_count (metric_of c1 "list_products") = 1 /\
  snd (fst (invoke_tool "list_products" (VDict []) true c1 w2)) = c1 /\
  snd (invoke_tool "list_products" (VDict []) true c1 w2) = w2.
Proof.
  intros first c1 w2. split; [reflexivity|].
  apply (cache_hit_is_invisible "list_products" (VDict []) true c1 w2).
  reflexivity.
Defined.

End ClientExamples.

(** ** The orchestrator *)

Section OrchestratorFacts.

Import World Orchestrator.
Context `{JsonLib} `{Fallback.Store}.

(** Whatever the client returns on an attempt ends the loop as a success. *)
Lemma primary_loop_returned tool params server_type start attempt rest n
    last_error o w payload c' w' :
  Client.invoke_tool tool params (truthy_str server_type) (enhanced_client o) w
    = (Ok payload, c', w') ->
  primary_loop tool params server_type start (attempt :: rest) n last_error o w
    = (primary_success payload (clock w' - start) n, set_client c' o, w').
Proof. intros Hcall. cbn [primary_loop]. rewrite Hcall. reflexivity. Qed.

Lemma try_primary_returned tool params server_type o w payload c' w' :
  1 <= max_retries (recovery_strategy o) ->
  Client.invoke_tool tool params (truthy_str server_type) (enhanced_client o) w
    = (Ok payload, c', w') ->
  _try_primary_execution tool params server_type o w
    = (primary_success payload (clock w' - clock w) 0, set_client c' o, w').
Proof.
  intros Hn Hcall. unfold _try_primary_execution, Client.range.
  destruct (Z.to_nat (max_retries (recovery_strategy o))) as [|k] eqn:E; [lia|].
  cbn [seq]. apply primary_loop_returned. exact Hcall.
Qed.

Lemma execute_tool_returned tool params server_type o w payload c' w' :
  current_mode o = PRIMARY \/ current_mode o = RECOVERY ->
  1 <= max_retries (recovery_strategy o) ->
  Client.invoke_tool tool params (truthy_str server_type) (enhanced_client o) w
    = (Ok payload, c', w') ->
  fst (fst (execute_tool tool params server_type o w))
    = Ok (primary_success payload (clock w' - clock w) 0) /\
  snd (execute_tool tool params server_type o w) = w'.
Proof.
  intros Hmode Hn Hcall. unfold execute_tool.
  replace (mode_eqb (current_mode o) PRIMARY || mode_eqb (current_mode o) RECOVERY)
    with true by (destruct Hmode as [-> | ->]; reflexivity).
  rewrite (try_primary_returned _ _ _ _ _ _ _ _ Hn Hcall). cbn. auto.
Qed.

(** [invoke_tool] raises only out of [json.dumps], before it touches the
    client or the world; so it raises again on every later attempt. *)
Lemma invoke_tool_raises tool params use_cache c w e c' w' :
  Client.invoke_tool tool params use_cache c w = (Raise e, c', w') ->
  c' = c /\ w' = w /\
  forall c2 w2, Client.invoke_tool tool params use_cache c2 w2 = (Raise e, c2, w2).
Proof.
  unfold Client.invoke_tool. destruct use_cache.
  - destruct (Client._get_cache_key tool params) as [key|e0] eqn:K.
    + destruct (Client._get_cached_result key (clock w) c) as [[hit|] c1].
      * discriminate.
      * destruct (Client.uncached_call tool (Some key) c1 w) as [[r c2] w2].
        discriminate.
    + intros [= <- <- <-]. auto.
  - destruct (Client.uncached_call tool None c w) as [[r c2] w2]. discriminate.
Qed.

Lemma primary_loop_raising tool params server_type start e :
  (forall c w, Client.invoke_tool tool params (truthy_str server_type) c w
               = (Raise e, c, w)) ->
  forall attempts n last_error o w,
    success (fst (fst (primary_loop tool params server_type start attempts n
                         last_error o w))) = false.
Proof.
  intros Hraise. induction attempts as [|a rest IH]; intros n le o w.
  - reflexivity.
  - cbn [primary_loop]. rewrite Hraise. apply IH.
Qed.

(** A successful result of the primary path never counts a retry. *)
Lemma primary_loop_success_retries tool params server_type start attempts n
    last_error o w :
  let r := fst (fst (primary_loop tool params server_type start attempts n
                       last_error o w)) in
  success r = true -> retries r = n.
Proof.
  destruct attempts as [|a rest]; cbv zeta; [discriminate|].
  cbn [primary_loop].
  destruct (Client.invoke_tool tool params (truthy_str server_type)
              (enhanced_client o) w) as [[[payload|e] c'] w'] eqn:Hcall.
  - reflexivity.
  - destruct (invoke_tool_raises _ _ _ _ _ _ _ _ Hcall) as (_ & _ & Hagain).
    rewrite (primary_loop_raising tool params server_type start e Hagain).
    discriminate.
Qed.

Lemma primary_loop_mode tool params server_type start attempts : forall n
    last_error o w,
  mode (fst (fst (primary_loop tool params server_type start attempts n
                    last_error o w))) = PRIMARY.
Proof.
  induction attempts as [|a rest IH]; intros n le o w; [reflexivity|].
  cbn [primary_loop].
  destruct (Client.invoke_tool tool params (truthy_str server_type)
              (enhanced_client o) w) as [[[payload|e] c'] w']; [reflexivity|].
  apply IH.
Qed.

(** The fallback stage, once a handler is configured, stops at
    [supports_tool]: the handler has no such attribute. *)
Lemma fallback_stage_raises tool params start n o w h :
  fallback_handler o = Some h ->
  fallback_stage tool params start n o w
    = (Raise (AttributeError "MCPFallbackHandler" "supports_tool"), o, w).
Proof.
  intros Hh. unfold fallback_stage, _can_use_fallback. rewrite Hh. reflexivity.
Qed.

Lemma fallback_stage_degraded tool params start n o w :
  fallback_handler o = None ->
  fallback_stage tool params start n o w
    = (Ok (degraded_result start n w), o, w).
Proof. intros Hh. unfold fallback_stage. rewrite Hh. reflexivity. Qed.

Lemma primary_loop_handler tool params server_type start attempts : forall n
    last_error o w,
  fallback_handler (snd (fst (primary_loop tool params server_type start
                                attempts n last_error o w)))
  = fallback_handler o.
Proof.
  induction attempts as [|a rest IH]; intros n le o w; [reflexivity|].
  cbn [primary_loop].
  destruct (Client.invoke_tool tool params (truthy_str server_type)
              (enhanced_client o) w) as [[[payload|e] c'] w']; [reflexivity|].
  rewrite IH. reflexivity.
Qed.

Lemma fallback_stage_mode tool params start n o w r :
  fst (fst (fallback_stage tool params start n o w)) = Ok r ->
  mode r = DEGRADED /\ success r = false /\ result r = None /\
  error r = Some "All execution methods failed" /\ retries r = n.
Proof.
  destruct (fallback_handler o) as [h|] eqn:Hh.
  - rewrite (fallback_stage_raises _ _ _ _ _ _ _ Hh). discriminate.
  - rewrite (fallback_stage_degraded _ _ _ _ _ _ Hh). intros [= <-].
    cbn. auto.
Qed.

(** No call of the fallback handler made by the orchestrator succeeds: the
    handler has no [execute_fallback] either. *)
Lemma try_fallback_fails h tool params n w :
  success (_try_fallback_execution h tool params n w) = false.
Proof. reflexivity. Qed.

(** C1 (defect of the code).  With a fallback handler configured,
    [execute_tool] raises [AttributeError] as soon as it reaches the fallback
    stage, that is in mode FALLBACK or DEGRADED, or after the primary path
    has failed: [_can_use_fallback] calls [supports_tool], which
    [MCPFallbackHandler] does not define (its method is
    [is_tool_supported]).  Without a handler every call returns a structured
    result, and a failed one is [{success: False, mode: DEGRADED, error,
    retries}]. *)
Theorem execute_tool_raises_with_handler :
  (forall (tool : string) (params : value) (server_type : string)
          (o : Orchestrator.t) (w : World.t) (h : Fallback.t),
      fallback_handler o = Some h ->
      current_mode o = FALLBACK \/ current_mode o = DEGRADED \/
      success (fst (fst (_try_primary_execution tool params server_type o w)))
        = false ->
      fst (fst (execute_tool tool params server_type o w))
        = Raise (AttributeError "MCPFallbackHandler" "supports_tool")) /\
  (forall (tool : string) (params : value) (server_type : string)
          (o : Orchestrator.t) (w : World.t),
      fallback_handler o = None ->
      exists r, fst (fst (execute_tool tool params server_type o w)) = Ok r /\
        (success r = false ->
         mode r = DEGRADED /\ result r = None /\
         error r = Some "All execution methods failed")).
Proof.
  split.
  - intros tool params server_type o w h Hh Hreach. unfold execute_tool.
    destruct (mode_eqb (current_mode o) PRIMARY
              || mode_eqb (current_mode o) RECOVERY) eqn:M.
    + destruct Hreach as [Hm | [Hm | Hfail]];
        [rewrite Hm in M; discriminate | rewrite Hm in M; discriminate |].
      pose proof (primary_loop_handler tool params server_type (clock w)
                    (Client.range (max_retries (recovery_strategy o))) 0 None o w)
        as Hkeep.
      fold (_try_primary_execution tool params server_type o w) in Hkeep.
      destruct (_try_primary_execution tool params server_type o w)
        as [[r o1] w1]. cbn [fst snd] in *. rewrite Hfail.
      rewrite (fallback_stage_raises _ _ _ _ _ _ h); [reflexivity|].
      rewrite Hkeep. exact Hh.
    + rewrite (fallback_stage_raises _ _ _ _ _ _ h Hh). reflexivity.
  - intros tool params server_type o w Hh. unfold execute_tool.
    destruct (mode_eqb (current_mode o) PRIMARY
              || mode_eqb (current_mode o) RECOVERY).
    + pose proof (primary_loop_handler tool params server_type (clock w)
                    (Client.range (max_retries (recovery_strategy o))) 0 None o w)
        as Hkeep.
      fold (_try_primary_execution tool params server_type o w) in Hkeep.
      destruct (_try_primary_execution tool params server_type o w)
        as [[r o1] w1]. cbn [fst snd] in *.
      destruct (success r) eqn:S.
      * exists r. split; [reflexivity|]. congruence.
      * rewrite fallback_stage_degraded by congruence.
        eexists. split; [reflexivity|]. cbn. auto.
    + rewrite fallback_stage_degraded by exact Hh.
      eexists. split; [reflexivity|]. cbn. auto.
Qed.

(** C3 (defect of the code).  A successful PRIMARY result of [execute_tool]
    always reports [retries = 0]: the retries happen inside the client's
    [invoke_tool], which reports none, and the orchestrator only counts
    attempts on which [invoke_tool] raises.  And when the server fails with
    5xx on every attempt, the call performs exactly the client's
    [max_retries] POSTs and is then handed out as a success, not a failure. *)
Theorem primary_success_reports_no_retries :
  (forall (tool : string) (params : value) (server_type : string)
          (o : Orchestrator.t) (w : World.t) (r : ExecutionResult),
      fst (fst (execute_tool tool params server_type o w)) = Ok r ->
      success r = true -> mode r = PRIMARY -> retries r = 0) /\
  (forall (tool : string) (params : value) (server_type : string)
          (o : Orchestrator.t) (w : World.t) (key : option string)
          (c1 : Client.t),
      current_mode o = PRIMARY ->
      1 <= max_retries (recovery_strategy o) ->
      Client.cache_stage tool params (truthy_str server_type)
        (enhanced_client o) w = Some (key, c1) ->
      (0 < Client.client_pool (enhanced_client o))%nat ->
      (forall n, Client.is_server_error (snd (net w n)) = true) ->
      exists r,
        fst (fst (execute_tool tool params server_type o w)) = Ok r /\
        success r = true /\ mode r = PRIMARY /\ retries r = 0 /\
        posts (snd (execute_tool tool params server_type o w))
          = (posts w + Z.to_nat (Client.max_retries (enhanced_client o)))%nat).
Proof.
  split.
  - intros tool params server_type o w r. unfold execute_tool.
    destruct (mode_eqb (current_mode o) PRIMARY
              || mode_eqb (current_mode o) RECOVERY).
    + pose proof (primary_loop_success_retries tool params server_type (clock w)
                    (Client.range (max_retries (recovery_strategy o))) 0 None o w)
        as Hzero. cbv zeta in Hzero.
      fold (_try_primary_execution tool params server_type o w) in Hzero.
      destruct (_try_primary_execution tool params server_type o w)
        as [[r1 o1] w1]. cbn [fst snd] in *.
      destruct (success r1) eqn:S.
      * intros [= <-] _ _. auto.
      * intros Hr _ Hm. apply fallback_stage_mode in Hr as (Hd & _).
        congruence.
    + intros Hr _ Hm. apply fallback_stage_mode in Hr as (Hd & _). congruence.
  - intros tool params server_type o w key c1 Hmode Hn Hstage Hpool Hnet.
    pose proof (invoke_tool_uncached _ _ _ _ _ _ _ Hstage) as Hcall.
    destruct (execute_tool_returned tool params server_type o w _ _ _
                (or_introl Hmode) Hn Hcall) as [Hr Hw].
    eexists. split; [exact Hr|]. cbn. repeat split.
    rewrite Hw, uncached_call_unfold.
    destruct (cache_stage_frame _ _ _ _ _ _ _ Hstage) as [(Hmr & Hp & _) _].
    destruct (loop_entry_setup tool c1) as (_ & Hp' & _).
    destruct (retry_loop_server_errors tool key (clock w)
                (Client.range (Client.max_retries c1)) (Client.loop_entry tool c1) w
                (Client.bump_execution (Client.metric_of c1 tool)))
      as (_ & Hposts & _); auto using loop_entry_metric; [lia|].
    cbv zeta in Hposts. rewrite Hposts, Hmr. unfold Client.range.
    rewrite length_seq. reflexivity.
Qed.

Lemma switch_mode_current m now o : current_mode (_switch_mode m now o) = m.
Proof.
  unfold _switch_mode. destruct (mode_eqb m (current_mode o)) eqn:E; cbn.
  - destruct m, (current_mode o); try discriminate; reflexivity.
  - reflexivity.
Qed.

Lemma switch_mode_handler m now o :
  fallback_handler (_switch_mode m now o) = fallback_handler o.
Proof. unfold _switch_mode. destruct (mode_eqb m (current_mode o)); reflexivity. Qed.

(** Below the threshold a failure callback only counts. *)
Lemma handle_failure_below server err now o :
  consecutive_errors o + 1 < error_threshold o ->
  let o' := _handle_failure server err now o in
  current_mode o' = current_mode o /\
  consecutive_errors o' = consecutive_errors o + 1 /\
  error_threshold o' = error_threshold o /\
  fallback_handler o' = fallback_handler o.
Proof.
  intros Hlt. cbv zeta. unfold _handle_failure; cbn.
  destruct (error_threshold o <=? consecutive_errors o + 1) eqn:L;
    [apply Z.leb_le in L; lia|]. cbn. auto.
Qed.

(** At the threshold it takes a PRIMARY orchestrator to the failover mode. *)
Lemma handle_failure_trips server err now o :
  error_threshold o <= consecutive_errors o + 1 ->
  current_mode o = PRIMARY ->
  current_mode (_handle_failure server err now o) = failover_mode o.
Proof.
  intros Hle Hm. unfold _handle_failure; cbn.
  destruct (error_threshold o <=? consecutive_errors o + 1) eqn:L;
    [|apply Z.leb_gt in L; lia].
  rewrite Hm; cbn. unfold _switch_mode, failover_mode; cbn. rewrite Hm.
  destruct (fallback_handler o); reflexivity.
Qed.

(** C4 (defect of the code).  Three failure callbacks in a row take a
    PRIMARY orchestrator to FALLBACK (with a handler) or DEGRADED
    (without).  But the way back is closed: [_test_primary_connection]
    calls [get_available_tools("primary")] on a method that takes no
    argument, so the probe answers [False] whatever the state of the
    primary path, [_attempt_recovery] always ends in the failover mode, and
    no fallback call of the orchestrator succeeds. *)
Theorem recovery_probe_never_succeeds :
  (forall (o : Orchestrator.t) (s1 s2 s3 e1 e2 e3 : string) (t1 t2 t3 : Z),
      current_mode o = PRIMARY -> consecutive_errors o = 0 ->
      error_threshold o = 3 ->
      current_mode
        (_handle_failure s3 e3 t3
           (_handle_failure s2 e2 t2 (_handle_failure s1 e1 t1 o)))
        = failover_mode o) /\
  (forall o : Orchestrator.t, _test_primary_connection o = false) /\
  (forall (now : Z) (o : Orchestrator.t),
      current_mode (_attempt_recovery now o) =
      if mode_eqb (current_mode o) PRIMARY then PRIMARY else failover_mode o) /\
  (forall (h : Fallback.t) (tool : string) (params : value) (n : Z)
          (w : World.t),
      success (_try_fallback_execution h tool params n w) = false).
Proof.
  split; [|split; [|split]].
  - intros o s1 s2 s3 e1 e2 e3 t1 t2 t3 Hm Hc Ht.
    destruct (handle_failure_below s1 e1 t1 o) as (M1 & C1 & T1 & F1); [lia|].
    destruct (handle_failure_below s2 e2 t2 (_handle_failure s1 e1 t1 o))
      as (M2 & C2 & T2 & F2); [lia|].
    rewrite handle_failure_trips; [| lia | congruence].
    unfold failover_mode. rewrite F2, F1. reflexivity.
  - intros o. unfold _test_primary_connection. reflexivity.
  - intros now o. unfold _attempt_recovery.
    destruct (mode_eqb (current_mode o) PRIMARY) eqn:M.
    + destruct (current_mode o); try discriminate; reflexivity.
    + replace (_test_primary_connection _) with false by reflexivity.
      rewrite switch_mode_current. unfold failover_mode.
      rewrite switch_mode_handler. reflexivity.
  - intros. reflexivity.
Qed.

(** C10.  [_try_primary_execution] turns any value [invoke_tool] returns
    into a success; [invoke_tool] answers a 4xx reply and an exhausted retry
    loop with an error dictionary instead of raising; so [execute_tool], in
    PRIMARY mode, hands out [success = True], [mode = PRIMARY] with such a
    dictionary as its payload. *)
Theorem error_dictionary_reported_as_success :
  (forall (tool : string) (params : value) (server_type : string)
          (o : Orchestrator.t) (w : World.t) (payload : dict)
          (c' : Client.t) (w' : World.t),
      1 <= max_retries (recovery_strategy o) ->
      Client.invoke_tool tool params (truthy_str server_type)
        (enhanced_client o) w = (Ok payload, c', w') ->
      _try_primary_execution tool params server_type o w
        = (primary_success payload (clock w' - clock w) 0, set_client c' o, w')) /\
  (forall (tool : string) (params : value) (server_type : string)
          (o : Orchestrator.t) (w : World.t) (key : option string)
          (c1 : Client.t) (elapsed code : Z) (text : string)
          (json : option value),
      current_mode o = PRIMARY ->
      1 <= max_retries (recovery_strategy o) ->
      Client.cache_stage tool params (truthy_str server_type)
        (enhanced_client o) w = Some (key, c1) ->
      (0 < Client.client_pool (enhanced_client o))%nat ->
      1 <= Client.max_retries (enhanced_client o) ->
      net w (posts w) = (elapsed, Response code text json) ->
      400 <= code < 500 ->
      let payload :=
        Client.error_dict ("HTTP " ++ pretty code ++ ": " ++ text)%string in
      status_is payload "error" = true /\
      fst (fst (Client.invoke_tool tool params (truthy_str server_type)
                  (enhanced_client o) w)) = Ok payload /\
      exists r,
        fst (fst (execute_tool tool params server_type o w)) = Ok r /\
        success r = true /\ mode r = PRIMARY /\ result r = Some payload) /\
  (forall (tool : string) (params : value) (server_type : string)
          (o : Orchestrator.t) (w : World.t) (key : option string)
          (c1 : Client.t),
      current_mode o = PRIMARY ->
      1 <= max_retries (recovery_strategy o) ->
      Client.cache_stage tool params (truthy_str server_type)
        (enhanced_client o) w = Some (key, c1) ->
      (0 < Client.client_pool (enhanced_client o))%nat ->
      (forall n, Client.is_server_error (snd (net w n)) = true) ->
      let payload :=
        Client.error_dict
          ("Failed after " ++ pretty (Client.max_retries (enhanced_client o))
             ++ " attempts")%string in
      status_is payload "error" = true /\
      fst (fst (Client.invoke_tool tool params (truthy_str server_type)
                  (enhanced_client o) w)) = Ok payload /\
      exists r,
        fst (fst (execute_tool tool params server_type o w)) = Ok r /\
        success r = true /\ mode r = PRIMARY /\ result r = Some payload).
Proof.
  split; [|split].
  - intros. apply try_primary_returned; assumption.
  - intros tool params server_type o w key c1 elapsed code text json
      Hmode Hn Hstage Hpool Hretries Hnet Hcode payload.
    pose proof (invoke_tool_uncached _ _ _ _ _ _ _ Hstage) as Hcall.
    destruct (cache_stage_frame _ _ _ _ _ _ _ Hstage) as [(Hmr & Hp & _) _].
    destruct (loop_entry_setup tool c1) as (_ & Hp' & _).
    assert (Hpayload : fst (fst (Client.uncached_call tool key c1 w)) = payload).
    { rewrite uncached_call_unfold.
      destruct (Client.range (Client.max_retries c1)) as [|a rest] eqn:R.
      - exfalso. apply (range_nonempty (Client.max_retries c1)); [lia|exact R].
      - cbn [Client.retry_loop].
        destruct (attempt_client_error tool key (clock w) a
                    (Client.loop_entry tool c1) w elapsed code text json)
          as (c' & w' & ->); try lia; auto. }
    split; [reflexivity|]. split; [rewrite Hcall, Hpayload; reflexivity|].
    destruct (execute_tool_returned tool params server_type o w _ _ _
                (or_introl Hmode) Hn Hcall) as [Hr _].
    eexists. split; [exact Hr|]. cbn. rewrite Hpayload. auto.
  - intros tool params server_type o w key c1 Hmode Hn Hstage Hpool Hnet payload.
    pose proof (invoke_tool_uncached _ _ _ _ _ _ _ Hstage) as Hcall.
    destruct (cache_stage_frame _ _ _ _ _ _ _ Hstage) as [(Hmr & Hp & _) _].
    destruct (loop_entry_setup tool c1) as (Hmr' & Hp' & _).
    assert (Hpayload : fst (fst (Client.uncached_call tool key c1 w)) = payload).
    { rewrite uncached_call_unfold.
      destruct (retry_loop_server_errors tool key (clock w)
                  (Client.range (Client.max_retries c1)) (Client.loop_entry tool c1) w
                  (Client.bump_execution (Client.metric_of c1 tool)))
        as (Hr & _); auto using loop_entry_metric; [lia|].
      cbv zeta in Hr. rewrite Hr, Hmr', Hmr. reflexivity. }
    split; [reflexivity|]. split; [rewrite Hcall, Hpayload; reflexivity|].
    destruct (execute_tool_returned tool params server_type o w _ _ _
                (or_introl Hmode) Hn Hcall) as [Hr _].
    eexists. split; [exact Hr|]. cbn. rewrite Hpayload. auto.
Qed.

Lemma last_100_length {A} (l : list A) : (length (last_100 l) <= 100)%nat.
Proof.
  unfold last_100. destruct (100 <? length l)%nat eqn:L.
  - rewrite length_drop. lia.
  - apply Nat.ltb_ge in L. exact L.
Qed.

Lemma last_100_last {A} (l : list A) (x : A) : last (last_100 (l ++ [x])) = Some x.
Proof.
  unfold last_100. destruct (100 <? length (l ++ [x]))%nat eqn:L;
    [|apply last_snoc].
  apply Nat.ltb_lt in L. rewrite length_app in *. cbn [length] in *.
  rewrite drop_app_le by lia. apply last_snoc.
Qed.

(** The mode-change log and the error log keep at most 100 entries after
    every append, the newest entry last; [_switch_mode] keeps the bound. *)
Theorem histories_are_bounded :
  forall (m : ExecutionMode) (server err : string) (now : Z)
         (o : Orchestrator.t),
    (length (mode_history (_record_mode_change m now o)) <= 100)%nat /\
    last (mode_history (_record_mode_change m now o)) = Some (now, m) /\
    ((length (mode_history o) <= 100)%nat ->
     (length (mode_history (_switch_mode m now o)) <= 100)%nat) /\
    (length (error_history (_handle_failure server err now o)) <= 100)%nat.
Proof.
  intros m server err now o. split; [|split; [|split]].
  - apply last_100_length.
  - apply last_100_last.
  - intros Hb. unfold _switch_mode. destruct (mode_eqb m (current_mode o)).
    + exact Hb.
    + apply last_100_length.
  - unfold _handle_failure. cbn.
    repeat match goal with
           | |- context [if ?b then _ else _] => destruct b
           end;
      unfold _switch_mode; cbn;
      repeat match goal with
             | |- context [if ?b then _ else _] => destruct b
             end; cbn; apply last_100_length.
Qed.

End OrchestratorFacts.

Section OrchestratorExamples.

Import World Orchestrator Examples.

(** C1 on the example orchestrators.  After three failure callbacks, with
    a handler, the mode is FALLBACK and a call for [list_products], a tool
    the handler supports, raises; so does a call in PRIMARY mode whose
    primary path is given no attempt; without a handler the call returns
    the DEGRADED result. *)
Lemma execute_tool_raises_with_handler_witness :
  current_mode (three_failures with_fallback) = FALLBACK /\
  Fallback.is_tool_supported (Fallback.init "db/app.db") "list_products" = true /\
  fst (fst (execute_tool "list_products" (VDict []) "primary"
              (three_failures with_fallback) healthy))
    = Raise (AttributeError "MCPFallbackHandler" "supports_tool") /\
  current_mode with_fallback_no_attempts = PRIMARY /\
  fst (fst (execute_tool "list_products" (VDict []) "primary"
              with_fallback_no_attempts healthy))
    = Raise (AttributeError "MCPFallbackHandler" "supports_tool") /\
  exists r,
    fst (fst (execute_tool "list_products" (VDict []) "primary"
                (three_failures without_fallback) healthy)) = Ok r /\
    (success r = false ->
     mode r = DEGRADED /\ result r = None /\
     error r = Some "All execution methods failed").
Proof.
  split; [reflexivity|]. split; [reflexivity|].
  split; [|split; [reflexivity|split]].
  - apply (proj1 execute_tool_raises_with_handler "list_products" (VDict [])
             "primary" (three_failures with_fallback) healthy
             (Fallback.init "db/app.db")); [reflexivity | left; reflexivity].
  - apply (proj1 execute_tool_raises_with_handler "list_products" (VDict [])
             "primary" with_fallback_no_attempts healthy
             (Fallback.init "db/app.db"));
      [reflexivity | right; right; reflexivity].
  - apply (proj2 execute_tool_raises_with_handler "list_products" (VDict [])
             "primary" (three_failures without_fallback) healthy).
    reflexivity.
Defined.

(** C3 on the example orchestrator: the server fails twice and then
    answers; the call takes three POSTs and reports [retries = 0], where
    the claim expects [max_retries - 1 = 2].  When the server fails every
    time the call takes three POSTs and is a success. *)
Lemma primary_success_reports_no_retries_witness :
  let run := execute_tool "list_products" (VDict []) "primary"
               with_fallback flaky in
  let lost := execute_tool "list_products" (VDict []) "primary"
                with_fallback unavailable in
  (exists r, fst (fst run) = Ok r /\ success r = true /\ mode r = PRIMARY /\
             posts (snd run) = 3%nat /\ retries r = 0) /\
  (exists r, fst (fst lost) = Ok r /\ success r = true /\ mode r = PRIMARY /\
             retries r = 0 /\ posts (snd lost) = (0 + 3)%nat).
Proof.
  intros run lost. split.
  - eexists. split; [vm_compute; reflexivity|].
    split; [reflexivity|]. split; [reflexivity|]. split; [reflexivity|].
    apply (proj1 primary_success_reports_no_retries "list_products" (VDict [])
             "primary" with_fallback flaky); reflexivity.
  - apply (proj2 primary_success_reports_no_retries "list_products" (VDict [])
             "primary" with_fallback unavailable
             (Some "list_products:{}") client);
      [reflexivity | cbn; lia | reflexivity | cbn; lia | intros n; reflexivity].
Defined.

(** C4 on the example orchestrators: three failures give FALLBACK with a
    handler and DEGRADED without; a recovery attempt made long after the
    recovery window, with the client's tools loaded, ends in FALLBACK. *)
Lemma recovery_probe_never_succeeds_witness :
  current_mode (three_failures with_fallback) = FALLBACK /\
  current_mode (three_failures without_fallback) = DEGRADED /\
  Client.get_available_tools (enhanced_client with_fallback) []
    = Ok ["list_products"] /\
  current_mode (_attempt_recovery 400000000 (three_failures with_fallback))
    = FALLBACK.
Proof.
  split; [|split; [|split]].
  - exact (proj1 recovery_probe_never_succeeds with_fallback
             _ _ _ _ _ _ 1 2 3 eq_refl eq_refl eq_refl).
  - exact (proj1 recovery_probe_never_succeeds without_fallback
             _ _ _ _ _ _ 1 2 3 eq_refl eq_refl eq_refl).
  - reflexivity.
  - exact (proj1 (proj2 (proj2 recovery_probe_never_succeeds)) 400000000
             (three_failures with_fallback)).
Defined.

(** C10 on the example orchestrator: a 404 reply and three 503 replies both
    come back as [success = True], [mode = PRIMARY]. *)
Lemma error_dictionary_reported_as_success_witness :
  (exists r,
     fst (fst (execute_tool "list_products" (VDict []) "primary"
                 without_fallback rejecting)) = Ok r /\
     success r = true /\ mode r = PRIMARY /\
     result r = Some (Client.error_dict "HTTP 404: Not Found")) /\
  (exists r,
     fst (fst (execute_tool "list_products" (VDict []) "primary"
                 without_fallback unavailable)) = Ok r /\
     success r = true /\ mode r = PRIMARY /\
     result r = Some (Client.error_dict "Failed after 3 attempts")).
Proof.
  split.
  - apply (proj1 (proj2 error_dictionary_reported_as_success) "list_products"
             (VDict []) "primary" without_fallback rejecting
             (Some "list_products:{}") client 5 404 "Not Found" None);
      [reflexivity | cbn; lia | reflexivity | cbn; lia | cbn; lia
      | reflexivity | lia].
  - apply (proj2 (proj2 error_dictionary_reported_as_success) "list_products"
             (VDict []) "primary" without_fallback unavailable
             (Some "list_products:{}") client);
      [reflexivity | cbn; lia | reflexivity | cbn; lia | intros n; reflexivity].
Defined.

End OrchestratorExamples.

(** ** The batch executor *)

Section BatchFacts.

Import Batch.

Variable C : Type.
Variable invoke_tool : string -> value -> C -> Py.result dict * C.

(** Counting the failures of a list that still holds a [None] raises. *)
Lemma count_failures_none results :
  None ∈ results ->
  count_failures results = Raise (AttributeError "NoneType" "get").
Proof.
  induction results as [|r rest IH]; intros Hin.
  - inversion Hin.
  - cbn [count_failures]. destruct r as [d|]; [|reflexivity].
    assert (Hrest : None ∈ rest)
      by (inversion Hin; subst; try discriminate; assumption).
    cbn [slot_is_error]. rewrite (IH Hrest). reflexivity.
Qed.

(** Under [stop_on_error], a failing call leaves its task raising. *)
Lemma failing_task_raises tool_call c :
  call_fails C invoke_tool tool_call c = true ->
  snd (fst (execute_with_semaphore C invoke_tool true tool_call c)) = true.
Proof.
  unfold call_fails, execute_with_semaphore.
  destruct (invoke_tool (tool_name tool_call) (params_or_empty tool_call) c)
    as [[d|e] c']; cbn; [intros ->|]; reflexivity.
Qed.

(** A task outside the schedule has not written its slot. *)
Lemma gather_keeps_pending stop tool_calls pending :
  forall schedule results c,
    pending ∉ schedule ->
    fst (fst (gather C invoke_tool stop tool_calls schedule results c))
      !! pending = results !! pending.
Proof.
  induction schedule as [|index rest IH]; intros results c Hout;
    cbn [gather].
  - reflexivity.
  - apply not_elem_of_cons in Hout as [Hne Hout].
    destruct (tool_calls !! index) as [tc|]; [|apply IH; exact Hout].
    destruct (execute_with_semaphore C invoke_tool stop tc c)
      as [[slot raised] c'].
    specialize (IH (<[index := Some slot]> results) c' Hout).
    destruct (gather C invoke_tool stop tool_calls rest
                (<[index := Some slot]> results) c') as [[results' raised'] c''].
    cbn [fst] in *. rewrite IH. apply list_lookup_insert_ne. congruence.
Qed.

(** C8 (defect of the code).  In parallel mode with [stop_on_error], let
    the task that finishes first fail, and let task [pending] still be
    suspended in its call (it is not among the tasks that have finished)
    when [_execute_parallel] runs again.  Then [_execute_parallel] returns
    the list with [None] in the slot of [pending] (it has no fill loop,
    unlike [_execute_sequential]), and [execute_batch] raises
    [AttributeError] on [r.get] while counting failures: no list of N
    results is returned. *)
Theorem parallel_stop_on_error_raises :
  forall (b : Batch.t) (tool_calls : list ToolCall) (index : nat)
         (tool_call : ToolCall) (schedule : list nat) (pending : nat)
         (elapsed_ms : Z) (c : C),
    0 < max_concurrent b ->
    tool_calls !! index = Some tool_call ->
    call_fails C invoke_tool tool_call c = true ->
    (pending < length tool_calls)%nat ->
    pending ∉ index :: schedule ->
    fst (fst (execute_batch C invoke_tool b tool_calls true true
                (index :: schedule) elapsed_ms c))
      = Raised (AttributeError "NoneType" "get").
Proof.
  intros b tool_calls index tool_call schedule pending elapsed_ms c
    Hmax Hcall Hfail Hlt Hpending.
  apply not_elem_of_cons in Hpending as [Hne Hpending].
  unfold execute_batch, _execute_parallel. cbn [max_concurrent].
  replace (max_concurrent b <? 0) with false by (symmetry; apply Z.ltb_ge; lia).
  replace (max_concurrent b =? 0) with false by (symmetry; apply Z.eqb_neq; lia).
  cbn [andb gather]. rewrite Hcall.
  pose proof (failing_task_raises tool_call c Hfail) as Hraise.
  destruct (execute_with_semaphore C invoke_tool true tool_call c)
    as [[slot raised] c']. cbn [fst snd] in Hraise. subst raised.
  pose proof (gather_keeps_pending true tool_calls pending schedule
                (<[index := Some slot]>
                   (replicate (length tool_calls) (@None dict))) c' Hpending)
    as Hkeep.
  destruct (gather C invoke_tool true tool_calls schedule
              (<[index := Some slot]>
                 (replicate (length tool_calls) (@None dict))) c')
    as [[results raised] c'']. cbn [fst snd orb] in *.
  assert (Hnone : None ∈ results).
  { apply (list_elem_of_lookup_2 _ pending). rewrite Hkeep.
    rewrite list_lookup_insert_ne by congruence.
    apply lookup_replicate_2. exact Hlt. }
  rewrite (count_failures_none _ Hnone). reflexivity.
Qed.

(** *** What the two modes do deliver *)












End BatchFacts.

Section BatchExamples.

Import Batch.

(** C8 on a batch of two calls, the first of which fails.  When it is
    the only task to have finished, [execute_batch] raises instead of
    returning two results.  When both tasks have finished, in either order,
    the list is returned, but position 1 holds the second call's own result,
    not a "skipped" one.  The sequential mode returns the failure and the
    skipped result. *)
Lemma parallel_stop_on_error_raises_witness :
  fst (fst (execute_batch unit Examples.picky_client (Batch.init 5)
              [mkCall "missing_tool" None; mkCall "list_products" None]
              true true [0%nat] 12 tt))
    = Raised (AttributeError "NoneType" "get") /\
  fst (fst (execute_batch unit Examples.picky_client (Batch.init 5)
              [mkCall "missing_tool" None; mkCall "list_products" None]
              true true [0%nat; 1%nat] 12 tt))
    = Returned [Some (error_result "Tool missing_tool failed" "missing_tool");
                Some (Client.success_dict (VList []))] /\
  fst (fst (execute_batch unit Examples.picky_client (Batch.init 5)
              [mkCall "missing_tool" None; mkCall "list_products" None]
              true true [1%nat; 0%nat] 12 tt))
    = Returned [Some (error_result "Tool missing_tool failed" "missing_tool");
                Some (Client.success_dict (VList []))] /\
  fst (fst (execute_batch unit Examples.picky_client (Batch.init 5)
              [mkCall "missing_tool" None; mkCall "list_products" None]
              false true [] 12 tt))
    = Returned [Some (Client.error_dict "HTTP 404: Not Found");
                Some (skipped_result "list_products")].
Proof.
  split.
  - apply (parallel_stop_on_error_raises unit Examples.picky_client (Batch.init 5)
             [mkCall "missing_tool" None; mkCall "list_products" None]
             0%nat (mkCall "missing_tool" None) [] 1%nat 12 tt);
      [reflexivity | reflexivity | reflexivity | cbn; lia |].
    apply not_elem_of_cons. split; [lia | apply not_elem_of_nil].
  - repeat split; reflexivity.
Defined.



End BatchExamples.

(** * Further properties of the client *)

Section ReplyParserFacts.

Import World Client.
Context `{JsonLib}.



(** An attempt answered with status 200 and a body the parser accepts
    returns the parsed payload and records the success. *)
Lemma attempt_success tool key start attempt c w m elapsed text doc parsed :
  (0 < client_pool c)%nat ->
  net w (posts w) = (elapsed, Response 200 text (Some doc)) ->
  _parse_mcp_result doc = Ok parsed ->
  metrics c !! tool = Some m ->
  exists c' w',
    attempt_body tool key start attempt c w = Return parsed c' w' /\
    posts w' = S (posts w) /\ clock w' = clock w + elapsed /\
    metrics c' !! tool =
      Some (record_success (clock w' - start) (clock w') m) /\
    forall k, key = Some k -> cache c' !! k = Some (parsed, clock w').
Proof.
  intros Hpool Hnet Hparse Hm. unfold attempt_body, _get_client, post.
  destruct (client_pool c) as [|p] eqn:P; [lia|]. rewrite Hnet.
  cbn [Z.eqb Pos.eqb]. rewrite Hparse. eexists _, _.
  split; [reflexivity|]. cbn [posts clock]. repeat split.
  - destruct key as [k|]; cbn; rewrite lookup_alter_eq, Hm; reflexivity.
  - intros k ->. cbn. apply lookup_insert_eq.
Qed.

(** A reply with status 200 whose JSON body is an object without a
    ["result"] key, a JSON-RPC error envelope for one, ends the call at
    once: [invoke_tool] returns the whole body under ["results"] with status
    ["success"], records one execution and one success, and (with caching
    on) stores the payload in the cache. *)
Theorem error_envelope_counted_as_success :
  forall (tool : string) (params : value) (use_cache : bool) (c : Client.t)
         (w : World.t) (key : option string) (c1 : Client.t)
         (elapsed : Z) (text : string) (body : dict),
    cache_stage tool params use_cache c w = Some (key, c1) ->
    (0 < client_pool c)%nat -> 1 <= max_retries c ->
    net w (posts w) = (elapsed, Response 200 text (Some (VDict body))) ->
    dict_has body "result" = false ->
    let out := invoke_tool tool params use_cache c w in
    let c' := snd (fst out) in
    fst (fst out) = Ok (success_dict (VDict body)) /\
    posts (snd out) = S (posts w) /\
    execution_count (metric_of c' tool) = execution_count (metric_of c tool) + 1 /\
    success_count (metric_of c' tool) = success_count (metric_of c tool) + 1 /\
    failure_count (metric_of c' tool) = failure_count (metric_of c tool) /\
    forall k, key = Some k ->
      cache c' !! k = Some (success_dict (VDict body), clock w + elapsed).
Proof.
  intros tool params use_cache c w key c1 elapsed text body
         Hstage Hpool Hretries Hnet Hbody out c'.
  unfold c', out. rewrite (invoke_tool_uncached _ _ _ _ _ _ _ Hstage).
  cbn [fst snd]. rewrite uncached_call_unfold.
  destruct (cache_stage_frame _ _ _ _ _ _ _ Hstage) as [(Hmr & Hp & _) _].
  destruct (loop_entry_setup tool c1) as (Hmr' & Hp' & _).
  rewrite <- (metric_of_stage _ _ _ _ _ _ _ tool Hstage).
  pose proof (loop_entry_metric tool c1) as Hentry.
  unfold range. destruct (Z.to_nat (max_retries c1)) as [|n] eqn:En; [lia|].
  cbn [seq retry_loop].
  assert (Hparse : _parse_mcp_result (VDict body) = Ok (success_dict (VDict body))).
  { unfold _parse_mcp_result, has_result_key. rewrite Hbody. reflexivity. }
  destruct (attempt_success tool key (clock w) 0%nat (loop_entry tool c1) w
              _ elapsed text _ _ ltac:(lia) Hnet Hparse Hentry)
    as (c2 & w2 & -> & Hposts & Hclock & Hm2 & Hcache).
  cbn [fst snd]. rewrite (metric_of_lookup _ _ _ Hm2).
  repeat split; try assumption.
  intros k Hk. rewrite <- Hclock. apply Hcache. exact Hk.
Qed.

End ReplyParserFacts.

(** ** The handle pool *)

Section PoolFacts.

Import World Client.
Context `{JsonLib}.

Ltac pool_case :=
  match goal with
  | |- context [match ?x with _ => _ end] =>
      lazymatch x with
      | context [match _ with _ => _ end] => fail
      | _ => destruct x eqn:?
      end
  end.

(** Every attempt that finds a handle moves [pool_index] to the next one. *)
Lemma attempt_body_pool tool key start attempt c w :
  (0 < client_pool c)%nat ->
  pool_index (end_client (attempt_body tool key start attempt c w)) =
  ((pool_index c + 1) mod client_pool c)%nat.
Proof.
  intros Hpool. unfold attempt_body, unexpected_error, _get_client, post.
  repeat (pool_case; cbn); try reflexivity; lia.
Qed.

Lemma retry_loop_pool tool key start attempts : forall c w,
  (pool_index c < client_pool c)%nat ->
  let out := retry_loop tool key start attempts c w in
  pool_index (snd (fst out)) =
  ((pool_index c + (posts (snd out) - posts w)) mod client_pool c)%nat.
Proof.
  induction attempts as [|a rest IH]; intros c w Hidx; cbn.
  - rewrite Nat.sub_diag, Nat.add_0_r, Nat.mod_small by exact Hidx. reflexivity.
  - assert (Hpool : (0 < client_pool c)%nat) by lia.
    pose proof (attempt_body_pool tool key start a c w Hpool) as Hi.
    pose proof (attempt_body_posts tool key start a c w Hpool) as Hp.
    pose proof (attempt_body_frame tool key start a c w) as [(_ & Hn & _) _].
    cbv zeta in Hn.
    destruct (attempt_body tool key start a c w) as [c1 w1|r c1 w1];
      cbn [end_client end_world fst snd] in *.
    + assert (Hidx1 : (pool_index c1 < client_pool c1)%nat).
      { rewrite Hi, Hn. apply Nat.mod_upper_bound. lia. }
      pose proof (IH c1 w1 Hidx1) as Hrec. cbv zeta in Hrec.
      destruct (retry_loop_frame tool key start rest c1 w1) as [_ [_ Hle]].
      cbv zeta in Hle. rewrite Hrec, Hi, Hn, Hp.
      rewrite Nat.Div0.add_mod_idemp_l. f_equal. lia.
    + rewrite Hi, Hp. f_equal. lia.
Qed.

(** The pool is used round robin across calls: [invoke_tool] moves
    [pool_index] forward by one handle for every POST it performs, modulo
    the size of the pool, and leaves it a valid index. *)
Theorem pool_index_follows_posts :
  forall (tool : string) (params : value) (use_cache : bool) (c : Client.t)
         (w : World.t),
    (pool_index c < client_pool c)%nat ->
    let out := invoke_tool tool params use_cache c w in
    let c' := snd (fst out) in
    pool_index c' =
      ((pool_index c + (posts (snd out) - posts w)) mod client_pool c)%nat /\
    (pool_index c' < client_pool c')%nat.
Proof.
  intros tool params use_cache c w Hidx out c'.
  assert (Hmain : pool_index c' =
    ((pool_index c + (posts (snd out) - posts w)) mod client_pool c)%nat /\
    client_pool c' = client_pool c).
  { unfold c', out.
    destruct (cache_stage tool params use_cache c w) as [[key c1]|] eqn:Hs.
    - rewrite (invoke_tool_uncached _ _ _ _ _ _ _ Hs). cbn [fst snd].
      rewrite uncached_call_unfold.
      destruct (cache_stage_frame _ _ _ _ _ _ _ Hs) as [(_ & Hp & _) _].
      destruct (loop_entry_setup tool c1) as (_ & Hp' & _).
      assert (Hi1 : pool_index c1 = pool_index c).
      { revert Hs. unfold cache_stage, _get_cached_result.
        destruct use_cache; [|intros [= _ <-]; reflexivity].
        destruct (_get_cache_key tool params) as [k|e]; [|discriminate].
        destruct (cache c !! k) as [[res ts]|]; [|intros [= _ <-]; reflexivity].
        destruct (clock w - ts <? cache_ttl c); [discriminate|].
        intros [= _ <-]. reflexivity. }
      assert (Hi2 : pool_index (loop_entry tool c1) = pool_index c1).
      { unfold loop_entry. destruct (metrics c1 !! tool); reflexivity. }
      pose proof (retry_loop_pool tool key (clock w) (range (max_retries c1))
                    (loop_entry tool c1) w) as Hloop.
      cbv zeta in Hloop. rewrite Hloop by lia.
      destruct (retry_loop_frame tool key (clock w) (range (max_retries c1))
                  (loop_entry tool c1) w) as [(_ & Hp2 & _) _].
      cbv zeta in Hp2. split; congruence.
    - assert (Hsame : invoke_tool tool params use_cache c w =
                      (fst (fst (invoke_tool tool params use_cache c w)), c, w)).
      { revert Hs. unfold cache_stage, invoke_tool, _get_cached_result.
        destruct use_cache; [|discriminate].
        destruct (_get_cache_key tool params) as [k|e]; [|reflexivity].
        destruct (cache c !! k) as [[res ts]|]; [|discriminate].
        destruct (clock w - ts <? cache_ttl c); [reflexivity|discriminate]. }
      rewrite Hsame. cbn [fst snd].
      rewrite Nat.sub_diag, Nat.add_0_r, Nat.mod_small by exact Hidx. auto. }
  destruct Hmain as [Hi Hp]. split; [exact Hi|].
  rewrite Hi, Hp. apply Nat.mod_upper_bound. lia.
Qed.

End PoolFacts.

Section PoolExamples.

Import World Client Examples.

Lemma pool_index_follows_posts_witness :
  (pool_index client < client_pool client)%nat /\
  pool_index (snd (fst (invoke_tool "list_products" (VDict []) false client
                          flaky))) = 3%nat.
Proof.
  split; [vm_compute; lia|].
  destruct (pool_index_follows_posts "list_products" (VDict []) false client
              flaky) as [Hi _].
  - vm_compute; lia.
  - rewrite Hi. vm_compute. reflexivity.
Defined.

End PoolExamples.

Section ReplyExamplesFacts.

Import World Client Examples ReplyExamples.


Lemma error_envelope_counted_as_success_witness :
  cache_stage "list_products" (VDict []) true client enveloping =
    Some (Some "list_products:{}", client) /\
  fst (fst (invoke_tool "list_products" (VDict []) true client enveloping)) =
    Ok (success_dict (VDict error_envelope)).
Proof.
  split; [reflexivity|].
  apply (error_envelope_counted_as_success "list_products" (VDict []) true
           client enveloping (Some "list_products:{}") client 5 ""
           error_envelope).
  - reflexivity.
  - vm_compute; lia.
  - vm_compute; discriminate.
  - reflexivity.
  - reflexivity.
Defined.

End ReplyExamplesFacts.

(** * The parameter validator *)

Section ValidatorFacts.

Import Validator.
Context `{Builtins}.

Lemma dict_get_In (d : dict) k v : dict_get d k = Some v -> In (k, v) d.
Proof.
  induction d as [|[k' v'] rest IH]; cbn; [discriminate|].
  destruct (String.eqb k' k) eqn:E.
  - apply String.eqb_eq in E. intros [= <-]. left. congruence.
  - auto.
Qed.

Lemma dict_get_None (d : dict) k : dict_get d k = None <-> ~ In k (map fst d).
Proof.
  induction d as [|[k' v'] rest IH]; cbn; [tauto|].
  destruct (String.eqb k' k) eqn:E.
  - apply String.eqb_eq in E. split; [discriminate|]. intros Hn. tauto.
  - apply String.eqb_neq in E. rewrite IH. tauto.
Qed.

Lemma dict_has_In (d : dict) k : dict_has d k = true <-> In k (map fst d).
Proof.
  unfold dict_has. destruct (dict_get d k) as [v|] eqn:E.
  - split; [|reflexivity]. intros _.
    apply dict_get_In in E. apply (in_map fst) in E. exact E.
  - apply dict_get_None in E. split; [discriminate | tauto].
Qed.

Lemma dict_put_fresh (d : dict) k v :
  ~ In k (map fst d) -> dict_put d k v = d ++ [(k, v)].
Proof.
  induction d as [|[k' v'] rest IH]; cbn; [reflexivity|]. intros Hn.
  destruct (String.eqb k' k) eqn:E.
  - apply String.eqb_eq in E. tauto.
  - rewrite IH by tauto. reflexivity.
Qed.

Lemma dict_get_map (g : string -> value) names k :
  dict_get (map (fun p => (p, g p)) names) k =
  if existsb (String.eqb k) names then Some (g k) else None.
Proof.
  induction names as [|n rest IH]; cbn; [reflexivity|].
  rewrite (String.eqb_sym k n). destruct (String.eqb n k) eqn:E; cbn.
  - apply String.eqb_eq in E. subst. reflexivity.
  - exact IH.
Qed.

Lemma existsb_eqb_In k (names : list string) :
  existsb (String.eqb k) names = true <-> In k names.
Proof.
  rewrite existsb_exists. split.
  - intros (x & Hin & E). apply String.eqb_eq in E. subst. exact Hin.
  - intros Hin. exists k. split; [exact Hin | apply String.eqb_refl].
Qed.

Lemma NoDup_app_disjoint (l1 l2 : list string) :
  List.NoDup (l1 ++ l2) -> forall a, In a l1 -> ~ In a l2.
Proof.
  induction l1 as [|x rest IH]; cbn; [tauto|].
  intros Hnd a [->|Hin] Ha.
  - apply List.NoDup_cons_iff in Hnd as [Hx _]. apply Hx.
    apply in_or_app. right. exact Ha.
  - apply List.NoDup_cons_iff in Hnd as [_ Hrest]. exact (IH Hrest a Hin Ha).
Qed.

(** A dictionary with distinct keys is rebuilt by reading it key by key. *)
Lemma dict_rebuild (d : dict) :
  List.NoDup (map fst d) ->
  map (fun p => (p, default VNone (dict_get d p))) (map fst d) = d.
Proof.
  induction d as [|[k v] rest IH]; cbn; [reflexivity|].
  intros Hnd. apply List.NoDup_cons_iff in Hnd as [Hk Hrest].
  rewrite String.eqb_refl. cbn. f_equal.
  rewrite <- (IH Hrest) at 2. apply map_ext_in. intros p Hp.
  destruct (String.eqb k p) eqn:E; [|reflexivity].
  apply String.eqb_eq in E. subst. tauto.
Qed.

(** *** The loops, in closed form *)

Lemma take_required_present params names : forall acc out,
  take_required params names acc = inr out ->
  Forall (fun p => dict_has params p = true) names.
Proof.
  induction names as [|p rest IH]; intros acc out; cbn; [constructor|].
  unfold dict_has. destruct (dict_get params p) as [v|] eqn:E; [|discriminate].
  intros Hrest. constructor.
  - rewrite E. reflexivity.
  - eapply IH. exact Hrest.
Qed.

Lemma take_required_closed params names : forall acc,
  List.NoDup (map fst acc ++ names) ->
  Forall (fun p => dict_has params p = true) names ->
  take_required params names acc =
  inr (acc ++ map (fun p => (p, default VNone (dict_get params p))) names).
Proof.
  induction names as [|p rest IH]; intros acc Hnd Hall; cbn.
  - rewrite app_nil_r. reflexivity.
  - inversion Hall as [|? ? Hp Hrest]; subst. unfold dict_has in Hp.
    destruct (dict_get params p) as [v|] eqn:E; [|discriminate]. cbn.
    assert (Hfresh : ~ In p (map fst acc)).
    { intros Hin. apply List.NoDup_remove_2 in Hnd. apply Hnd.
      apply in_or_app. left. exact Hin. }
    rewrite (dict_put_fresh acc p v Hfresh), IH.
    + rewrite <- app_assoc. reflexivity.
    + rewrite map_app, <- app_assoc. exact Hnd.
    + exact Hrest.
Qed.

Lemma take_required_missing params before p after : forall acc,
  Forall (fun q => dict_has params q = true) before ->
  dict_has params p = false ->
  take_required params (before ++ p :: after) acc = inl p.
Proof.
  induction before as [|q rest IH]; intros acc Hall Hp; cbn.
  - unfold dict_has in Hp. destruct (dict_get params p); [discriminate|].
    reflexivity.
  - inversion Hall as [|? ? Hq Hrest]; subst. unfold dict_has in Hq.
    destruct (dict_get params q); [|discriminate]. apply IH; assumption.
Qed.

Lemma take_optional_closed params dflt names : forall acc,
  List.NoDup (map fst acc ++ names) ->
  take_optional params dflt names acc =
  acc ++ map (fun p => (p, default VNone (given params dflt p)))
           (List.filter (fun p => dict_has params p || dict_has dflt p) names).
Proof.
  induction names as [|p rest IH]; intros acc Hnd; cbn.
  - rewrite app_nil_r. reflexivity.
  - assert (Hfresh : ~ In p (map fst acc)).
    { intros Hin. apply List.NoDup_remove_2 in Hnd. apply Hnd.
      apply in_or_app. left. exact Hin. }
    assert (Hnd1 : forall v, List.NoDup (map fst (acc ++ [(p, v)]) ++ rest)).
    { intros v. rewrite map_app, <- app_assoc. exact Hnd. }
    unfold dict_has.
    destruct (dict_get params p) as [v|] eqn:E; cbn.
    + rewrite (dict_put_fresh acc p v Hfresh), (IH _ (Hnd1 v)).
      rewrite <- app_assoc. cbn. do 3 f_equal. unfold given. rewrite E.
      reflexivity.
    + destruct (dict_get dflt p) as [v|] eqn:D; cbn.
      * rewrite (dict_put_fresh acc p v Hfresh), (IH _ (Hnd1 v)).
        rewrite <- app_assoc. cbn. do 3 f_equal. unfold given. rewrite E, D.
        reflexivity.
      * apply IH. apply List.NoDup_remove_1 in Hnd. exact Hnd.
Qed.

Lemma convert_instance ty v v' : convert ty v = Ok v' -> isinstance v' ty = true.
Proof.
  destruct ty; cbn.
  - destruct v as [|b|n|s|l|d]; try discriminate; try (intros [= <-]; reflexivity).
    destruct (int_of_str s); [|discriminate]. intros [= <-]. reflexivity.
  - intros [= <-]. reflexivity.
Qed.

Lemma check_types_inr tys items : forall out,
  check_types tys items = inr out ->
  Forall2 (fun kv kv' => fst kv' = fst kv /\
                         converted tys (fst kv) (snd kv) (snd kv')) items out.
Proof.
  induction items as [|[k v] rest IH]; intros out; cbn.
  - intros [= <-]. constructor.
  - unfold converted. cbn [fst snd].
    destruct (assoc tys k) as [ty|] eqn:T.
    + destruct (isinstance v ty) eqn:I.
      * destruct (check_types tys rest) as [f|rest'] eqn:R; [discriminate|].
        intros [= <-]. constructor; [|apply IH; reflexivity].
        cbn. rewrite T, I. auto.
      * destruct (convert ty v) as [v'|e] eqn:C; [|discriminate].
        destruct (check_types tys rest) as [f|rest'] eqn:R; [discriminate|].
        intros [= <-]. constructor; [|apply IH; reflexivity].
        cbn. rewrite T, I. auto.
    + destruct (check_types tys rest) as [f|rest'] eqn:R; [discriminate|].
      intros [= <-]. constructor; [|apply IH; reflexivity].
      cbn. rewrite T. auto.
Qed.

Lemma check_types_fixed tys items :
  (forall k v ty, In (k, v) items -> assoc tys k = Some ty ->
                  isinstance v ty = true) ->
  check_types tys items = inr items.
Proof.
  induction items as [|[k v] rest IH]; intros Hall; cbn; [reflexivity|].
  rewrite IH by (intros k' v' ty Hin; apply Hall; right; exact Hin).
  destruct (assoc tys k) as [ty|] eqn:T; [|reflexivity].
  rewrite (Hall k v ty (or_introl eq_refl) T). reflexivity.
Qed.

Lemma converted_keys tys items out :
  Forall2 (fun kv kv' => fst kv' = fst kv /\
                         converted tys (fst kv) (snd kv) (snd kv')) items out ->
  map fst out = map fst items.
Proof.
  induction 1 as [|[k v] [k' v'] rest rest' [Hk _] _ IH]; cbn in *;
    [reflexivity | congruence].
Qed.

Lemma converted_get tys items out k v' :
  Forall2 (fun kv kv' => fst kv' = fst kv /\
                         converted tys (fst kv) (snd kv) (snd kv')) items out ->
  dict_get out k = Some v' ->
  exists v, dict_get items k = Some v /\ converted tys k v v'.
Proof.
  induction 1 as [|[k0 v0] [k1 v1] rest rest' [Hk Hc] _ IH]; cbn in *;
    [discriminate|]. subst k1.
  destruct (String.eqb k0 k) eqn:E.
  - apply String.eqb_eq in E. subst k0. intros [= <-]. eauto.
  - exact IH.
Qed.

Lemma run_validators_pass vs processed :
  run_validators vs processed = None ->
  forall k validator v,
    In (k, validator) vs -> dict_get processed k = Some v ->
    validator v = Ok true.
Proof.
  induction vs as [|[k0 f0] rest IH]; cbn; [tauto|].
  intros Hrun k f v [[= -> ->]|Hin] Hget.
  - rewrite Hget in Hrun. destruct (f v) as [[|]|e]; try discriminate.
    reflexivity.
  - destruct (dict_get processed k0) as [v0|]; [|eauto].
    destruct (f0 v0) as [[|]|e]; try discriminate. eauto.
Qed.

(** The schemas name no parameter twice. *)
Lemma schemas_distinct tool schema :
  assoc tool_schemas tool = Some schema ->
  List.NoDup (required schema ++ optional schema).
Proof.
  unfold tool_schemas. cbn [assoc].
  repeat (destruct (String.eqb _ tool);
          [intros [= <-]; cbn;
           repeat (apply List.NoDup_cons; [cbn; intuition discriminate|]);
           apply List.NoDup_nil|]).
  discriminate.
Qed.

(** What an accepted call went through: the three loops, in closed form. *)
Lemma accepted_run tool params schema out :
  assoc tool_schemas tool = Some schema ->
  validate_tool_params tool params = (true, None, out) ->
  let items := map (fun p => (p, default VNone (given params (defaults schema) p)))
                   (expected_names schema params) in
  List.NoDup (expected_names schema params) /\
  (forall p, In p (expected_names schema params) ->
             given params (defaults schema) p <> None) /\
  check_types (types schema) items = inr out /\
  run_validators (validators schema) out = None.
Proof.
  intros Hs. unfold validate_tool_params. rewrite Hs.
  pose proof (schemas_distinct tool schema Hs) as Hnd.
  destruct (take_required params (required schema) []) as [p|req] eqn:R;
    [discriminate|].
  pose proof (take_required_present _ _ _ _ R) as Hpresent.
  rewrite take_required_closed in R by (cbn; eauto using List.NoDup_app_remove_r).
  cbn [app] in R. injection R as <-.
  rewrite take_optional_closed by (rewrite map_map; cbn; rewrite map_id; exact Hnd).
  match goal with
  | |- context [check_types _ ?l] => set (processed := l)
  end.
  intros Hrest.
  set (items := map (fun p => (p, default VNone (given params (defaults schema) p)))
                    (expected_names schema params)).
  assert (Hitems : processed = items).
  { unfold processed, items, expected_names. rewrite map_app. f_equal.
    apply map_ext_in. intros p Hp. unfold given.
    rewrite List.Forall_forall in Hpresent. specialize (Hpresent p Hp).
    unfold dict_has in Hpresent. destruct (dict_get params p); [reflexivity|].
    discriminate. }
  rewrite Hitems in Hrest.
  split; [|split].
  - unfold expected_names. apply List.NoDup_app.
    + eapply List.NoDup_app_remove_r. exact Hnd.
    + apply List.NoDup_filter. eapply List.NoDup_app_remove_l. exact Hnd.
    + intros x Hx Hin. apply filter_In in Hin as [Hin _].
      exact (NoDup_app_disjoint _ _ Hnd x Hx Hin).
  - intros p Hp. unfold expected_names in Hp. apply in_app_or in Hp as [Hp|Hp].
    + rewrite List.Forall_forall in Hpresent. specialize (Hpresent p Hp).
      unfold given, dict_has in *. destruct (dict_get params p); [discriminate|].
      discriminate.
    + apply filter_In in Hp as [_ Hp]. unfold given, dict_has in *.
      destruct (dict_get params p); [discriminate|].
      destruct (dict_get (defaults schema) p); [discriminate|]. discriminate.
  - destruct (check_types (types schema) items) as [[k ty]|checked];
      [discriminate|].
    destruct (run_validators (validators schema) checked) eqn:V; [discriminate|].
    injection Hrest as <-. auto.
Qed.

Lemma converted_In tys items out k v' :
  Forall2 (fun kv kv' => fst kv' = fst kv /\
                         converted tys (fst kv) (snd kv) (snd kv')) items out ->
  In (k, v') out ->
  exists v, In (k, v) items /\ converted tys k v v'.
Proof.
  induction 1 as [|[k0 v0] [k1 v1] rest rest' [Hk Hc] _ IH]; cbn in *;
    [tauto|]. subst k1.
  intros [[= -> ->]|Hin].
  - eauto.
  - destruct (IH Hin) as (v & Hv & Hcv). eauto.
Qed.

Lemma converted_instance tys k v v' ty :
  converted tys k v v' -> assoc tys k = Some ty -> isinstance v' ty = true.
Proof.
  unfold converted. intros Hc T. rewrite T in Hc.
  destruct (isinstance v ty) eqn:I.
  - subst. exact I.
  - eapply convert_instance. exact Hc.
Qed.

Lemma given_items params dflt names p :
  dict_get (map (fun p => (p, default VNone (given params dflt p))) names) p =
  if existsb (String.eqb p) names
  then Some (default VNone (given params dflt p)) else None.
Proof. apply (dict_get_map (fun p => default VNone (given params dflt p))). Qed.

(** The first required parameter, in the order of the schema, that [params]
    does not hold is the one reported, whatever the other parameters are:
    the call is rejected before any type is checked or any validator run,
    and the caller's [params] come back untouched. *)
Theorem missing_required_parameter_reported :
  forall (tool : string) (schema : Schema) (params : dict)
         (before after : list string) (p : string),
    assoc tool_schemas tool = Some schema ->
    required schema = before ++ p :: after ->
    Forall (fun q => dict_has params q = true) before ->
    dict_has params p = false ->
    validate_tool_params tool params =
      (false, Some ("Missing required parameter: " ++ p)%string, params).
Proof.
  intros tool schema params before after p Hs Hreq Hbefore Hp.
  unfold validate_tool_params. rewrite Hs, Hreq.
  rewrite (take_required_missing params before p after [] Hbefore Hp).
  reflexivity.
Qed.

(** What an accepted call of a known tool hands back: exactly the required
    parameters followed by the optional ones that were given or have a
    default, in the order of the schema, so a parameter the schema does not
    name is dropped; every value comes from [params] (or, failing that, the
    defaults), unchanged or converted to the declared type; every value with
    a declared type is of that type; and every validator of the schema
    answers true on the returned value. *)
Theorem accepted_params_fit_schema :
  forall (tool : string) (schema : Schema) (params out : dict),
    assoc tool_schemas tool = Some schema ->
    validate_tool_params tool params = (true, None, out) ->
    map fst out = expected_names schema params /\
    (forall k v', dict_get out k = Some v' ->
       exists v, given params (defaults schema) k = Some v /\
                 converted (types schema) k v v') /\
    (forall k v' ty, dict_get out k = Some v' ->
       assoc (types schema) k = Some ty -> isinstance v' ty = true) /\
    (forall k validator v', In (k, validator) (validators schema) ->
       dict_get out k = Some v' -> validator v' = Ok true).
Proof.
  intros tool schema params out Hs Hv.
  destruct (accepted_run tool params schema out Hs Hv)
    as (Hnd & Hgiven & Hcheck & Hrun).
  pose proof (check_types_inr _ _ _ Hcheck) as Hconv.
  assert (Hfrom : forall k v', dict_get out k = Some v' ->
            exists v, given params (defaults schema) k = Some v /\
                      converted (types schema) k v v').
  { intros k v' Hk.
    destruct (converted_get _ _ _ _ _ Hconv Hk) as (v & Hv0 & Hc).
    rewrite given_items in Hv0.
    destruct (existsb (String.eqb k) (expected_names schema params)) eqn:E;
      [|discriminate].
    apply existsb_eqb_In in E. specialize (Hgiven k E).
    destruct (given params (defaults schema) k) as [g|]; [|congruence].
    cbn in Hv0. injection Hv0 as <-. eauto. }
  split; [|split; [exact Hfrom|split]].
  - rewrite (converted_keys _ _ _ Hconv), map_map. cbn. apply map_id.
  - intros k v' ty Hk T. destruct (Hfrom k v' Hk) as (v & _ & Hc).
    exact (converted_instance _ _ _ _ _ Hc T).
  - intros k validator v' Hin Hk.
    exact (run_validators_pass _ _ Hrun k validator v' Hin Hk).
Qed.

(** Validation is idempotent: the parameters an accepted call hands back are
    accepted again, for the same tool, and come back as they are: nothing is
    added, dropped, reordered or converted a second time. *)
Theorem validation_is_idempotent :
  forall (tool : string) (params out : dict),
    validate_tool_params tool params = (true, None, out) ->
    validate_tool_params tool out = (true, None, out).
Proof.
  intros tool params out Hv.
  destruct (assoc tool_schemas tool) as [schema|] eqn:Hs.
  2:{ revert Hv. unfold validate_tool_params. rewrite Hs.
      intros [= <-]. reflexivity. }
  destruct (accepted_run tool params schema out Hs Hv)
    as (Hnd & Hgiven & Hcheck & Hrun).
  pose proof (check_types_inr _ _ _ Hcheck) as Hconv.
  pose proof (schemas_distinct tool schema Hs) as Hdistinct.
  assert (Hkeys : map fst out = expected_names schema params).
  { rewrite (converted_keys _ _ _ Hconv), map_map. cbn. apply map_id. }
  assert (Hhas : forall p, dict_has out p = true <->
                           In p (expected_names schema params)).
  { intros p. rewrite dict_has_In, Hkeys. tauto. }
  assert (Hreq : Forall (fun p => dict_has out p = true) (required schema)).
  { apply List.Forall_forall. intros p Hp. apply Hhas. unfold expected_names.
    apply in_or_app. left. exact Hp. }
  assert (Hnames : expected_names schema out = expected_names schema params).
  { unfold expected_names. f_equal. apply filter_ext_in. intros p Hp.
    destruct (dict_has out p) eqn:E.
    - apply Hhas in E. unfold expected_names in E.
      apply in_app_or in E as [E|E].
      + exfalso. exact (NoDup_app_disjoint _ _ Hdistinct p E Hp).
      + apply filter_In in E as [_ E]. rewrite E. reflexivity.
    - destruct (dict_has params p || dict_has (defaults schema) p) eqn:G;
        [|apply orb_false_iff in G as [_ ->]; reflexivity].
      assert (Hin : dict_has out p = true).
      { apply Hhas. unfold expected_names. apply in_or_app. right.
        apply filter_In. auto. }
      congruence. }
  unfold validate_tool_params. rewrite Hs.
  rewrite take_required_closed;
    [|cbn; eauto using List.NoDup_app_remove_r | exact Hreq].
  cbn [app].
  rewrite take_optional_closed
    by (rewrite map_map; cbn; rewrite map_id; exact Hdistinct).
  assert (Hitems :
    map (fun p => (p, default VNone (dict_get out p))) (required schema) ++
    map (fun p => (p, default VNone (given out (defaults schema) p)))
        (List.filter (fun p => dict_has out p || dict_has (defaults schema) p)
                     (optional schema)) = out).
  { etransitivity; [|apply (dict_rebuild out); rewrite Hkeys; exact Hnd].
    rewrite Hkeys, <- Hnames. unfold expected_names. rewrite map_app. f_equal.
    apply map_ext_in. intros p Hp. unfold given.
    destruct (dict_get out p) eqn:E; [reflexivity|].
    assert (Hin : dict_has out p = true).
    { apply Hhas. rewrite <- Hnames. unfold expected_names. apply in_or_app.
      right. exact Hp. }
    unfold dict_has in Hin. rewrite E in Hin. discriminate. }
  rewrite Hitems.
  rewrite check_types_fixed.
  - rewrite Hrun. reflexivity.
  - intros k v ty Hin T.
    destruct (converted_In _ _ _ _ _ Hconv Hin) as (v0 & _ & Hc).
    exact (converted_instance _ _ _ _ _ Hc T).
Qed.

End ValidatorFacts.

Section ValidatorExamplesFacts.

Import Validator ValidatorExamples.

Lemma missing_required_parameter_reported_witness :
  dict_has partial_item "order_id" = true /\
  dict_has partial_item "product_id" = false /\
  validate_tool_params "add_order_item" partial_item =
    (false, Some "Missing required parameter: product_id", partial_item).
Proof.
  split; [reflexivity|]. split; [reflexivity|].
  eapply missing_required_parameter_reported
    with (before := ["order_id"]) (after := ["quantity"]).
  - reflexivity.
  - reflexivity.
  - repeat constructor.
  - reflexivity.
Defined.

Lemma accepted_params_fit_schema_witness :
  validate_tool_params "search_customers" search_params =
    (true, None, search_out) /\
  map fst search_out = ["name_pattern"; "limit"].
Proof.
  split; [reflexivity|].
  edestruct accepted_params_fit_schema
    with (tool := "search_customers") (params := search_params)
         (out := search_out) as [Hkeys _].
  - reflexivity.
  - reflexivity.
  - exact Hkeys.
Defined.

Lemma validation_is_idempotent_witness :
  validate_tool_params "search_customers" search_params =
    (true, None, search_out) /\
  validate_tool_params "search_customers" search_out = (true, None, search_out).
Proof.
  split; [reflexivity|].
  apply (validation_is_idempotent "search_customers" search_params).
  reflexivity.
Defined.

End ValidatorExamplesFacts.

(** * The recovery manager *)

Section RecoveryFacts.

Import ErrorRecovery Recovery.

Lemma same_books_refl m : same_books m m.
Proof. unfold same_books; auto 10. Qed.

Lemma same_books_trans a b c : same_books a b -> same_books b c -> same_books a c.
Proof. unfold same_books; intuition congruence. Qed.

Lemma get_circuit_breaker_books tool now m :
  same_books (snd (_get_circuit_breaker tool now m)) m.
Proof.
  unfold _get_circuit_breaker. destruct (circuit_breakers m !! tool); cbn;
    unfold same_books; cbn; auto 10.
Qed.

Ltac action_cases :=
  repeat match goal with
         | |- context [match ?x with _ => _ end] =>
             lazymatch x with
             | context [match _ with _ => _ end] => fail
             | _ => destruct x eqn:?
             end
         end.

(** No recovery action touches the books of the manager. *)
Lemma action_books action ctx plan rf ff m e :
  same_books (snd (fst (_execute_recovery_action action ctx plan rf ff m e))) m.
Proof.
  unfold _execute_recovery_action, await_retry, await_fallback.
  destruct action; action_cases; cbn; try apply same_books_refl.
  match goal with
  | H : _get_circuit_breaker ?tool ?now m = (_, ?m1) |- _ =>
      pose proof (get_circuit_breaker_books tool now m) as Hb;
      rewrite H in Hb; cbn in Hb
  end.
  unfold same_books in *; cbn; tauto.
Qed.

Lemma try_fallback_books actions ctx plan rf ff : forall m e,
  same_books (snd (fst (try_fallback_actions actions ctx plan rf ff m e))) m.
Proof.
  induction actions as [|a rest IH]; intros m e; cbn;
    [apply same_books_refl|].
  pose proof (action_books a ctx plan rf ff m e) as Ha.
  destruct (_execute_recovery_action a ctx plan rf ff m e)
    as [[[success result] m1] e1]. cbn in Ha.
  destruct success; cbn; [exact Ha|].
  eapply same_books_trans; [apply IH | exact Ha].
Qed.

Lemma plan_books ctx plan rf ff m e :
  same_books (snd (fst (_execute_recovery_plan ctx plan rf ff m e))) m.
Proof.
  unfold _execute_recovery_plan.
  pose proof (action_books (primary_action plan) ctx plan rf ff m e) as Ha.
  destruct (_execute_recovery_action (primary_action plan) ctx plan rf ff m e)
    as [[[success result] m1] e1]. cbn in Ha.
  destruct success; cbn; [exact Ha|].
  eapply same_books_trans; [apply try_fallback_books | exact Ha].
Qed.

Lemma last_1000_length {A} (l : list A) : (length (last_1000 l) <= 1000)%nat.
Proof.
  unfold last_1000. destruct (1000 <? length l)%nat eqn:L.
  - rewrite length_drop. apply Nat.ltb_lt in L. lia.
  - apply Nat.ltb_ge in L. exact L.
Qed.

(** Every [handle_error] call is booked once: the error is appended to the
    history, which is cut to its last 1000 entries; the counter of its
    error type grows by one; and the recovery is counted once, as a success
    or as a failure, under the primary action of the plan, whichever
    action of the plan produced the result. *)
Theorem recovery_is_booked_under_primary_action :
  forall (ctx : ErrorContext) (rf ff : option Callable) (m : Recovery.t)
         (e : Env),
    let out := handle_error ctx rf ff m e in
    let success := fst (fst (fst out)) in
    let m' := snd (fst out) in
    let primary := primary_action (error_strategies m (error_type ctx)) in
    error_history m' = last_1000 (error_history m ++ [ctx]) /\
    (length (error_history m') <= 1000)%nat /\
    (forall ty, error_counts m' ty =
       error_counts m ty + (if type_eqb ty (error_type ctx) then 1 else 0)) /\
    (forall a, recovery_success_counts m' a =
       recovery_success_counts m a +
       (if success && action_eqb a primary then 1 else 0)) /\
    (forall a, recovery_failure_counts m' a =
       recovery_failure_counts m a +
       (if negb success && action_eqb a primary then 1 else 0)) /\
    error_strategies m' = error_strategies m /\
    recovery_callbacks m' = recovery_callbacks m.
Proof.
  intros ctx rf ff m e out success m' primary.
  unfold m', success, out, primary, handle_error.
  pose proof (plan_books ctx
                (error_strategies (_record_error ctx m) (error_type ctx))
                rf ff (_record_error ctx m) e) as Hb.
  destruct (_execute_recovery_plan ctx
              (error_strategies (_record_error ctx m) (error_type ctx))
              rf ff (_record_error ctx m) e) as [[[s r] m2] e2].
  cbn [fst snd] in *.
  destruct Hb as (Hs & Hh & Hc & He & Hsc & Hfc).
  cbn [count_recovery error_history error_counts recovery_success_counts
       recovery_failure_counts error_strategies recovery_callbacks].
  rewrite Hh, He, Hs, Hc. cbn [_record_error error_history error_counts
    error_strategies recovery_callbacks].
  split; [reflexivity|]. split; [apply last_1000_length|].
  split.
  { intros ty. unfold bump. destruct (type_eqb ty (error_type ctx)); lia. }
  split.
  { intros a. destruct s; cbn; rewrite ?Hsc; cbn; unfold bump;
      [destruct (action_eqb a _)|]; lia. }
  split.
  { intros a. destruct s; cbn; rewrite ?Hfc; cbn; unfold bump;
      [|destruct (action_eqb a _)]; lia. }
  auto.
Qed.

Lemma callbacks_counters ty ctx success m e :
  retried (_execute_callbacks ty ctx success m e) = retried e /\
  fell_back (_execute_callbacks ty ctx success m e) = fell_back e.
Proof.
  unfold _execute_callbacks. generalize (recovery_callbacks m ty).
  intros names. revert e.
  induction names as [|n rest IH]; intros e; cbn; [auto|].
  destruct (IH (await_callback n ctx success e)) as [A B].
  rewrite A, B. auto.
Qed.

(** With the plans of [_initialize_strategies], [handle_error] awaits
    [retry_func] at most once, and only for an error type whose plan has a
    retry action and while [retry_count] is below the plan's [max_retries];
    it awaits [fallback_func] at most once, only for a plan with the
    fallback action and only when no retry returned.  The answer is that
    of the retry when it returned, otherwise that of the fallback, and
    [(False, None)] when neither was awaited: validation and authentication
    errors are never retried and never fall back. *)
Theorem handle_error_retries_then_falls_back :
  forall (ctx : ErrorContext) (rf ff : option Callable) (m : Recovery.t)
         (e : Env),
    error_strategies m = _initialize_strategies ->
    let plan := _initialize_strategies (error_type ctx) in
    let out := handle_error ctx rf ff m e in
    let e' := snd out in
    let retry := retry_of plan ctx rf in
    let fallback := fallback_of plan ff in
    let retry_answer := answer_of retry (retried e) in
    fst (fst out) =
      (if fst retry_answer then retry_answer
       else answer_of fallback (fell_back e)) /\
    retried e' = (retried e + awaits retry)%nat /\
    fell_back e' =
      (fell_back e + if fst retry_answer then 0 else awaits fallback)%nat /\
    (error_type ctx = VALIDATION_ERROR \/
     error_type ctx = AUTHENTICATION_ERROR ->
     fst (fst out) = (false, VNone) /\
     retried e' = retried e /\ fell_back e' = fell_back e).
Proof.
  intros ctx rf ff m e Hs plan out e' retry fallback retry_answer.
  assert (Hmain :
    fst (fst out) =
      (if fst retry_answer then retry_answer
       else answer_of fallback (fell_back e)) /\
    retried e' = (retried e + awaits retry)%nat /\
    fell_back e' =
      (fell_back e + if fst retry_answer then 0 else awaits fallback)%nat).
  { unfold retry_answer, retry, fallback, e', out, plan, handle_error,
      _execute_recovery_plan, retry_of, fallback_of, uses, answer_of, awaits.
    cbn [_record_error error_strategies]. rewrite Hs.
    destruct (error_type ctx); destruct rf as [f|]; destruct ff as [g|];
      cbn -[_execute_callbacks];
      try destruct (retry_count ctx <? _) eqn:G;
      unfold await_retry, await_fallback, sleep, _get_circuit_breaker;
      cbn -[_execute_callbacks];
      try (destruct (f (retried e)) as [el [v|x]] eqn:Ef;
           cbn -[_execute_callbacks]);
      try (destruct (g (fell_back e)) as [el' [v'|x']] eqn:Eg;
           cbn -[_execute_callbacks]);
      try (destruct (tool_name ctx) as [tool|]; cbn -[_execute_callbacks];
           [destruct (truthy_str tool); cbn -[_execute_callbacks];
            [destruct (circuit_breakers m !! tool);
             cbn -[_execute_callbacks]|]|]);
      rewrite ?Eg; cbn -[_execute_callbacks];
      match goal with
      | |- context [_execute_callbacks ?ty ?c ?s ?m1 ?e1] =>
          destruct (callbacks_counters ty c s m1 e1) as [-> ->]
      end;
      cbn; repeat split; try reflexivity; lia. }
  destruct Hmain as (Ha & Hr & Hf).
  split; [exact Ha|]. split; [exact Hr|]. split; [exact Hf|].
  intros Hty. rewrite Ha, Hr, Hf.
  unfold retry_answer, retry, fallback, plan, retry_of, fallback_of, uses.
  destruct Hty as [-> | ->]; cbn;
    rewrite ?andb_false_r; cbn; repeat split; lia.
Qed.

(** *** The circuit breakers of the manager *)

(** What an action can do to the breaker of a tool: nothing, or record
    one failure. *)
Lemma action_breaker action ctx plan rf ff m e tool :
  let m' := snd (fst (_execute_recovery_action action ctx plan rf ff m e)) in
  circuit_breakers m' !! tool = circuit_breakers m !! tool \/
  circuit_breakers m' !! tool =
    Some (CircuitBreaker.call_failed (clock e)
            (default (CircuitBreaker.default (clock e))
                     (circuit_breakers m !! tool))).
Proof.
  unfold _execute_recovery_action, await_retry, await_fallback,
    _get_circuit_breaker.
  destruct action; action_cases; cbn; auto;
    repeat match goal with
           | H : (_, _) = (_, _) |- _ => injection H as <- <-
           end; cbn.
  - destruct (decide (s = tool)) as [->|Hne].
    + right. rewrite lookup_insert_eq.
      match goal with H : _ !! tool = Some _ |- _ => rewrite H end.
      reflexivity.
    + left. rewrite lookup_insert_ne by exact Hne. reflexivity.
  - destruct (decide (s = tool)) as [->|Hne].
    + right. rewrite lookup_insert_eq.
      match goal with H : _ !! tool = None |- _ => rewrite H end.
      reflexivity.
    + left. rewrite !lookup_insert_ne by exact Hne. reflexivity.
Qed.

Lemma only_failures_refl ob : only_failures ob ob.
Proof. left. reflexivity. Qed.

Lemma only_failures_trans a b c :
  only_failures a b -> only_failures b c -> only_failures a c.
Proof.
  intros [->|(now & ts & ->)]; [auto|].
  intros [->|(now' & ts' & ->)].
  - right. eauto.
  - right. exists now, (ts ++ ts'). cbn. unfold CircuitBreaker.fail_all.
    rewrite fold_left_app. reflexivity.
Qed.

Lemma action_only_failures action ctx plan rf ff m e tool :
  only_failures (circuit_breakers m !! tool)
    (circuit_breakers
       (snd (fst (_execute_recovery_action action ctx plan rf ff m e))) !! tool).
Proof.
  destruct (action_breaker action ctx plan rf ff m e tool) as [E|E];
    cbv zeta in E; rewrite E.
  - left. reflexivity.
  - right. exists (clock e), [clock e]. reflexivity.
Qed.

Lemma try_fallback_only_failures actions ctx plan rf ff tool : forall m e,
  only_failures (circuit_breakers m !! tool)
    (circuit_breakers
       (snd (fst (try_fallback_actions actions ctx plan rf ff m e))) !! tool).
Proof.
  induction actions as [|a rest IH]; intros m e; cbn;
    [apply only_failures_refl|].
  pose proof (action_only_failures a ctx plan rf ff m e tool) as Ha.
  destruct (_execute_recovery_action a ctx plan rf ff m e)
    as [[[success result] m1] e1]. cbn in Ha.
  destruct success; cbn; [exact Ha|].
  eapply only_failures_trans; [exact Ha | apply IH].
Qed.

Lemma plan_only_failures ctx plan rf ff m e tool :
  only_failures (circuit_breakers m !! tool)
    (circuit_breakers
       (snd (fst (_execute_recovery_plan ctx plan rf ff m e))) !! tool).
Proof.
  unfold _execute_recovery_plan.
  pose proof (action_only_failures (primary_action plan) ctx plan rf ff m e tool)
    as Ha.
  destruct (_execute_recovery_action (primary_action plan) ctx plan rf ff m e)
    as [[[success result] m1] e1]. cbn in Ha.
  destruct success; cbn; [exact Ha|].
  eapply only_failures_trans; [exact Ha | apply try_fallback_only_failures].
Qed.

Lemma handle_error_only_failures ctx rf ff m e tool :
  only_failures (circuit_breakers m !! tool)
    (circuit_breakers (snd (fst (handle_error ctx rf ff m e))) !! tool).
Proof.
  unfold handle_error.
  pose proof (plan_only_failures ctx
                (error_strategies (_record_error ctx m) (error_type ctx))
                rf ff (_record_error ctx m) e tool) as Hp.
  destruct (_execute_recovery_plan ctx
              (error_strategies (_record_error ctx m) (error_type ctx))
              rf ff (_record_error ctx m) e) as [[[s r] m2] e2].
  exact Hp.
Qed.

Lemma handle_all_cons c calls m e :
  handle_all (c :: calls) m e =
  handle_all calls (snd (fst (handle_error (fst (fst c)) (snd (fst c)) (snd c) m e)))
             (snd (handle_error (fst (fst c)) (snd (fst c)) (snd c) m e)).
Proof.
  unfold handle_all. cbn [fold_left fst snd]. destruct c as [[ctx rf] ff].
  cbn [fst snd].
  destruct (handle_error ctx rf ff m e) as [[[s r] m1] e1]. reflexivity.
Qed.

Lemma handle_all_only_failures calls tool : forall m e,
  only_failures (circuit_breakers m !! tool)
    (circuit_breakers (fst (handle_all calls m e)) !! tool).
Proof.
  induction calls as [|c rest IH]; intros m e.
  - apply only_failures_refl.
  - rewrite handle_all_cons.
    eapply only_failures_trans; [apply handle_error_only_failures | apply IH].
Qed.

(** The manager only ever tells its circuit breakers of failures: through
    any run of [handle_error] calls, whatever the plans and whatever the
    retries and fallbacks answer, the breaker of a tool is the one before
    after some calls of [call_failed].  So a breaker that is OPEN stays
    OPEN, and its thresholds are kept. *)
Theorem manager_breakers_never_recover :
  forall (calls : list call) (m : Recovery.t) (e : Env) (tool : string)
         (b : CircuitBreaker.t),
    circuit_breakers m !! tool = Some b ->
    exists ts b',
      circuit_breakers (fst (handle_all calls m e)) !! tool = Some b' /\
      b' = CircuitBreaker.fail_all ts b /\
      CircuitBreaker.same_config b' b /\
      (CircuitBreaker.state b = CircuitBreaker.OPEN ->
       CircuitBreaker.state b' = CircuitBreaker.OPEN).
Proof.
  intros calls m e tool b Hb.
  assert (Hts : exists ts,
    circuit_breakers (fst (handle_all calls m e)) !! tool =
    Some (CircuitBreaker.fail_all ts b)).
  { destruct (handle_all_only_failures calls tool m e) as [E|(now & ts & E)];
      rewrite Hb in E.
    - exists []. exact E.
    - exists ts. exact E. }
  destruct Hts as [ts Hts]. exists ts, (CircuitBreaker.fail_all ts b).
  split; [exact Hts|]. split; [reflexivity|]. split.
  - apply fail_all_config.
  - apply fail_all_open.
Qed.

(** *** Server errors *)

Lemma handle_error_strategies ctx rf ff m e :
  error_strategies (snd (fst (handle_error ctx rf ff m e))) = error_strategies m.
Proof.
  unfold handle_error.
  pose proof (plan_books ctx
                (error_strategies (_record_error ctx m) (error_type ctx))
                rf ff (_record_error ctx m) e) as Hb.
  destruct (_execute_recovery_plan ctx
              (error_strategies (_record_error ctx m) (error_type ctx))
              rf ff (_record_error ctx m) e) as [[[s r] m2] e2].
  cbn in *. destruct Hb as (Hs & _). exact Hs.
Qed.

(** One server error of a tool is one failure for its breaker, whatever
    the fallback answers. *)
Lemma server_error_step ctx rf ff m e tool :
  error_strategies m = _initialize_strategies ->
  truthy_str tool = true ->
  error_type ctx = SERVER_ERROR -> tool_name ctx = Some tool ->
  circuit_breakers (snd (fst (handle_error ctx rf ff m e))) !! tool =
  Some (CircuitBreaker.call_failed (clock e)
          (default (CircuitBreaker.default (clock e))
                   (circuit_breakers m !! tool))).
Proof.
  intros Hs Htool Hty Hname.
  unfold handle_error, _execute_recovery_plan.
  cbn [_record_error error_strategies]. rewrite Hs, Hty.
  cbn -[_execute_callbacks]. rewrite Hname, Htool.
  unfold _get_circuit_breaker. cbn -[_execute_callbacks].
  destruct (circuit_breakers m !! tool) as [b|] eqn:Hb;
    cbn -[_execute_callbacks];
    (destruct ff as [g|]; cbn -[_execute_callbacks];
     [unfold await_fallback; cbn -[_execute_callbacks];
      destruct (g (fell_back e)) as [el [v|x]]; cbn -[_execute_callbacks]|]);
    apply lookup_insert_eq.
Qed.

Lemma server_errors_fail_all tool calls : forall m e b,
  error_strategies m = _initialize_strategies ->
  truthy_str tool = true ->
  circuit_breakers m !! tool = Some b ->
  Forall (server_error_of tool) calls ->
  exists ts, length ts = length calls /\
    circuit_breakers (fst (handle_all calls m e)) !! tool =
    Some (CircuitBreaker.fail_all ts b).
Proof.
  induction calls as [|c rest IH]; intros m e b Hs Htool Hb Hall.
  - exists []. split; [reflexivity | exact Hb].
  - inversion Hall as [|? ? [Hty Hname] Hrest]; subst.
    rewrite handle_all_cons.
    pose proof (server_error_step (fst (fst c)) (snd (fst c)) (snd c) m e tool
                  Hs Htool Hty Hname) as Hstep.
    rewrite Hb in Hstep. cbn [default] in Hstep.
    destruct (IH _ (snd (handle_error (fst (fst c)) (snd (fst c)) (snd c) m e))
                 _ (eq_trans (handle_error_strategies _ _ _ _ _) Hs)
                 Htool Hstep Hrest) as (ts & Hlen & Hts).
    exists (clock e :: ts). split; [cbn; congruence | exact Hts].
Qed.

(** Failures below the threshold leave a CLOSED breaker CLOSED and are
    counted. *)
Lemma fail_all_counted ts : forall cb,
  CircuitBreaker.state cb = CircuitBreaker.CLOSED ->
  CircuitBreaker.failure_count cb + Z.of_nat (length ts)
    < CircuitBreaker.failure_threshold cb ->
  CircuitBreaker.state (CircuitBreaker.fail_all ts cb) = CircuitBreaker.CLOSED /\
  CircuitBreaker.failure_count (CircuitBreaker.fail_all ts cb) =
    CircuitBreaker.failure_count cb + Z.of_nat (length ts).
Proof.
  induction ts as [|now ts IH]; intros cb E Hlt.
  - cbn. split; [exact E | lia].
  - rewrite fail_all_cons. rewrite length_cons in Hlt.
    assert (Hstep : CircuitBreaker.call_failed now cb =
              CircuitBreaker.set_failure_count
                (CircuitBreaker.failure_count cb + 1)
                (CircuitBreaker.set_last_failure_time now cb)).
    { unfold CircuitBreaker.call_failed. cbn. rewrite E.
      destruct (CircuitBreaker.failure_threshold cb <=?
                CircuitBreaker.failure_count cb + 1) eqn:L; [|reflexivity].
      apply Z.leb_le in L. lia. }
    rewrite Hstep. destruct (IH (CircuitBreaker.set_failure_count
                    (CircuitBreaker.failure_count cb + 1)
                    (CircuitBreaker.set_last_failure_time now cb)))
      as [A B]; cbn; [exact E | lia |].
    split; [exact A|]. rewrite B. cbn. lia.
Qed.

(** Server errors of one tool, handled with the plans of
    [_initialize_strategies], count against the tool's breaker whether or
    not the fallback recovers them: starting without a breaker, fewer than
    five of them leave it CLOSED with that many failures counted, and from
    the fifth on it is OPEN. *)
Theorem server_errors_open_the_breaker :
  forall (tool : string) (calls : list call) (m : Recovery.t) (e : Env),
    error_strategies m = _initialize_strategies ->
    truthy_str tool = true ->
    circuit_breakers m !! tool = None ->
    calls <> [] ->
    Forall (server_error_of tool) calls ->
    exists b,
      circuit_breakers (fst (handle_all calls m e)) !! tool = Some b /\
      if (length calls <? 5)%nat
      then CircuitBreaker.state b = CircuitBreaker.CLOSED /\
           CircuitBreaker.failure_count b = Z.of_nat (length calls)
      else CircuitBreaker.state b = CircuitBreaker.OPEN.
Proof.
  intros tool calls m e Hs Htool Hnone Hne Hall.
  destruct calls as [|c rest]; [congruence|].
  inversion Hall as [|? ? [Hty Hname] Hrest]; subst.
  rewrite handle_all_cons.
  pose proof (server_error_step (fst (fst c)) (snd (fst c)) (snd c) m e tool
                Hs Htool Hty Hname) as Hstep.
  rewrite Hnone in Hstep. cbn [default] in Hstep.
  destruct (server_errors_fail_all tool rest _
              (snd (handle_error (fst (fst c)) (snd (fst c)) (snd c) m e))
              _ (eq_trans (handle_error_strategies _ _ _ _ _) Hs)
              Htool Hstep Hrest) as (ts & Hlen & Hts).
  rewrite Hts.
  change (CircuitBreaker.fail_all ts
            (CircuitBreaker.call_failed (clock e)
               (CircuitBreaker.default (clock e))))
    with (CircuitBreaker.fail_all (clock e :: ts)
            (CircuitBreaker.default (clock e))).
  eexists. split; [reflexivity|].
  assert (Hl : length (clock e :: ts) = length (c :: rest))
    by (cbn; congruence).
  rewrite <- Hl.
  destruct (length (clock e :: ts) <? 5)%nat eqn:L.
  - apply Nat.ltb_lt in L.
    destruct (fail_all_counted (clock e :: ts)
                (CircuitBreaker.default (clock e))) as [A B];
      [reflexivity | cbn -[length Z.of_nat]; lia |].
    split; [exact A|]. rewrite B. reflexivity.
  - apply Nat.ltb_ge in L.
    apply fail_all_closed; [reflexivity | cbn -[length Z.of_nat]; lia
                            | cbn; lia].
Qed.

End RecoveryFacts.

Section RecoveryExamplesFacts.

Import ErrorRecovery Recovery RecoveryExamples.

Lemma handle_error_retries_then_falls_back_witness :
  error_strategies init = _initialize_strategies /\
  fst (fst (handle_error timeout_context (Some failing) (Some answering)
              init env)) = (true, VStr "from the database") /\
  retried (snd (handle_error timeout_context (Some failing) (Some answering)
                  init env)) = 1%nat.
Proof.
  split; [reflexivity|].
  destruct (handle_error_retries_then_falls_back timeout_context
              (Some failing) (Some answering) init env) as (Ha & Hr & _).
  - reflexivity.
  - rewrite Ha, Hr. split; reflexivity.
Defined.

Lemma manager_breakers_never_recover_witness :
  CircuitBreaker.state
    (CircuitBreaker.fail_all [1; 2; 3; 4; 5] (CircuitBreaker.default 0)) =
    CircuitBreaker.OPEN /\
  exists b',
    circuit_breakers (fst (handle_all [server_call; server_call] tripped env))
      !! "list_products" = Some b' /\
    CircuitBreaker.state b' = CircuitBreaker.OPEN.
Proof.
  split; [reflexivity|].
  destruct (manager_breakers_never_recover [server_call; server_call] tripped
              env "list_products"
              (CircuitBreaker.fail_all [1; 2; 3; 4; 5]
                 (CircuitBreaker.default 0)))
    as (ts & b' & Hb & _ & _ & Hopen).
  - reflexivity.
  - exists b'. split; [exact Hb | apply Hopen; reflexivity].
Defined.

Lemma server_errors_open_the_breaker_witness :
  exists b,
    circuit_breakers
      (fst (handle_all [server_call; server_call; server_call; server_call;
                        server_call] init env)) !! "list_products" = Some b /\
    CircuitBreaker.state b = CircuitBreaker.OPEN.
Proof.
  apply (server_errors_open_the_breaker "list_products"
           [server_call; server_call; server_call; server_call; server_call]
           init env).
  - reflexivity.
  - reflexivity.
  - reflexivity.
  - discriminate.
  - repeat constructor.
Defined.

End RecoveryExamplesFacts.

(** * The connection monitor *)

Section MonitorFacts.

Import Monitor.

Lemma fold_callbacks (f : string -> Notice) names : forall e,
  let e' := fold_left (fun e callback => await_callback (f callback) e) names e in
  notices e' = notices e ++ map f names /\
  probed e' = probed e /\ probes e' = probes e.
Proof.
  induction names as [|n rest IH]; intros e; cbn.
  - rewrite app_nil_r. auto.
  - destruct (IH (await_callback (f n) e)) as (A & B & C). cbn in A, B, C.
    rewrite A, B, C, <- app_assoc. auto.
Qed.

Lemma filter_map_all {A B} (p : B -> bool) (f : A -> B) (l : list A) :
  (forall a, p (f a) = true) -> length (List.filter p (map f l)) = length l.
Proof.
  intros Hp. induction l as [|a rest IH]; cbn; [reflexivity|].
  rewrite Hp. cbn. congruence.
Qed.

Lemma filter_map_none {A B} (p : B -> bool) (f : A -> B) (l : list A) :
  (forall a, p (f a) = false) -> length (List.filter p (map f l)) = 0%nat.
Proof.
  intros Hp. induction l as [|a rest IH]; cbn; [reflexivity|].
  rewrite Hp. exact IH.
Qed.

(** What [_notify_status_change] adds to the callbacks awaited. *)
Lemma notify_counts m server old e :
  let e' := _notify_status_change m server old e in
  failures_notified e' =
    (failures_notified e +
     if status_eqb (status server) UNHEALTHY && negb (status_eqb old UNHEALTHY)
     then length (failure_callbacks m) else 0)%nat /\
  recoveries_notified e' =
    (recoveries_notified e +
     if status_eqb (status server) HEALTHY && negb (status_eqb old HEALTHY)
     then length (recovery_callbacks m) else 0)%nat /\
  probed e' = probed e /\ probes e' = probes e.
Proof.
  unfold _notify_status_change, failures_notified, recoveries_notified.
  set (change := fun callback =>
                   StatusChanged callback (name server) old (status server)).
  destruct (fold_callbacks change (status_change_callbacks m) e)
    as (A & B & C). cbv zeta in A, B, C.
  set (e1 := fold_left _ (status_change_callbacks m) e) in *.
  assert (F1 : length (List.filter is_failed (notices e1)) =
               length (List.filter is_failed (notices e))).
  { rewrite A, List.filter_app, length_app, filter_map_none by reflexivity.
    lia. }
  assert (R1 : length (List.filter is_recovered (notices e1)) =
               length (List.filter is_recovered (notices e))).
  { rewrite A, List.filter_app, length_app, filter_map_none by reflexivity.
    lia. }
  destruct (status_eqb (status server) UNHEALTHY && negb (status_eqb old UNHEALTHY))
    eqn:U.
  - destruct (fold_callbacks
                (fun callback => Failed callback (name server) (error_message server))
                (failure_callbacks m) e1) as (A' & B' & C').
    cbv zeta in A', B', C'. rewrite A', B', C', !List.filter_app, !length_app.
    rewrite (filter_map_all is_failed), (filter_map_none is_recovered)
      by reflexivity.
    assert (H : status_eqb (status server) HEALTHY = false)
      by (destruct (status server); cbn in *; congruence).
    rewrite H. cbn. repeat split; try congruence; lia.
  - destruct (status_eqb (status server) HEALTHY && negb (status_eqb old HEALTHY))
      eqn:Hh.
    + destruct (fold_callbacks
                  (fun callback => Recovered callback (name server))
                  (recovery_callbacks m) e1) as (A' & B' & C').
      cbv zeta in A', B', C'. rewrite A', B', C', !List.filter_app, !length_app.
      rewrite (filter_map_none is_failed), (filter_map_all is_recovered)
        by reflexivity.
      repeat split; try congruence; lia.
    + repeat split; try congruence; lia.
Qed.

(** One failed check of a server with a client. *)
Lemma check_step_failed server_name m e server :
  servers m !! server_name = Some server ->
  _client server = true ->
  probe_failed (snd (probes e (probed e))) = true ->
  let m' := fst (_check_server_health server_name m e) in
  let e' := snd (_check_server_health server_name m e) in
  let now_unhealthy :=
    failure_threshold m <=? consecutive_failures server + 1 in
  (exists server',
     servers m' !! server_name = Some server' /\
     _client server' = true /\
     consecutive_failures server' = consecutive_failures server + 1 /\
     status server' = if now_unhealthy then UNHEALTHY else DEGRADED) /\
  total_failures m' = total_failures m + 1 /\
  failure_threshold m' = failure_threshold m /\
  failure_callbacks m' = failure_callbacks m /\
  recovery_callbacks m' = recovery_callbacks m /\
  probed e' = S (probed e) /\ probes e' = probes e /\
  failures_notified e' =
    (failures_notified e +
     if now_unhealthy && negb (status_eqb (status server) UNHEALTHY)
     then length (failure_callbacks m) else 0)%nat /\
  recoveries_notified e' = recoveries_notified e.
Proof.
  intros Hs Hc Hfail. unfold _check_server_health, await_health_check.
  rewrite Hs, Hc. cbn [negb].
  destruct (probes e (probed e)) as [elapsed r] eqn:Hp. cbn [snd] in Hfail.
  set (e1 := {| clock := clock e + elapsed; probes := probes e;
                probed := S (probed e); notices := notices e;
                callback_time := callback_time e |}).
  assert (Hprobe : exists error,
    after_probe server r (clock e) (clock e1) m =
    _handle_check_failure
      (if returns r then stamp (clock e1 - clock e) (clock e1) server else server)
      error (clock e1) m).
  { unfold after_probe. destruct r as [d|ex]; cbn in *.
    - destruct (connection_test_passed d); [discriminate|]. eauto.
    - eauto. }
  destruct Hprobe as [error ->]. unfold _handle_check_failure.
  assert (Hcount : consecutive_failures
            (if returns r then stamp (clock e1 - clock e) (clock e1) server
             else server) = consecutive_failures server)
    by (destruct (returns r); reflexivity).
  rewrite Hcount. cbv zeta.
  set (server1 := {| name := _; status := _ |}).
  set (m1 := set_servers _ _).
  assert (Hstatus : status server1 =
            if failure_threshold m <=? consecutive_failures server + 1
            then UNHEALTHY else DEGRADED) by reflexivity.
  assert (Hserver : exists server',
     servers m1 !! server_name = Some server' /\
     _client server' = true /\
     consecutive_failures server' = consecutive_failures server + 1 /\
     status server' = if failure_threshold m <=? consecutive_failures server + 1
                      then UNHEALTHY else DEGRADED).
  { exists server1. split; [apply lookup_insert_eq|]. split.
    - cbn. destruct (returns r); exact Hc.
    - split; [reflexivity | exact Hstatus]. }
  destruct (negb (status_eqb (status server) (status server1))) eqn:Hchg;
    cbn [fst snd].
  - destruct (notify_counts m1 server1 (status server) e1) as (F & R & P & Q).
    cbv zeta in F, R, P, Q. rewrite F, R, P, Q, Hstatus.
    split; [exact Hserver|]. repeat split; try reflexivity.
    + destruct (failure_threshold m <=? consecutive_failures server + 1);
        reflexivity.
    + destruct (failure_threshold m <=? consecutive_failures server + 1);
        cbn; unfold recoveries_notified; cbn; lia.
  - split; [exact Hserver|]. repeat split; try reflexivity.
    apply negb_false_iff in Hchg. rewrite Hstatus in Hchg.
    destruct (failure_threshold m <=? consecutive_failures server + 1);
      destruct (status server); cbn in *; try discriminate;
      unfold failures_notified; cbn; lia.
Qed.

(** One passed check, with tools loaded, of a server with a client. *)
Lemma check_step_passed server_name m e server elapsed health_result :
  servers m !! server_name = Some server ->
  _client server = true ->
  probes e (probed e) = (elapsed, Ok health_result) ->
  connection_test_passed health_result = true ->
  Orchestrator.truthy
    (default (VList []) (dict_get health_result "tools_loaded")) = true ->
  let m' := fst (_check_server_health server_name m e) in
  let e' := snd (_check_server_health server_name m e) in
  (exists server',
     servers m' !! server_name = Some server' /\
     status server' = HEALTHY /\
     consecutive_failures server' = 0 /\
     last_success server' = Some (clock e + elapsed) /\
     error_message server' = VNone) /\
  total_failures m' = total_failures m /\
  failures_notified e' = failures_notified e /\
  recoveries_notified e' =
    (recoveries_notified e +
     if negb (status_eqb (status server) HEALTHY)
     then length (recovery_callbacks m) else 0)%nat.
Proof.
  intros Hs Hc Hp Hpass Htools.
  unfold _check_server_health, await_health_check.
  rewrite Hs, Hc, Hp. cbn [negb]. unfold after_probe. rewrite Hpass.
  unfold check_passed. rewrite Htools. cbv zeta.
  set (e1 := {| clock := clock e + elapsed; probes := probes e;
                probed := S (probed e); notices := notices e;
                callback_time := callback_time e |}).
  set (server1 := {| name := _; status := HEALTHY |}).
  set (m1 := set_servers _ _).
  assert (Hserver : exists server',
     servers m1 !! server_name = Some server' /\
     status server' = HEALTHY /\
     consecutive_failures server' = 0 /\
     last_success server' = Some (clock e + elapsed) /\
     error_message server' = VNone).
  { exists server1. split; [apply lookup_insert_eq|]. auto. }
  change (status server1) with HEALTHY.
  destruct (negb (status_eqb (status server) HEALTHY)) eqn:Hchg; cbn [fst snd].
  - destruct (notify_counts m1 server1 (status server) e1) as (F & R & _).
    cbv zeta in F, R. rewrite F, R.
    change (status server1) with HEALTHY. cbn [status_eqb andb].
    rewrite Hchg. split; [exact Hserver|]. repeat split.
    unfold failures_notified. cbn. lia.
  - split; [exact Hserver|]. repeat split.
    unfold recoveries_notified. cbn. lia.
Qed.

Lemma check_times_app j : forall k server_name m e,
  check_times (k + j) server_name m e =
  check_times j server_name (fst (check_times k server_name m e))
              (snd (check_times k server_name m e)).
Proof.
  intros k. induction k as [|k IH]; intros server_name m e; cbn.
  - reflexivity.
  - destruct (_check_server_health server_name m e) as [m1 e1]. apply IH.
Qed.

(** A run of failed checks, from any state of the server. *)
Lemma failing_run k : forall server_name m e server,
  servers m !! server_name = Some server ->
  _client server = true ->
  (forall i, (i < k)%nat ->
     probe_failed (snd (probes e (probed e + i)%nat)) = true) ->
  let m' := fst (check_times k server_name m e) in
  let e' := snd (check_times k server_name m e) in
  let failures := consecutive_failures server + Z.of_nat k in
  (exists server',
     servers m' !! server_name = Some server' /\
     _client server' = true /\
     consecutive_failures server' = failures /\
     status server' =
       if (0 <? k)%nat
       then if failure_threshold m <=? failures then UNHEALTHY else DEGRADED
       else status server) /\
  total_failures m' = total_failures m + Z.of_nat k /\
  failure_threshold m' = failure_threshold m /\
  failure_callbacks m' = failure_callbacks m /\
  recovery_callbacks m' = recovery_callbacks m /\
  probed e' = (probed e + k)%nat /\ probes e' = probes e /\
  failures_notified e' =
    (failures_notified e +
     if (0 <? k)%nat && (failure_threshold m <=? failures)%Z
        && (negb (status_eqb (status server) UNHEALTHY)
            || negb (failure_threshold m <=? consecutive_failures server + 1)%Z)
     then length (failure_callbacks m) else 0)%nat /\
  recoveries_notified e' = recoveries_notified e.
Proof.
  induction k as [|k IH]; intros server_name m e server Hs Hc Hfail.
  - cbn. split.
    + exists server. rewrite Z.add_0_r. auto.
    + repeat split; lia.
  - cbn [check_times].
    assert (H0 : probe_failed (snd (probes e (probed e))) = true).
    { specialize (Hfail 0%nat ltac:(lia)). rewrite Nat.add_0_r in Hfail.
      exact Hfail. }
    destruct (check_step_failed server_name m e server Hs Hc H0)
      as ((server1 & Hs1 & Hc1 & Hn1 & Hst1) & Tf & Th & Fc & Rc & Pd & Pr & Fn & Rn).
    cbv zeta in *.
    destruct (_check_server_health server_name m e) as [m1 e1].
    cbn [fst snd] in *.
    assert (Hfail1 : forall i, (i < k)%nat ->
              probe_failed (snd (probes e1 (probed e1 + i)%nat)) = true).
    { intros i Hi. rewrite Pr, Pd.
      replace (S (probed e) + i)%nat with (probed e + S i)%nat by lia.
      apply Hfail. lia. }
    destruct (IH server_name m1 e1 server1 Hs1 Hc1 Hfail1)
      as ((server2 & Hs2 & Hc2 & Hn2 & Hst2) & Tf2 & Th2 & Fc2 & Rc2 & Pd2
          & Pr2 & Fn2 & Rn2).
    cbv zeta in *.
    rewrite Th, Hn1, Fc in *.
    split.
    + exists server2. split; [exact Hs2|]. split; [exact Hc2|].
      split; [lia|]. rewrite Hst2, Hst1.
      replace (consecutive_failures server + 1 + Z.of_nat k)
        with (consecutive_failures server + Z.of_nat (S k)) by lia.
      destruct k as [|k]; [|reflexivity]. cbn [Nat.ltb Nat.leb].
      replace (consecutive_failures server + Z.of_nat 1)
        with (consecutive_failures server + 1) by lia.
      reflexivity.
    + repeat split; try congruence; try lia.
      rewrite Fn2, Fn, Hst1.
      replace (consecutive_failures server + 1 + Z.of_nat k)
        with (consecutive_failures server + Z.of_nat (S k)) by lia.
      destruct (Z.leb_spec (failure_threshold m)
                           (consecutive_failures server + 1)) as [U1|U1];
        destruct (Z.leb_spec (failure_threshold m)
                             (consecutive_failures server + 1 + 1)) as [U2|U2];
        destruct (Z.leb_spec (failure_threshold m)
                   (consecutive_failures server + Z.of_nat (S k))) as [Uk|Uk];
        destruct (status_eqb (status server) UNHEALTHY);
        destruct k as [|k]; cbn [Nat.ltb Nat.leb andb orb negb status_eqb];
        try lia.
Qed.

(** An outage is notified once.  For a server that has a client and is
    not yet UNHEALTHY, a run of failed checks (the probe raised, or its
    connection test is not ['success']) counts every one of them, in
    [consecutive_failures] and in [total_failures]; the server is UNHEALTHY
    exactly when the count has reached [failure_threshold], and DEGRADED
    until then; every failure callback is awaited once if the threshold was
    reached, and not at all otherwise, however long the outage lasts; no
    recovery callback is awaited. *)
Theorem outage_is_notified_once :
  forall (k : nat) (server_name : string) (m : Monitor.t) (e : Env)
         (server : ServerHealth),
    servers m !! server_name = Some server ->
    _client server = true ->
    status server <> UNHEALTHY ->
    (0 < k)%nat ->
    (forall i, (i < k)%nat ->
       probe_failed (snd (probes e (probed e + i)%nat)) = true) ->
    let m' := fst (check_times k server_name m e) in
    let e' := snd (check_times k server_name m e) in
    let failures := consecutive_failures server + Z.of_nat k in
    (exists server',
       servers m' !! server_name = Some server' /\
       consecutive_failures server' = failures /\
       status server' =
         if failure_threshold m <=? failures then UNHEALTHY else DEGRADED) /\
    total_failures m' = total_failures m + Z.of_nat k /\
    failures_notified e' =
      (failures_notified e +
       if (failure_threshold m <=? failures)%Z
       then length (failure_callbacks m) else 0)%nat /\
    recoveries_notified e' = recoveries_notified e.
Proof.
  intros k server_name m e server Hs Hc Hst Hk Hfail.
  destruct (failing_run k server_name m e server Hs Hc Hfail)
    as ((server' & Hs' & _ & Hn & Hst') & Tf & _ & _ & _ & _ & _ & Fn & Rn).
  cbv zeta in *.
  assert (Hpos : (0 <? k)%nat = true) by (apply Nat.ltb_lt; exact Hk).
  rewrite Hpos in *.
  assert (Hnot : status_eqb (status server) UNHEALTHY = false)
    by (destruct (status server); cbn; congruence).
  rewrite Hnot in Fn. cbn [negb orb andb] in Fn. rewrite andb_true_r in Fn.
  split; [exists server'; auto|]. auto.
Qed.

(** One passed check ends an outage, whatever [recovery_threshold] is.
    After a run of failed checks, the first probe whose connection test is
    ['success'] and that reports tools makes the server HEALTHY, resets
    [consecutive_failures] and clears the error; every recovery callback is
    awaited once for it; and over the whole outage every failure callback
    was awaited once if the server had become UNHEALTHY, and not at all
    otherwise. *)
Theorem one_passed_check_ends_the_outage :
  forall (k : nat) (server_name : string) (m : Monitor.t) (e : Env)
         (server : ServerHealth) (elapsed : Z) (health_result : dict),
    servers m !! server_name = Some server ->
    _client server = true ->
    status server <> UNHEALTHY ->
    (0 < k)%nat ->
    (forall i, (i < k)%nat ->
       probe_failed (snd (probes e (probed e + i)%nat)) = true) ->
    probes e (probed e + k)%nat = (elapsed, Ok health_result) ->
    connection_test_passed health_result = true ->
    Orchestrator.truthy
      (default (VList []) (dict_get health_result "tools_loaded")) = true ->
    let m' := fst (check_times (k + 1) server_name m e) in
    let e' := snd (check_times (k + 1) server_name m e) in
    (exists server',
       servers m' !! server_name = Some server' /\
       status server' = HEALTHY /\
       consecutive_failures server' = 0 /\
       error_message server' = VNone) /\
    total_failures m' = total_failures m + Z.of_nat k /\
    failures_notified e' =
      (failures_notified e +
       if (failure_threshold m <=? consecutive_failures server + Z.of_nat k)%Z
       then length (failure_callbacks m) else 0)%nat /\
    recoveries_notified e' =
      (recoveries_notified e + length (recovery_callbacks m))%nat.
Proof.
  intros k server_name m e server elapsed health_result
         Hs Hc Hst Hk Hfail Hp Hpass Htools.
  cbv zeta. rewrite check_times_app.
  destruct (failing_run k server_name m e server Hs Hc Hfail)
    as ((server1 & Hs1 & Hc1 & Hn1 & Hst1) & Tf & _ & _ & Rc & Pd & Pr & Fn & Rn).
  cbv zeta in *.
  assert (Hpos : (0 <? k)%nat = true) by (apply Nat.ltb_lt; exact Hk).
  rewrite Hpos in *.
  assert (Hnot : status_eqb (status server) UNHEALTHY = false)
    by (destruct (status server); cbn; congruence).
  rewrite Hnot in Fn. cbn [negb orb andb] in Fn. rewrite andb_true_r in Fn.
  destruct (check_times k server_name m e) as [m1 e1]. cbn [fst snd] in *.
  assert (Hp1 : probes e1 (probed e1) = (elapsed, Ok health_result))
    by (rewrite Pr, Pd; exact Hp).
  cbn [check_times].
  destruct (check_step_passed server_name m1 e1 server1 elapsed health_result
              Hs1 Hc1 Hp1 Hpass Htools)
    as ((server2 & Hs2 & Hst2 & Hn2 & _ & Hm2) & Tf2 & Fn2 & Rn2).
  cbv zeta in *.
  destruct (_check_server_health server_name m1 e1) as [m2 e2].
  cbn [fst snd] in *.
  split; [exists server2; auto|].
  split; [congruence|]. split; [congruence|].
  rewrite Rn2, Rn, Rc.
  assert (Hunwell : status_eqb (status server1) HEALTHY = false).
  { rewrite Hst1. destruct (_ <=? _); reflexivity. }
  rewrite Hunwell. reflexivity.
Qed.

End MonitorFacts.

Section MonitorExamplesFacts.

Import Monitor MonitorExamples.

Lemma outage_is_notified_once_witness :
  servers monitor !! "primary" = Some fresh_server /\
  failures_notified (snd (check_times 3 "primary" monitor outage)) = 1%nat /\
  total_failures (fst (check_times 3 "primary" monitor outage)) = 3.
Proof.
  split; [reflexivity|].
  destruct (outage_is_notified_once 3 "primary" monitor outage fresh_server)
    as (_ & Tf & Fn & _).
  - reflexivity.
  - reflexivity.
  - discriminate.
  - lia.
  - intros i Hi. destruct i as [|[|[|i]]]; try reflexivity; lia.
  - rewrite Tf, Fn. split; reflexivity.
Defined.

Lemma one_passed_check_ends_the_outage_witness :
  recoveries_notified (snd (check_times 4 "primary" monitor outage)) = 1%nat /\
  failures_notified (snd (check_times 4 "primary" monitor outage)) = 1%nat.
Proof.
  destruct (one_passed_check_ends_the_outage 3 "primary" monitor outage
              fresh_server 1000
              [("connection_test", VStr "success"); ("tools_loaded", VNum 9)])
    as (_ & _ & Fn & Rn).
  - reflexivity.
  - reflexivity.
  - discriminate.
  - lia.
  - intros i Hi. destruct i as [|[|[|i]]]; try reflexivity; lia.
  - reflexivity.
  - reflexivity.
  - reflexivity.
  - change (3 + 1)%nat with 4%nat in Fn, Rn. rewrite Fn, Rn.
    split; reflexivity.
Defined.

End MonitorExamplesFacts.
